(** * Media ingestion pipeline of the Goklyn backend

    A shallow embedding of the gallery controller ([extractMetadata],
    [generateThumbnail], [createGalleryItem], [bulkUploadGalleryItems]) and
    of the Cloudinary utility it imports ([uploadToCloudinary],
    [deleteFromCloudinary]), followed by the properties the design document
    states about them.

    Asynchronous functions are modelled in a state-and-exception monad over a
    [World]: the local disk, the system clock, the assets stored at the
    provider, the console, the database, and a log of the calls that leave
    the process.  Third-party libraries (sharp, exifr, ffprobe, ffmpeg, the
    Cloudinary SDK, mongoose) are oracles collected in [Env].

    The controller is written against the gateway it imports; it is embedded
    with that gateway as a section variable, and [App] links it to the
    repository's [uploadToCloudinary]. *)

From Stdlib Require Import String Ascii List ZArith Lia Bool QArith Qround DecimalString Permutation.
From Stdlib Require Import DecimalZ DecimalPos.
Import ListNotations.
Open Scope string_scope.
Open Scope Z_scope.

Set Implicit Arguments.

(* ================================================================= *)
(** ** JavaScript string helpers *)

Module Js.

(** [s.split(sep)] for a one-character separator. *)
Fixpoint split (sep : ascii) (s : string) : list string :=
  match s with
  | EmptyString => [EmptyString]
  | String c rest =>
      if Ascii.eqb c sep then EmptyString :: split sep rest
      else match split sep rest with
           | [] => [String c EmptyString]
           | h :: t => String c h :: t
           end
  end.

(** [parts.join(sep)]. *)
Definition join (sep : string) (parts : list string) : string :=
  String.concat sep parts.

(** [s.startsWith(p)]. *)
Definition startsWith (p s : string) : bool := String.prefix p s.

(** [arr[arr.length - 1]], with [undefined] read as the empty string
    (never reached on the result of [split], which is non-empty). *)
Definition last_part (parts : list string) : string := List.last parts "".

(** [arr[0]] on a list of strings. *)
Definition first_part (parts : list string) : string := List.hd "" parts.

(** [arr.findIndex(p)]; JavaScript's -1 is kept. *)
Fixpoint findIndex_from (p : string -> bool) (l : list string) (i : Z) : Z :=
  match l with
  | [] => -1
  | x :: t => if p x then i else findIndex_from p t (i + 1)
  end.

Definition findIndex (p : string -> bool) (l : list string) : Z :=
  findIndex_from p l 0.

(** [arr.slice(start, -1)] for a non-negative [start]. *)
Definition slice_to_last (start : Z) (l : list string) : list string :=
  List.skipn (Z.to_nat start) (List.removelast l).

(** [arr.slice(i, j)] for natural bounds. *)
Definition slice {A} (l : list A) (i j : nat) : list A :=
  List.firstn (j - i) (List.skipn i l).

(** [arr.includes(x)] when [x] may be [undefined]. *)
Definition includes (l : list string) (x : option string) : bool :=
  match x with
  | None => false
  | Some s => List.existsb (String.eqb s) l
  end.

(** Template-literal rendering of an integer. *)
Definition show_Z (z : Z) : string := NilZero.string_of_int (Z.to_int z).

Definition is_space (c : ascii) : bool :=
  let n := nat_of_ascii c in
  (Nat.eqb n 32 || (Nat.leb 9 n && Nat.leb n 13))%bool.

Fixpoint trimStart (s : string) : string :=
  match s with
  | String c rest => if is_space c then trimStart rest else s
  | EmptyString => EmptyString
  end.

Fixpoint rev_string_onto (s acc : string) : string :=
  match s with
  | EmptyString => acc
  | String c rest => rev_string_onto rest (String c acc)
  end.

Definition rev_string (s : string) : string := rev_string_onto s "".

(** [s.trim()] on ASCII white space. *)
Definition trim (s : string) : string :=
  rev_string (trimStart (rev_string (trimStart s))).

(** Index of the last occurrence of [c] in [s]. *)
Fixpoint lastIndexOf_from (c : ascii) (s : string) (i : nat) (found : option nat)
  : option nat :=
  match s with
  | EmptyString => found
  | String d rest =>
      lastIndexOf_from c rest (S i) (if Ascii.eqb c d then Some i else found)
  end.

Definition lastIndexOf (c : ascii) (s : string) : option nat :=
  lastIndexOf_from c s 0%nat None.

(** [path.basename(p)] on POSIX paths without trailing slashes. *)
Definition basename (p : string) : string := last_part (split "/" p).

(** [path.extname(p)]: from the last dot of the base name, unless that dot
    is its first character. *)
Definition extname (p : string) : string :=
  let b := basename p in
  if String.eqb b ".." then ""
  else match lastIndexOf "." b with
       | Some (S i) => String.substring (S i) (String.length b - S i) b
       | _ => ""
       end.

(** [s.replace('.', '')]: the first dot is removed. *)
Fixpoint remove_first_dot (s : string) : string :=
  match s with
  | EmptyString => EmptyString
  | String c rest => if Ascii.eqb c "." then rest else String c (remove_first_dot rest)
  end.

(** [path.parse(p).name]: the base name without its extension. *)
Definition parse_name (p : string) : string :=
  let b := basename p in
  String.substring 0 (String.length b - String.length (extname p)) b.

(** [a || b] on strings: the empty string is falsy. *)
Definition or_string (a : option string) (b : string) : string :=
  match a with
  | Some s => if String.eqb s "" then b else s
  | None => b
  end.

(** [s.endsWith(p)]. *)
Definition endsWith (p s : string) : bool := String.prefix (rev_string p) (rev_string s).

(** Node's [normalizeString] of the POSIX [path] module, on the segments
    between the slashes: empty segments and [.] are dropped, [..] removes
    the segment before it when there is one that is not itself [..], and is
    otherwise kept only when [allowAboveRoot].  [res] holds the segments kept
    so far, last first. *)
Fixpoint normalizeString (allowAboveRoot : bool) (segments res : list string) : list string :=
  match segments with
  | [] => List.rev res
  | seg :: rest =>
      if (String.eqb seg "" || String.eqb seg ".")%bool then
        normalizeString allowAboveRoot rest res
      else if String.eqb seg ".." then
        match res with
        | top :: below =>
            if String.eqb top ".." then
              normalizeString allowAboveRoot rest
                (if allowAboveRoot then ".." :: res else res)
            else normalizeString allowAboveRoot rest below
        | [] =>
            normalizeString allowAboveRoot rest (if allowAboveRoot then [".."] else [])
        end
      else normalizeString allowAboveRoot rest (seg :: res)
  end.

(** [path.normalize(p)] on POSIX. *)
Definition normalize (p : string) : string :=
  if String.eqb p "" then "."
  else
    let isAbsolute := startsWith "/" p in
    let trailingSeparator := endsWith "/" p in
    let res := join "/" (normalizeString (negb isAbsolute) (split "/" p) []) in
    if String.eqb res "" then
      if isAbsolute then "/" else if trailingSeparator then "./" else "."
    else
      let res := if trailingSeparator then res ++ "/" else res in
      if isAbsolute then "/" ++ res else res.

(** [path.join(...args)] on POSIX: the non-empty arguments joined by a
    slash, then normalised. *)
Definition path_join (args : list string) : string :=
  match List.filter (fun a => negb (String.eqb a "")) args with
  | [] => "."
  | parts => normalize (join "/" parts)
  end.

End Js.

(* ================================================================= *)
(** ** Errors, the world and the monad *)

(** A thrown value: [ApiError(message, statusCode)] or a plain [Error]
    (no status code). *)
Record Error := { message : string; statusCode : option Z }.

Definition ApiError (msg : string) (code : Z) : Error :=
  {| message := msg; statusCode := Some code |}.

Definition PlainError (msg : string) : Error :=
  {| message := msg; statusCode := None |}.

(** Calls that leave the process. *)
Inductive ExtCall :=
| SharpMetadata (p : string)
| ExifrParse (p : string)
| Ffprobe (p : string)
| SharpResize (src dst : string)
| FfmpegScreenshots (src : string)
| CloudUpload (p : option string) (folder : string)
| CloudDestroy (id : string)
| DbCreate (url : string).

Inductive Level := LLog | LWarn | LError.

Record LogLine := { level : Level; text : string }.

(* ----------------------------------------------------------------- *)
(** *** Data model of the gallery *)

Inductive MediaType := Image | Video.

(** A JavaScript number that is an integer or [NaN]. *)
Inductive Number := NaN | Num (z : Z).

(** [metadata.aspectRatio]: a floating-point quotient for images (kept as its
    two operands), the probe's display aspect ratio string for videos. *)
Inductive AspectRatio :=
| Quotient (w h : Z)
| Display (dar : option string).

Record Location := {
  coordinates : Q * Q;          (* [longitude, latitude] *)
  loc_name : option string
}.

Record Exif := {
  cameraMake : option string;
  cameraModel : option string;
  focalLength : option string;
  aperture : option string;
  shutterSpeed : option string;
  iso : option Z;
  takenAt : option string;
  location : option Location
}.

(** The [metadata] object: a field is [None] when it was never assigned. *)
Record Metadata := {
  width : option Z;
  height : option Z;
  duration : option Number;
  format : option string;
  size : option Z;
  aspectRatio : option AspectRatio;
  exif : option Exif
}.

Definition empty_metadata : Metadata :=
  {| width := None; height := None; duration := None; format := None;
     size := None; aspectRatio := None; exif := None |}.

(** The object handed to [GalleryItem.create], which is also the created
    document as far as the controller reads it. *)
Record Doc := {
  title : option string;
  description : option string;
  album : option string;
  isFeatured : option bool;
  status : option string;
  mediaType : MediaType;
  url : string;
  thumbnailUrl : option string;
  metadata : Metadata;
  tags : option (list string);
  createdBy : string
}.

(* ----------------------------------------------------------------- *)
(** *** World *)

Record World := {
  fs : list string;        (* paths present on the local disk *)
  clock : Z;               (* Date.now(), in milliseconds *)
  remote : list string;    (* public ids stored at the provider *)
  calls : list ExtCall;    (* external calls made so far, oldest first *)
  console : list LogLine;  (* console output, oldest first *)
  db : list Doc            (* created gallery documents, oldest first *)
}.

Inductive Completion (A : Type) :=
| Return (a : A)
| Throw (e : Error).

Arguments Throw {A} e.

Definition M (A : Type) : Type := World -> Completion A * World.

Definition ret {A} (a : A) : M A := fun w => (Return a, w).

Definition throw {A} (e : Error) : M A := fun w => (Throw e, w).

Definition bind {A B} (m : M A) (k : A -> M B) : M B :=
  fun w =>
    match m w with
    | (Return a, w') => k a w'
    | (Throw e, w') => (Throw e, w')
    end.

(** [try { body } catch (error) { handler }]. *)
Definition try_catch {A} (body : M A) (handler : Error -> M A) : M A :=
  fun w =>
    match body w with
    | (Return a, w') => (Return a, w')
    | (Throw e, w') => handler e w'
    end.

Definition get_world : M World := fun w => (Return w, w).

Definition set_fs (f : list string) (w : World) : World :=
  {| fs := f; clock := clock w; remote := remote w; calls := calls w;
     console := console w; db := db w |}.

Definition set_remote (r : list string) (w : World) : World :=
  {| fs := fs w; clock := clock w; remote := r; calls := calls w;
     console := console w; db := db w |}.

Definition add_log (l : LogLine) (w : World) : World :=
  {| fs := fs w; clock := clock w; remote := remote w; calls := calls w;
     console := console w ++ [l]; db := db w |}.

Definition add_doc (d : Doc) (w : World) : World :=
  {| fs := fs w; clock := clock w; remote := remote w; calls := calls w;
     console := console w; db := db w ++ [d] |}.

(** An external call is recorded and takes [dt] milliseconds. *)
Definition add_call (c : ExtCall) (dt : Z) (w : World) : World :=
  {| fs := fs w; clock := clock w + Z.max 0 dt; remote := remote w;
     calls := calls w ++ [c]; console := console w; db := db w |}.

Definition modify (f : World -> World) : M unit := fun w => (Return tt, f w).

Definition console_log (lvl : Level) (t : string) : M unit :=
  modify (add_log {| level := lvl; text := t |}).

(** *** Local disk *)

Definition on_disk (p : string) (w : World) : bool :=
  List.existsb (String.eqb p) (fs w).

Definition disk_remove (p : string) (l : list string) : list string :=
  List.filter (fun q => negb (String.eqb p q)) l.

Definition disk_add (p : string) (l : list string) : list string :=
  if List.existsb (String.eqb p) l then l else l ++ [p].

(** [fs.unlink(p)]: rejects with ENOENT when the path is absent. *)
Definition fs_unlink (p : string) : M unit :=
  fun w =>
    if on_disk p w then (Return tt, set_fs (disk_remove p (fs w)) w)
    else (Throw (PlainError ("ENOENT: no such file or directory, unlink '" ++ p ++ "'")), w).

(** [fs.unlink(p).catch(console.error)]: a failure is printed, not raised. *)
Definition fs_unlink_logged (p : string) : M unit :=
  try_catch (fs_unlink p) (fun e => console_log LError (message e)).

(** [fs.rename(src, dst)]. *)
Definition fs_rename (src dst : string) : M unit :=
  fun w =>
    if on_disk src w
    then (Return tt, set_fs (disk_add dst (disk_remove src (fs w))) w)
    else (Throw (PlainError ("ENOENT: no such file or directory, rename '" ++ src ++ "'")), w).

(** [Date.now()]. *)
Definition date_now : M Z := fun w => (Return (clock w), w).

Declare Scope js_scope.
Delimit Scope js_scope with js.
Notation "x <- m ;; k" := (bind m (fun x => k))
  (at level 61, m at next level, right associativity) : js_scope.
Notation "m ;;; k" := (bind m (fun _ => k))
  (at level 61, right associativity) : js_scope.

(* ================================================================= *)
(** ** The environment: third-party libraries as oracles *)

(** What [sharp(path).metadata()] resolves to. *)
Record ImageMeta := { im_width : Z; im_height : Z; im_format : string }.

(** The tags [exifr.parse] exposes, as far as the controller reads them. *)
Record ExifData := {
  Make : option string;
  Model : option string;
  FocalLength : option Q;
  FNumber : option Q;
  ExposureTime : option Q;
  ISO : option Z;
  DateTimeOriginal : option string;
  CreateDate : option string;
  latitude : option Q;
  longitude : option Q;
  GPSAreaInformation : option string
}.

(** [exifr.parse] rejects, resolves to [undefined], or resolves to tags. *)
Inductive ExifOutcome :=
| ExifRejects (e : Error)
| ExifAbsent
| ExifFound (d : ExifData).

Record Stream := {
  codec_type : string;
  st_width : Z;
  st_height : Z;
  display_aspect_ratio : option string
}.

(** [probeData]: the stream list and [parseFloat(format.duration)]
    ([None] is NaN). *)
Record ProbeData := { streams : list Stream; format_duration : option Q }.

(** What [cloudinary.uploader.upload] resolves to. *)
Record CloudResult := {
  public_id : string;
  secure_url : string;
  cr_format : string;
  bytes : Z;
  cr_width : Z;
  cr_height : Z
}.

(** How [destroy] can fail for the caller: the provider's promise rejects,
    or the 10-second timer wins the race.  Neither tells whether the asset
    is still stored: a rejection can follow a deletion that was carried out,
    and the race does not cancel the pending request, so each fault says
    whether the deletion took effect all the same. *)
Inductive DestroyFault :=
| DestroyRejects (e : Error) (took_effect : bool)
| DestroyTimesOut (took_effect : bool).

Definition deletion_took_effect (f : DestroyFault) : bool :=
  match f with
  | DestroyRejects _ b => b
  | DestroyTimesOut b => b
  end.

Record Env := {
  sharp_metadata : string -> Error + ImageMeta;
  file_size : string -> Z;
  exifr_parse : string -> ExifOutcome;
  ffprobe : string -> Error + ProbeData;
  sharp_resize : string -> option Error;        (* [None]: the thumbnail is written *)
  ffmpeg_screenshots : string -> option Error;  (* [None]: the frame is written *)
  cloud_upload : option string -> string -> Error + CloudResult;
  cloud_destroy_fault : string -> option DestroyFault;
  db_create : Doc -> option Error;              (* [None]: the document is stored *)
  latency : ExtCall -> Z;
  number_to_string : Q -> string;               (* template-literal rendering *)
  CLOUDINARY_FOLDER : option string             (* process.env.CLOUDINARY_FOLDER *)
}.

Definition external (env : Env) (c : ExtCall) : M unit :=
  modify (add_call c (latency env c)).

(** The double-quote character, for messages that contain it. *)
Definition dq : string := String (ascii_of_nat 34) "".

(* ================================================================= *)
(** ** utils/cloudinary.js *)

Module Cloudinary.

(** The [file] argument as callers pass it: nothing, a bare path string, or
    an object whose properties may each be missing. *)
Record FileObj := {
  f_path : option string;
  f_mimetype : option string;
  f_size : option Z
}.

Inductive JsFile :=
| FMissing
| FPath (p : string)
| FObject (o : FileObj).

(** [!file]. *)
Definition falsy (file : JsFile) : bool :=
  match file with
  | FMissing => true
  | FPath p => String.eqb p ""
  | FObject _ => false
  end.

(** [file.size], [file.mimetype], [file.path]: a string has none of them. *)
Definition size_of (file : JsFile) : option Z :=
  match file with FObject o => f_size o | _ => None end.

Definition mimetype_of (file : JsFile) : option string :=
  match file with FObject o => f_mimetype o | _ => None end.

Definition path_of (file : JsFile) : option string :=
  match file with FObject o => f_path o | _ => None end.

Definition maxSize : Z := 5 * 1024 * 1024.

Definition allowedTypes : list string :=
  ["image/jpeg"; "image/png"; "image/webp"; "image/gif"].

(** [file.size > maxSize]; [undefined > n] is false. *)
Definition exceeds_maxSize (file : JsFile) : bool :=
  match size_of file with
  | Some n => maxSize <? n
  | None => false
  end.

(** [error.statusCode || 500]. *)
Definition status_or (c : option Z) (d : Z) : Z :=
  match c with
  | Some n => if n =? 0 then d else n
  | None => d
  end.

Record DeleteResult := { result : string; del_message : option string }.

Section WithEnv.

Variable env : Env.

(** [uploadPromise(path, options)]: the provider stores the asset under the
    public id it answers with. *)
Definition uploadPromise (p : option string) (folder : string) : M CloudResult :=
  (external env (CloudUpload p folder) ;;;
   match cloud_upload env p folder with
   | inl e => throw e
   | inr r => modify (fun w => set_remote (disk_add (public_id r) (remote w)) w) ;;; ret r
   end)%js.

(** [fs.promises.unlink(file.path)], where the path may be [undefined]. *)
Definition unlink_path (p : option string) : M unit :=
  match p with
  | Some q => fs_unlink q
  | None => throw (PlainError ("The " ++ dq ++ "path" ++ dq ++ " argument must be of type string"))
  end.

(** The [catch] block of [uploadToCloudinary]. *)
Definition upload_failed (file : JsFile) (error : Error) : M CloudResult :=
  ((match path_of file with
    | Some p =>
        w <- get_world ;;
        if (negb (String.eqb p "") && on_disk p w)%bool
        then fs_unlink_logged p else ret tt
    | None => ret tt
    end) ;;;
   console_log LError ("Cloudinary upload error: " ++ message error) ;;;
   throw (ApiError (Js.or_string (Some (message error)) "Error uploading file to Cloudinary")
                   (status_or (statusCode error) 500)))%js.

Definition uploadToCloudinary (file : JsFile) (folder : string) : M CloudResult :=
  try_catch
    (if falsy file then throw (ApiError "No file provided" 400)
     else if exceeds_maxSize file then throw (ApiError "File size exceeds 5MB limit" 400)
     else if negb (Js.includes allowedTypes (mimetype_of file))
     then throw (ApiError "Invalid file type. Only images are allowed" 400)
     else
       (r <- uploadPromise (path_of file)
               (Js.or_string (CLOUDINARY_FOLDER env) "portfolio" ++ "/" ++ folder) ;;
        unlink_path (path_of file) ;;;
        ret r)%js)
    (upload_failed file).

(** The identifier handed to the provider: the argument itself, or the
    folder path and file stem cut out of a delivery URL. *)
Definition idToDelete (publicId : string) : string :=
  if Js.startsWith "http" publicId then
    let urlParts := Js.split "/" publicId in
    let fileName := Js.last_part urlParts in
    let stem := Js.first_part (Js.split "." fileName) in
    let folderIndex := Js.findIndex (String.eqb "upload") urlParts in
    if 0 <? folderIndex
    then Js.join "/" (Js.slice_to_last (folderIndex + 2) urlParts ++ [stem])
    else stem
  else publicId.

(** What the race rejects with on a fault. *)
Definition fault_error (f : DestroyFault) : Error :=
  match f with
  | DestroyRejects e _ => e
  | DestroyTimesOut _ =>
      PlainError "Cloudinary delete operation timed out after 10 seconds"
  end.

(** [Promise.race([destroyPromise(id, ...), timeoutPromise])]: unless a fault
    occurs, the provider answers ['ok'] and forgets a stored id, and answers
    ['not found'] for any other.  On a fault the race rejects; the request
    has gone out and is not cancelled, so the asset is forgotten when the
    fault says the deletion took effect. *)
Definition destroy_race (id : string) : M DeleteResult :=
  (external env (CloudDestroy id) ;;;
   match cloud_destroy_fault env id with
   | Some fault =>
       (if deletion_took_effect fault
        then w <- get_world ;; modify (set_remote (disk_remove id (remote w)))
        else ret tt) ;;;
       throw (fault_error fault)
   | None =>
       w <- get_world ;;
       if List.existsb (String.eqb id) (remote w)
       then modify (set_remote (disk_remove id (remote w))) ;;;
            ret {| result := "ok"; del_message := None |}
       else ret {| result := "not found"; del_message := None |}
   end)%js.

Definition deleteFromCloudinary (publicId : string) : M DeleteResult :=
  (console_log LLog ("Starting deleteFromCloudinary for: " ++ publicId) ;;;
   try_catch
     (if String.eqb publicId ""
      then console_log LError "No public ID provided for deletion" ;;;
           throw (ApiError "No public ID provided" 400)
      else
        (if Js.startsWith "http" publicId
         then console_log LLog "Processing URL to extract public ID" ;;;
              console_log LLog ("Extracted public ID: " ++ idToDelete publicId
                                ++ " from URL: " ++ publicId)
         else ret tt) ;;;
        console_log LLog ("Deleting from Cloudinary - Processed ID: " ++ idToDelete publicId) ;;;
        r <- destroy_race (idToDelete publicId) ;;
        (if String.eqb (result r) "not found"
         then console_log LWarn ("File with ID " ++ idToDelete publicId
                                 ++ " not found in Cloudinary")
         else console_log LLog ("Successfully deleted from Cloudinary: "
                                ++ idToDelete publicId)) ;;;
        ret r)
     (fun error =>
        console_log LError ("Cloudinary delete error: " ++ message error) ;;;
        console_log LWarn "Continuing with project deletion despite Cloudinary error" ;;;
        ret {| result := "error"; del_message := Some (message error) |}))%js.

End WithEnv.

End Cloudinary.

(* ================================================================= *)
(** ** The gallery controller *)

Module GalleryController.

Import Cloudinary.

(** A file as multer's disk storage leaves it in [req.file] / [req.files]. *)
Record UploadedFile := {
  path : string;
  mimetype : string;
  originalname : string;
  upl_size : Z
}.

Record Body := {
  b_title : option string;
  b_description : option string;
  b_album : option string;
  b_isFeatured : option string;
  b_status : option string;
  b_tags : option string
}.

Record Request := {
  body : Body;
  file : option UploadedFile;
  files : option (list UploadedFile);
  user_id : string
}.

(** Values of the JSON bodies the handlers send. *)
Inductive Json :=
| JBool (b : bool)
| JNum (n : Z)
| JDoc (d : Doc)
| JDocs (l : list Doc).

Record Response := { res_status : Z; res_body : list (string * Json) }.

(** A handler ends by sending a response or by calling [next(err)]. *)
Inductive Outcome :=
| Responded (r : Response)
| Next (e : Error).

(** [catchAsync(fn)]: a rejection of the handler goes to [next]. *)
Definition catchAsync (handler : M Outcome) : M Outcome :=
  try_catch handler (fun err => ret (Next err)).


(** [const fileType = mimetype.split('/')[0];
     const mediaType = fileType === 'image' ? 'image' : 'video';] *)
Definition fileTypeOf (mimetype : string) : string :=
  Js.first_part (Js.split "/" mimetype).

Definition mediaTypeOf (mimetype : string) : MediaType :=
  if String.eqb (fileTypeOf mimetype) "image" then Image else Video.

Definition concurrencyLimit : nat := 5.

(** A number used as a condition: [undefined] and 0 are falsy. *)
Definition truthy (q : option Q) : bool :=
  match q with
  | Some x => negb (Qeq_bool x 0)
  | None => false
  end.

(** [a || b] on values that are truthy whenever present. *)
Definition or_else {A} (a b : option A) : option A :=
  match a with Some _ => a | None => b end.

(** [s || null] on a string: the empty string is falsy. *)
Definition or_null (s : option string) : option string :=
  match s with
  | Some t => if String.eqb t "" then None else Some t
  | None => None
  end.

Section WithEnv.

Variable env : Env.

Definition exif_of (d : ExifData) : Exif :=
  {| cameraMake := Make d;
     cameraModel := Model d;
     focalLength :=
       if truthy (FocalLength d)
       then option_map (fun q => number_to_string env q ++ "mm") (FocalLength d) else None;
     aperture :=
       if truthy (FNumber d)
       then option_map (fun q => "f/" ++ number_to_string env q) (FNumber d) else None;
     shutterSpeed :=
       if truthy (ExposureTime d)
       then option_map (fun q => number_to_string env q ++ "s") (ExposureTime d) else None;
     iso := ISO d;
     takenAt := or_else (DateTimeOriginal d) (CreateDate d);
     location :=
       match latitude d, longitude d with
       | Some lat, Some lon =>
           if (truthy (Some lat) && truthy (Some lon))%bool
           then Some {| coordinates := (lon, lat);
                        loc_name := or_null (GPSAreaInformation d) |}
           else None
       | _, _ => None
       end |}.

(** [await sharp(filePath).metadata()]. *)
Definition sharp_meta (filePath : string) : M ImageMeta :=
  (external env (SharpMetadata filePath) ;;;
   match sharp_metadata env filePath with
   | inl e => throw e
   | inr m => ret m
   end)%js.

(** [(await fs.stat(filePath)).size]. *)
Definition fs_stat_size (filePath : string) : M Z :=
  fun w =>
    if on_disk filePath w then (Return (file_size env filePath), w)
    else (Throw (PlainError ("ENOENT: no such file or directory, stat '" ++ filePath ++ "'")), w).

(** [await exifr.parse(filePath)]. *)
Definition exifr (filePath : string) : M (option ExifData) :=
  (external env (ExifrParse filePath) ;;;
   match exifr_parse env filePath with
   | ExifRejects e => throw e
   | ExifAbsent => ret None
   | ExifFound d => ret (Some d)
   end)%js.

(** [await ffprobe(filePath)]. *)
Definition probe (filePath : string) : M ProbeData :=
  (external env (Ffprobe filePath) ;;;
   match ffprobe env filePath with
   | inl e => throw e
   | inr p => ret p
   end)%js.

(** [Math.floor(parseFloat(probeData.format.duration))]. *)
Definition floor_duration (d : option Q) : Number :=
  match d with
  | Some q => Num (Qfloor q)
  | None => NaN
  end.

Definition is_video_stream (s : Stream) : bool := String.eqb (codec_type s) "video".

Definition extractMetadata (filePath : string) (mediaType : MediaType) : M Metadata :=
  try_catch
    (match mediaType with
     | Image =>
         (meta <- sharp_meta filePath ;;
          sz <- fs_stat_size filePath ;;
          exifData <- exifr filePath ;;
          ret {| width := Some (im_width meta);
                 height := Some (im_height meta);
                 duration := None;
                 format := Some (im_format meta);
                 size := Some sz;
                 aspectRatio := Some (Quotient (im_width meta) (im_height meta));
                 exif := option_map exif_of exifData |})%js
     | Video =>
         (probeData <- probe filePath ;;
          match List.find is_video_stream (streams probeData) with
          | Some videoStream =>
              sz <- fs_stat_size filePath ;;
              ret {| width := Some (st_width videoStream);
                     height := Some (st_height videoStream);
                     duration := Some (floor_duration (format_duration probeData));
                     format := Some (Js.remove_first_dot (Js.extname filePath));
                     size := Some sz;
                     aspectRatio := Some (Display (display_aspect_ratio videoStream));
                     exif := None |}
          | None => ret empty_metadata
          end)%js
     end)
    (fun error =>
       (console_log LError ("Error extracting metadata: " ++ message error) ;;;
        ret empty_metadata)%js).

(** A library writes [p] to the local disk. *)
Definition write_file (p : string) : M unit :=
  modify (fun w => set_fs (disk_add p (fs w)) w).

(** [path.join('/tmp', `thumb-${Date.now()}.jpg`)]. *)
Definition thumbnailPathAt (now : Z) : string :=
  "/tmp/thumb-" ++ Js.show_Z now ++ ".jpg".

Definition generateThumbnail (filePath : string) (mediaType : MediaType)
  : M (option string) :=
  try_catch
    (now <- date_now ;;
     let thumbnailPath := thumbnailPathAt now in
     match mediaType with
     | Image =>
         external env (SharpResize filePath thumbnailPath) ;;;
         match sharp_resize env filePath with
         | Some e => throw e
         | None => write_file thumbnailPath
         end
     | Video =>
         external env (FfmpegScreenshots filePath) ;;;
         match ffmpeg_screenshots env filePath with
         | Some e => throw e
         | None =>
             write_file "/tmp/thumbnail-1.jpg" ;;;
             fs_rename "/tmp/thumbnail-1.jpg" thumbnailPath
         end
     end ;;;
     ret (Some thumbnailPath))%js
    (fun error =>
       (console_log LError ("Error generating thumbnail: " ++ message error) ;;;
        ret None)%js).

(** [await GalleryItem.create(doc)]. *)
Definition GalleryItem_create (d : Doc) : M Doc :=
  (external env (DbCreate (url d)) ;;;
   match db_create env d with
   | Some e => throw e
   | None => modify (add_doc d) ;;; ret d
   end)%js.

(** The controller reaches the storage gateway through its import
    [const { uploadToCloudinary } = require('../utils/cloudinary')]. *)
Variable uploadToCloudinary : JsFile -> string -> M CloudResult.

(** Thumbnail generation and, when a thumbnail exists, its upload. *)
Definition upload_thumbnail (thumbnailPath : option string) : M (option string) :=
  match thumbnailPath with
  | Some tp =>
      (thumbnailResult <- uploadToCloudinary (FPath tp) "gallery/thumbnails" ;;
       fs_unlink_logged tp ;;;
       ret (Some (secure_url thumbnailResult)))%js
  | None => ret None
  end.

(** [tags ? tags.split(',').map(tag => tag.trim()) : []]. *)
Definition tags_of (tags : option string) : list string :=
  match tags with
  | Some t => if String.eqb t "" then [] else List.map Js.trim (Js.split "," t)
  | None => []
  end.

(** The object literal [createGalleryItem] hands to [GalleryItem.create]. *)
Definition single_doc (req : Request) (mediaType : MediaType) (url : string)
    (thumbnailUrl : option string) (metadata : Metadata) : Doc :=
  {| title := b_title (body req);
     description := b_description (body req);
     album := b_album (body req);
     isFeatured := Some (match b_isFeatured (body req) with
                         | Some s => String.eqb s "true"
                         | None => false
                         end);
     status := Some (Js.or_string (b_status (body req)) "published");
     mediaType := mediaType;
     url := url;
     thumbnailUrl := thumbnailUrl;
     metadata := metadata;
     tags := Some (tags_of (b_tags (body req)));
     createdBy := user_id req |}.

(** The object literal [processFile] hands to [GalleryItem.create]. *)
Definition bulk_doc (req : Request) (file : UploadedFile) (mediaType : MediaType)
    (url : string) (thumbnailUrl : option string) (metadata : Metadata) : Doc :=
  {| title := Some (Js.parse_name (originalname file));
     description := None;
     album := b_album (body req);
     isFeatured := None;
     status := None;
     mediaType := mediaType;
     url := url;
     thumbnailUrl := thumbnailUrl;
     metadata := metadata;
     tags := None;
     createdBy := user_id req |}.

Definition createGalleryItem (req : Request) : M Outcome :=
  catchAsync
    (match file req with
     | None => ret (Next (ApiError "Please upload a file" 400))
     | Some f =>
         let mediaType := mediaTypeOf (mimetype f) in
         (metadata <- extractMetadata (path f) mediaType ;;
          thumbnailPath <- generateThumbnail (path f) mediaType ;;
          thumbnailUrl <- upload_thumbnail thumbnailPath ;;
          result <- uploadToCloudinary (FPath (path f)) "gallery" ;;
          galleryItem <- GalleryItem_create
            (single_doc req mediaType (secure_url result) thumbnailUrl metadata) ;;
          fs_unlink_logged (path f) ;;;
          ret (Responded {| res_status := 201;
                            res_body := [("success", JBool true);
                                         ("data", JDoc galleryItem)] |}))%js
     end).

(** [processFile] of the bulk handler.  [uploadedItems] is the array the
    closure pushes to; it is threaded through explicitly. *)
Definition processFile (req : Request) (file : UploadedFile) (uploadedItems : list Doc)
  : M (option Doc * list Doc) :=
  try_catch
    (let mediaType := mediaTypeOf (mimetype file) in
     (metadata <- extractMetadata (path file) mediaType ;;
      thumbnailPath <- generateThumbnail (path file) mediaType ;;
      thumbnailUrl <- upload_thumbnail thumbnailPath ;;
      result <- uploadToCloudinary (FPath (path file)) "gallery" ;;
      galleryItem <- GalleryItem_create
        (bulk_doc req file mediaType (secure_url result) thumbnailUrl metadata) ;;
      fs_unlink_logged (path file) ;;;
      ret (Some galleryItem, (uploadedItems ++ [galleryItem])%list))%js)
    (fun error =>
       (console_log LError ("Error processing file " ++ originalname file ++ ": "
                            ++ message error) ;;;
        ret (None, uploadedItems))%js).

(** The runs of the files [runs], one after the other in the order of the
    list: what each of them settled to, next to [uploadedItems]. *)
Fixpoint process_batch (req : Request) (runs : list UploadedFile) (uploadedItems : list Doc)
  : M (list (option Doc) * list Doc) :=
  match runs with
  | [] => ret ([], uploadedItems)
  | f :: rest =>
      (r <- processFile req f uploadedItems ;;
       rs <- process_batch req rest (snd r) ;;
       ret (fst r :: fst rs, snd rs))%js
  end.

(** [await Promise.all(batch.map(processFile))] starts the runs of a batch
    together; each pushes to [uploadedItems] when it gets there, in an order
    the code does not fix.  [completion i batch] is the order in which the
    runs of the batch that starts at index [i] complete: a rearrangement of
    [batch].  Each run is taken as a whole: the steps of different runs are
    not interleaved. *)
Variable completion : nat -> list UploadedFile -> list UploadedFile.

(** [for (let i = 0; i < req.files.length; i += concurrencyLimit)].  The
    settled values of all batches are accumulated in [settled], in the order
    of completion; the source discards them. *)
Fixpoint batches_from (fuel : nat) (req : Request) (fl : list UploadedFile) (i : nat)
    (settled : list (option Doc)) (uploadedItems : list Doc)
  : M (list (option Doc) * list Doc) :=
  match fuel with
  | O => ret (settled, uploadedItems)
  | S fuel' =>
      if (i <? List.length fl)%nat then
        (let batch := Js.slice fl i (i + concurrencyLimit) in
         r <- process_batch req (completion i batch) uploadedItems ;;
         batches_from fuel' req fl (i + concurrencyLimit) (settled ++ fst r)%list (snd r))%js
      else ret (settled, uploadedItems)
  end.

(** The per-file runs of a bulk upload: what every run settled to, and the
    final [uploadedItems]. *)
Definition run_batches (req : Request) (fl : list UploadedFile)
  : M (list (option Doc) * list Doc) :=
  batches_from (List.length fl) req fl 0 [] [].

(** The order in which the runs of the whole request complete: batch after
    batch, each in its order of completion. *)
Fixpoint completion_from (fuel : nat) (fl : list UploadedFile) (i : nat)
  : list UploadedFile :=
  match fuel with
  | O => []
  | S fuel' =>
      if (i <? List.length fl)%nat then
        (completion i (Js.slice fl i (i + concurrencyLimit))
         ++ completion_from fuel' fl (i + concurrencyLimit))%list
      else []
  end.

Definition completion_order (fl : list UploadedFile) : list UploadedFile :=
  completion_from (List.length fl) fl 0.

Definition bulkUploadGalleryItems (req : Request) : M Outcome :=
  catchAsync
    (match files req with
     | None | Some [] => ret (Next (ApiError "Please upload files" 400))
     | Some fl =>
         (r <- run_batches req fl ;;
          let uploadedItems := snd r in
          ret (Responded {| res_status := 201;
                            res_body := [("success", JBool true);
                                         ("count", JNum (Z.of_nat (List.length uploadedItems)));
                                         ("data", JDocs uploadedItems)] |}))%js
     end).

End WithEnv.

End GalleryController.

(* ================================================================= *)
(** ** The batch loop as a scheduler

    [for (...) { const batch = req.files.slice(i, i + concurrencyLimit);
                 await Promise.all(batch.map(processFile)); }]

    [batch.map(processFile)] starts one run per file of the batch; the runs
    settle one by one in any order; the loop takes its next iteration only
    when [Promise.all] has resolved, that is when no run is in flight. *)

Module BatchLoop.

Import GalleryController.

Record State := {
  next_index : nat;                  (* the loop variable [i] *)
  in_flight : list UploadedFile;     (* runs started and not yet settled *)
  settled : list UploadedFile        (* runs that have settled *)
}.

Definition initial : State :=
  {| next_index := 0; in_flight := []; settled := [] |}.

Inductive step (fl : list UploadedFile) : State -> State -> Prop :=
| step_dispatch : forall s,
    in_flight s = [] ->
    (next_index s < List.length fl)%nat ->
    step fl s {| next_index := next_index s + concurrencyLimit;
                 in_flight := Js.slice fl (next_index s) (next_index s + concurrencyLimit);
                 settled := settled s |}
| step_settle : forall s before f after,
    in_flight s = (before ++ f :: after)%list ->
    step fl s {| next_index := next_index s;
                 in_flight := (before ++ after)%list;
                 settled := (settled s ++ [f])%list |}.

Inductive reachable (fl : list UploadedFile) : State -> Prop :=
| reach_initial : reachable fl initial
| reach_step : forall s s', reachable fl s -> step fl s s' -> reachable fl s'.

(** The loop has ended: nothing in flight and the index is past the end. *)
Definition finished (fl : list UploadedFile) (s : State) : Prop :=
  in_flight s = [] /\ (List.length fl <= next_index s)%nat.

(** Reading the array [Promise.all] resolves to: the documents of the runs
    that returned one, and the number of runs that returned [null]. *)
Definition fulfilled (results : list (option Doc)) : list Doc :=
  List.flat_map (fun r => match r with Some d => [d] | None => [] end) results.


(** The number of entries of a JSON member that is an array. *)
Definition entries (v : Json) : nat :=
  match v with
  | JDocs l => List.length l
  | _ => 0
  end.

End BatchLoop.

(* ================================================================= *)
(** ** The application: the controller linked to utils/cloudinary.js *)

Module App.

Definition createGalleryItem (env : Env) : GalleryController.Request -> M GalleryController.Outcome :=
  GalleryController.createGalleryItem env (Cloudinary.uploadToCloudinary env).

(** The message of the error the gateway throws on a bare path string. *)
Definition path_refusal (p : string) : string :=
  if String.eqb p "" then "No file provided"
  else "Invalid file type. Only images are allowed".

(** The first path string a run hands to the gateway: the thumbnail's when
    one was generated, the staged file's otherwise. *)
Definition first_upload (staged : string) (thumbnailPath : option string) : string :=
  match thumbnailPath with
  | Some tp => tp
  | None => staged
  end.

Definition processFile (env : Env) :=
  GalleryController.processFile env (Cloudinary.uploadToCloudinary env).

Definition bulkUploadGalleryItems (env : Env)
    (completion : nat -> list GalleryController.UploadedFile
                  -> list GalleryController.UploadedFile)
  : GalleryController.Request -> M GalleryController.Outcome :=
  GalleryController.bulkUploadGalleryItems env (Cloudinary.uploadToCloudinary env) completion.

End App.

(* ================================================================= *)
(** ** Concrete environments, files and gateways used in the examples *)

Module Fixtures.

Import Cloudinary GalleryController.

Definition audio_stream : Stream :=
  {| codec_type := "audio"; st_width := 0; st_height := 0; display_aspect_ratio := None |}.

Definition uploaded_as (p : option string) (folder : string) : CloudResult :=
  {| public_id := folder ++ "/asset";
     secure_url := "https://res.cloudinary.com/demo/image/upload/v1/" ++ folder ++ "/asset.webp";
     cr_format := "webp"; bytes := 2048; cr_width := 800; cr_height := 600 |}.

(** An environment in which every library call succeeds, except as the three
    arguments say: the outcome of the EXIF parse, of the image resize, and
    the streams the probe reports. *)
Definition env_with (ex : ExifOutcome) (resize : option Error) (sts : list Stream) : Env :=
  {| sharp_metadata := fun _ => inr {| im_width := 800; im_height := 600; im_format := "png" |};
     file_size := fun _ => 4096;
     exifr_parse := fun _ => ex;
     ffprobe := fun _ => inr {| streams := sts; format_duration := Some (7 # 2) |};
     sharp_resize := fun _ => resize;
     ffmpeg_screenshots := fun _ => None;
     cloud_upload := fun p folder => inr (uploaded_as p folder);
     cloud_destroy_fault := fun _ => None;
     db_create := fun _ => None;
     latency := fun _ => 1;
     number_to_string := fun _ => "0";
     CLOUDINARY_FOLDER := None |}.

Definition env_ok : Env := env_with ExifAbsent None [audio_stream].

Definition env_corrupt_exif : Env :=
  env_with (ExifRejects (PlainError "Invalid EXIF segment")) None [audio_stream].

Definition env_no_thumbnail : Env :=
  env_with ExifAbsent (Some (PlainError "Input file contains unsupported image format"))
           [audio_stream].

Definition photo : UploadedFile :=
  {| path := "/uploads/photo.png"; mimetype := "image/png";
     originalname := "photo.png"; upl_size := 4096 |}.

Definition photo2 : UploadedFile :=
  {| path := "/uploads/photo2.png"; mimetype := "image/png";
     originalname := "photo2.png"; upl_size := 4096 |}.

Definition pdf : UploadedFile :=
  {| path := "/uploads/doc.pdf"; mimetype := "application/pdf";
     originalname := "doc.pdf"; upl_size := 4096 |}.

Definition clip : UploadedFile :=
  {| path := "/uploads/clip.mp4"; mimetype := "video/mp4";
     originalname := "clip.mp4"; upl_size := 4096 |}.

Definition no_fields : Body :=
  {| b_title := None; b_description := None; b_album := None;
     b_isFeatured := None; b_status := None; b_tags := None |}.

Definition single (f : UploadedFile) : Request :=
  {| body := no_fields; file := Some f; files := None; user_id := "admin" |}.

Definition bulk (fl : list UploadedFile) : Request :=
  {| body := no_fields; file := None; files := Some fl; user_id := "admin" |}.

Definition disk : World :=
  {| fs := ["/uploads/photo.png"; "/uploads/photo2.png"; "/uploads/doc.pdf"; "/uploads/clip.mp4"];
     clock := 1730505600123;
     remote := ["portfolio/gallery/old"];
     calls := []; console := []; db := [] |}.

(** A gateway that takes the path strings the controller passes and uploads
    them unchecked. *)
Definition path_gateway (env : Env) (file : JsFile) (folder : string) : M CloudResult :=
  match file with
  | FPath p => uploadPromise env (Some p) folder
  | _ => throw (ApiError "No file provided" 400)
  end.

(** The same gateway with the thumbnail folder out of service. *)
Definition no_thumbnail_gateway (env : Env) (file : JsFile) (folder : string) : M CloudResult :=
  if String.eqb folder "gallery/thumbnails"
  then throw (ApiError "Error uploading file to Cloudinary" 500)
  else path_gateway env file folder.

Definition image_object (p mt : string) (sz : Z) : JsFile :=
  FObject {| f_path := Some p; f_mimetype := Some mt; f_size := Some sz |}.

(** [env_ok] with a provider that rejects the PDF. *)
Definition env_pdf_rejected : Env :=
  {| sharp_metadata := sharp_metadata env_ok;
     file_size := file_size env_ok;
     exifr_parse := exifr_parse env_ok;
     ffprobe := ffprobe env_ok;
     sharp_resize := sharp_resize env_ok;
     ffmpeg_screenshots := ffmpeg_screenshots env_ok;
     cloud_upload := fun p folder =>
       match p with
       | Some q => if String.eqb q "/uploads/doc.pdf"
                   then inl (ApiError "Unsupported file format" 400)
                   else inr (uploaded_as p folder)
       | None => inr (uploaded_as p folder)
       end;
     cloud_destroy_fault := cloud_destroy_fault env_ok;
     db_create := db_create env_ok;
     latency := latency env_ok;
     number_to_string := number_to_string env_ok;
     CLOUDINARY_FOLDER := None |}.

End Fixtures.

(* ================================================================= *)
(** ** More environments for the examples *)

Module MoreFixtures.

Import Cloudinary GalleryController.

(** [env_ok] with the provider out of reach: uploads are rejected and
    deletions time out. *)
Definition env_provider_down : Env :=
  {| sharp_metadata := sharp_metadata Fixtures.env_ok;
     file_size := file_size Fixtures.env_ok;
     exifr_parse := exifr_parse Fixtures.env_ok;
     ffprobe := ffprobe Fixtures.env_ok;
     sharp_resize := sharp_resize Fixtures.env_ok;
     ffmpeg_screenshots := ffmpeg_screenshots Fixtures.env_ok;
     cloud_upload := fun _ _ => inl (PlainError "getaddrinfo ENOTFOUND api.cloudinary.com");
     cloud_destroy_fault := fun _ => Some (DestroyTimesOut false);
     db_create := db_create Fixtures.env_ok;
     latency := latency Fixtures.env_ok;
     number_to_string := number_to_string Fixtures.env_ok;
     CLOUDINARY_FOLDER := None |}.

(** [env_ok] with a provider that is slow to delete: the timer wins the
    race, and the deletion is carried out all the same. *)
Definition env_slow_delete : Env :=
  {| sharp_metadata := sharp_metadata Fixtures.env_ok;
     file_size := file_size Fixtures.env_ok;
     exifr_parse := exifr_parse Fixtures.env_ok;
     ffprobe := ffprobe Fixtures.env_ok;
     sharp_resize := sharp_resize Fixtures.env_ok;
     ffmpeg_screenshots := ffmpeg_screenshots Fixtures.env_ok;
     cloud_upload := cloud_upload Fixtures.env_ok;
     cloud_destroy_fault := fun _ => Some (DestroyTimesOut true);
     db_create := db_create Fixtures.env_ok;
     latency := latency Fixtures.env_ok;
     number_to_string := number_to_string Fixtures.env_ok;
     CLOUDINARY_FOLDER := None |}.

(** Two completion orders for the runs of a batch: the order of the
    request, and its reverse (the run started last completes first). *)
Definition in_request_order (i : nat) (batch : list GalleryController.UploadedFile)
  : list GalleryController.UploadedFile := batch.

Definition last_started_first (i : nat) (batch : list GalleryController.UploadedFile)
  : list GalleryController.UploadedFile := List.rev batch.

(** A probe that finds an audio stream and then two video streams. *)
Definition hd_stream : Stream :=
  {| codec_type := "video"; st_width := 1920; st_height := 1080;
     display_aspect_ratio := Some "16:9" |}.

Definition sd_stream : Stream :=
  {| codec_type := "video"; st_width := 640; st_height := 480;
     display_aspect_ratio := Some "4:3" |}.

Definition env_video : Env :=
  Fixtures.env_with ExifAbsent None [Fixtures.audio_stream; hd_stream; sd_stream].

End MoreFixtures.

(* ================================================================= *)
(** ** utils/cloudinary.js: deleting several assets *)

Module CloudinaryMulti.

Import Cloudinary.



Section WithEnv.

Variable env : Env.



End WithEnv.

End CloudinaryMulti.

(* ================================================================= *)
(** ** utils/scheduler.js *)

Module Scheduler.

(** What [readdir] and [stat] tell about an entry of a directory. *)
Record Entry := { entry_name : string; mtimeMs : Z; is_directory : bool }.

(** The two directories the jobs work on ([None]: the directory does not
    exist) and what [log] has printed. *)
Record Disk := {
  tempDir : option (list Entry);
  backupDir : option (list Entry);
  output : list string
}.

Definition oneDay : Z := 24 * 60 * 60 * 1000.

Definition sevenDays : Z := 7 * 24 * 60 * 60 * 1000.

(** [await fs.stat(path.join(dir, file))]. *)
Definition stat (file : string) (entries : list Entry) : option Entry :=
  List.find (fun e => String.eqb (entry_name e) file) entries.

(** The directory after [fs.unlink(path.join(dir, file))] has succeeded. *)
Definition without (file : string) (entries : list Entry) : list Entry :=
  List.filter (fun e => negb (String.eqb (entry_name e) file)) entries.

(** The body of [for (const file of files)], shared by the two jobs: [skip]
    is the [continue] test, [maxAge] the age limit, [dir] the directory,
    [path.join(dir, file)] the path of an entry, and [notice] the text
    logged before the path of a deleted file.  The result is the directory,
    the output, and the message of the error that ended the loop, if any:
    [stat] rejects for a missing entry, [unlink] for a directory. *)
Fixpoint sweep (skip : string -> bool) (maxAge now : Z) (dir notice : string)
    (files : list string) (entries : list Entry) (out : list string)
  : list Entry * list string * option string :=
  match files with
  | [] => (entries, out, None)
  | file :: rest =>
      if skip file then sweep skip maxAge now dir notice rest entries out
      else
        match stat file entries with
        | None =>
            (entries, out,
             Some ("ENOENT: no such file or directory, stat '"
                   ++ Js.path_join [dir; file] ++ "'"))
        | Some stats =>
            if maxAge <? now - mtimeMs stats then
              if is_directory stats then
                (entries, out,
                 Some ("EISDIR: illegal operation on a directory, unlink '"
                       ++ Js.path_join [dir; file] ++ "'"))
              else
                sweep skip maxAge now dir notice rest (without file entries)
                  (out ++ [(notice ++ Js.path_join [dir; file])%string])%list
            else sweep skip maxAge now dir notice rest entries out
        end
  end.

(** The negation of the loop's two tests: an entry is left alone when its
    name is skipped or it is not older than the limit. *)
Definition spared (skip : string -> bool) (maxAge now : Z) (e : Entry) : bool :=
  (skip (entry_name e) || negb (maxAge <? now - mtimeMs e))%bool.

(** The line logged for a deleted entry. *)
Definition deletion_notice (dir notice : string) (e : Entry) : string :=
  notice ++ Js.path_join [dir; entry_name e].

Section Jobs.

(** [__dirname] of the module. *)
Variable dirname : string.

(** [path.join(__dirname, '../uploads/temp')]. *)
Definition tempPath : string := Js.path_join [dirname; "../uploads/temp"].

(** [cleanTempUploads], run when the clock reads [now]. *)
Definition cleanTempUploads (now : Z) (d : Disk) : Disk :=
  match tempDir d with
  | None => d
  | Some entries =>
      match sweep (fun _ => false) oneDay now tempPath "Deleted temporary file: "
                  (List.map entry_name entries) entries (output d) with
      | (entries', out, None) =>
          {| tempDir := Some entries'; backupDir := backupDir d; output := out |}
      | (entries', out, Some error) =>
          {| tempDir := Some entries'; backupDir := backupDir d;
             output := (out ++ [("Error cleaning up temporary uploads: " ++ error)%string])%list |}
      end
  end.

(** [path.join(__dirname, '../backups')]. *)
Definition backupsPath : string := Js.path_join [dirname; "../backups"].

(** [s.replace(/[:.]/g, '-')]. *)
Fixpoint dashes (s : string) : string :=
  match s with
  | EmptyString => EmptyString
  | String c rest =>
      String (if (Ascii.eqb c ":" || Ascii.eqb c ".")%bool then "-"%char else c)
             (dashes rest)
  end.

(** The file name of the archive for [new Date().toISOString() = iso]. *)
Definition backupName (iso : string) : string := "backup-" ++ dashes iso ++ ".gz".

(** [backupDatabase].  [iso] is what [new Date().toISOString()] returns;
    [dump] is the outcome of the [mongodump] command: the message of the
    error [execAsync] rejects with (no archive is then taken to be left
    behind), or the modification time of the archive it has written, which
    replaces an entry of the same name; [now] is the later reading of
    [Date.now()]. *)
Definition backupDatabase (iso : string) (dump : string + Z) (now : Z) (d : Disk) : Disk :=
  let entries := match backupDir d with Some l => l | None => [] end in
  match dump with
  | inl error =>
      {| tempDir := tempDir d; backupDir := Some entries;
         output := (output d ++ [("Error creating database backup: " ++ error)%string])%list |}
  | inr written =>
      let archive := {| entry_name := backupName iso; mtimeMs := written;
                        is_directory := false |} in
      let entries1 := (without (backupName iso) entries ++ [archive])%list in
      let out1 := (output d ++ [("Database backup created at: "
                                 ++ Js.path_join [backupsPath; backupName iso])%string])%list in
      match sweep (fun file => negb (Js.startsWith "backup-" file)) sevenDays now
                  backupsPath "Deleted old backup: "
                  (List.map entry_name entries1) entries1 out1 with
      | (entries', out, None) =>
          {| tempDir := tempDir d; backupDir := Some entries'; output := out |}
      | (entries', out, Some error) =>
          {| tempDir := tempDir d; backupDir := Some entries';
             output := (out ++ [("Error creating database backup: " ++ error)%string])%list |}
      end
  end.

End Jobs.

End Scheduler.

(* ================================================================= *)
(** ** Directories for the examples of the scheduled jobs *)

Module JobFixtures.

Import Scheduler.

(** Some morning, in milliseconds. *)
Definition morning : Z := 1730505600000.

Definition fresh_upload : Entry :=
  {| entry_name := "a.png"; mtimeMs := morning - 3600000; is_directory := false |}.

Definition day_old_upload : Entry :=
  {| entry_name := "b.png"; mtimeMs := morning - oneDay; is_directory := false |}.

Definition stale_upload : Entry :=
  {| entry_name := "c.png"; mtimeMs := morning - oneDay - 1; is_directory := false |}.

Definition stale_folder : Entry :=
  {| entry_name := "chunks"; mtimeMs := morning - 3 * oneDay; is_directory := true |}.

Definition older_upload : Entry :=
  {| entry_name := "d.png"; mtimeMs := morning - 5 * oneDay; is_directory := false |}.

Definition old_backup : Entry :=
  {| entry_name := "backup-2024-10-01T00-00-00-000Z.gz";
     mtimeMs := morning - 30 * oneDay; is_directory := false |}.

Definition old_notes : Entry :=
  {| entry_name := "README.txt"; mtimeMs := morning - 300 * oneDay;
     is_directory := false |}.

Definition files_only : Disk :=
  {| tempDir := Some [fresh_upload; stale_upload; day_old_upload; older_upload];
     backupDir := Some [old_notes; old_backup];
     output := [] |}.

Definition with_folder : Disk :=
  {| tempDir := Some [stale_upload; fresh_upload; stale_folder; older_upload];
     backupDir := None;
     output := [] |}.

End JobFixtures.

(* ================================================================= *)
(** ** The error controller: apiErrorHandler *)

Module ErrorController.

(** A value of [err.errors]: one failed field of a validation error. *)
Record FieldError := { fe_path : string; fe_message : string }.

(** The properties of [err] the handler reads; [None] is [undefined]. *)
Record Err := {
  err_name : string;
  err_message : option string;
  err_statusCode : option Z;
  err_code : option string;
  err_errors : option (list FieldError);
  err_stack : option string
}.

(** [response.error], set in development only. *)
Record Details := {
  d_name : string;
  d_code : option string;
  d_details : option (list FieldError)
}.

(** The JSON body; a member that is [None] is absent from it. *)
Record Body := {
  r_status : string;
  r_message : string;
  r_stack : option string;
  r_error : option Details;
  r_errors : option (list (string * string))
}.

Definition is_jwt_error (name : string) : bool :=
  (String.eqb name "JsonWebTokenError" || String.eqb name "TokenExpiredError")%bool.

(** [apiErrorHandler(err, req, res, next)] for a given [NODE_ENV]: the status
    code and body it sends.  [Object.values(err.errors)] throws when a
    validation error carries no [errors].  The console line, which prints
    the whole error object, is cut down to the error's name. *)
Definition apiErrorHandler (NODE_ENV : string) (err : Err) : M (Z * Body) :=
  (console_log LError ("API Error: " ++ err_name err) ;;;
   let statusCode := Cloudinary.status_or (err_statusCode err) 500 in
   let development := String.eqb NODE_ENV "development" in
   let response :=
     {| r_status := "error";
        r_message := Js.or_string (err_message err) "Internal Server Error";
        r_stack := if development then err_stack err else None;
        r_error := if development
                   then Some {| d_name := err_name err; d_code := err_code err;
                                d_details := err_errors err |}
                   else None;
        r_errors := None |} in
   response <-
     (if String.eqb (err_name err) "ValidationError" then
        match err_errors err with
        | None => throw (PlainError "Cannot convert undefined or null to object")
        | Some errors =>
            ret {| r_status := "fail";
                   r_message := "Validation Error";
                   r_stack := r_stack response;
                   r_error := r_error response;
                   r_errors := Some (List.map (fun e => (fe_path e, fe_message e)) errors) |}
        end
      else ret response) ;;
   let response :=
     if is_jwt_error (err_name err)
     then {| r_status := "fail";
             r_message := "Authentication failed";
             r_stack := r_stack response;
             r_error := r_error response;
             r_errors := r_errors response |}
     else response in
   ret (statusCode, response))%js.

End ErrorController.

(* ================================================================= *)
(** ** utils/multer.js: handleUploadError *)

Module Multer.

(** The [err] multer hands over: an [ApiError] (from the file filter), or
    any other error with its [code] and [message]. *)
Inductive UploadError :=
| IsApiError (e : Error)
| OtherError (code : option string) (msg : option string).

Definition upload_message (err : UploadError) : option string :=
  match err with
  | IsApiError e => Some (message e)
  | OtherError _ msg => msg
  end.

(** [err.code]; an [ApiError] is built from a message and a status code and
    is taken to carry no [code]. *)
Definition upload_code (err : UploadError) : option string :=
  match err with
  | IsApiError _ => None
  | OtherError code _ => code
  end.

(** [fs.unlink(path, unlinkErr => { if (unlinkErr) console.error(...) })]. *)
Definition unlink_reporting (p : string) : M unit :=
  try_catch (fs_unlink p)
            (fun e => console_log LError ("[Multer] Error cleaning up file: " ++ message e)).

Fixpoint unlink_all (paths : list string) : M unit :=
  match paths with
  | [] => ret tt
  | p :: rest => (unlink_reporting p ;;; unlink_all rest)%js
  end.

Definition code_is (err : UploadError) (c : string) : bool :=
  match upload_code err with
  | Some code => String.eqb code c
  | None => false
  end.

(** [handleUploadError(err, req, res, next)]: [file] and [files] are the
    paths of [req.file] and [req.files], [uploadFieldName] is
    [req.uploadFieldName] as a template literal prints it.  The result is the
    argument [next] is called with.  The console lines that print whole
    objects are cut down to their text, and the callback-style unlinks are
    taken to have completed when the handler is done. *)
Definition handleUploadError (err : option UploadError) (file : option string)
    (files : option (list string)) (uploadFieldName : string) : M (option Error) :=
  (console_log LLog "[Multer] handleUploadError called" ;;;
   match err with
   | Some e =>
       console_log LError ("[Multer] Upload error: "
                           ++ Js.or_string (upload_message e) "") ;;;
       (match file, files with
        | Some p, _ =>
            console_log LLog ("[Multer] Cleaning up file: " ++ p) ;;; unlink_reporting p
        | None, Some ps =>
            console_log LLog ("[Multer] Cleaning up "
                              ++ Js.show_Z (Z.of_nat (List.length ps)) ++ " files") ;;;
            unlink_all ps
        | None, None => ret tt
        end) ;;;
       if code_is e "LIMIT_FILE_SIZE" then
         console_log LError "[Multer] File size exceeds limit" ;;;
         ret (Some (ApiError "File size exceeds 5MB limit" 400))
       else if code_is e "LIMIT_FILE_COUNT" then
         console_log LError "[Multer] Too many files uploaded" ;;;
         ret (Some (ApiError "Too many files uploaded" 400))
       else if code_is e "LIMIT_UNEXPECTED_FILE" then
         console_log LError "[Multer] Unexpected field in file upload" ;;;
         console_log LError ("[Multer] Expected field name should be: " ++ uploadFieldName) ;;;
         ret (Some (ApiError ("Unexpected field in file upload. Expected field: "
                              ++ uploadFieldName) 400))
       else
         match e with
         | IsApiError a =>
             console_log LError ("[Multer] API Error: " ++ message a) ;;;
             ret (Some a)
         | OtherError _ msg =>
             console_log LError "[Multer] Unknown upload error" ;;;
             ret (Some (ApiError ("File upload error: " ++ Js.or_string msg "Unknown error")
                                 400))
         end
   | None =>
       console_log LLog "[Multer] No errors, proceeding to next middleware" ;;;
       ret None
   end)%js.

End Multer.

(* ================================================================= *)
(** * Properties *)

(** ** The monad and the disk *)

(** Projections of an updated world. *)
Ltac world_simpl :=
  cbn [fs clock remote calls console db set_fs set_remote add_log add_doc add_call].

Lemma existsb_disk_remove (p : string) (l : list string) :
  List.existsb (String.eqb p) (disk_remove p l) = false.
Proof.
  induction l as [|q l IH]; [reflexivity|].
  unfold disk_remove in *. cbn.
  destruct (String.eqb p q) eqn:E; cbn; [exact IH|].
  rewrite E. exact IH.
Qed.

Lemma existsb_disk_remove_other (p q : string) (l : list string) :
  String.eqb q p = false ->
  List.existsb (String.eqb p) (disk_remove q l) = List.existsb (String.eqb p) l.
Proof.
  intros Hne. induction l as [|x l IH]; [reflexivity|].
  unfold disk_remove in *. cbn.
  destruct (String.eqb q x) eqn:E; cbn.
  - apply String.eqb_eq in E. subst x.
    rewrite String.eqb_sym, Hne. exact IH.
  - rewrite IH. reflexivity.
Qed.

Lemma existsb_disk_add (p q : string) (l : list string) :
  List.existsb (String.eqb p) l = true ->
  List.existsb (String.eqb p) (disk_add q l) = true.
Proof.
  intros H. unfold disk_add.
  destruct (List.existsb (String.eqb q) l); [exact H|].
  rewrite List.existsb_app, H. reflexivity.
Qed.

Lemma existsb_disk_add_same (p : string) (l : list string) :
  List.existsb (String.eqb p) (disk_add p l) = true.
Proof.
  unfold disk_add.
  destruct (List.existsb (String.eqb p) l) eqn:E; [exact E|].
  rewrite List.existsb_app. cbn. rewrite String.eqb_refl.
  now rewrite Bool.orb_true_r.
Qed.

(** [fs.unlink(p).catch(console.error)] never raises and touches neither the
    call log nor the remote store. *)
Lemma fs_unlink_logged_returns (p : string) (w : World) :
  exists w', fs_unlink_logged p w = (Return tt, w') /\
             calls w' = calls w /\ remote w' = remote w /\ db w' = db w /\
             on_disk p w' = false.
Proof.
  unfold fs_unlink_logged, try_catch, fs_unlink.
  destruct (on_disk p w) eqn:E.
  - eexists; repeat split. unfold on_disk. cbn. apply existsb_disk_remove.
  - eexists; repeat split. exact E.
Qed.

(** A handler that always returns makes the whole [try]/[catch] return. *)
Lemma try_catch_returns {A} (body : M A) (handler : Error -> M A) :
  (forall e w, exists a w', handler e w = (Return a, w')) ->
  forall w, exists a w', try_catch body handler w = (Return a, w').
Proof.
  intros H w. unfold try_catch.
  destruct (body w) as [[a|e] w1]; [eauto|apply H].
Qed.

(** ** utils/cloudinary.js *)

Module CloudinaryFacts.

Import Cloudinary.

(** The [catch] block always rethrows, and makes no external call. *)
Lemma upload_failed_throws (file : JsFile) (error : Error) (w : World) :
  exists w',
    upload_failed file error w =
      (Throw (ApiError (Js.or_string (Some (message error)) "Error uploading file to Cloudinary")
                       (status_or (statusCode error) 500)), w') /\
    calls w' = calls w /\ remote w' = remote w.
Proof.
  unfold upload_failed, bind.
  destruct (path_of file) as [p|]; cbn.
  - destruct (negb (String.eqb p "") && on_disk p w)%bool.
    + destruct (fs_unlink_logged_returns p w) as (w1 & -> & Hc & Hr & _).
      cbn. eexists; repeat split; cbn; assumption.
    + cbn. eexists; repeat split.
  - eexists; repeat split.
Qed.

(** A bare path string is always refused, without touching the disk. *)
Lemma uploadToCloudinary_path (env : Env) (p folder : string) (w : World) :
  uploadToCloudinary env (FPath p) folder w =
    (Throw (ApiError (App.path_refusal p) 400),
     add_log {| level := LError;
                text := "Cloudinary upload error: " ++ App.path_refusal p |} w).
Proof.
  unfold uploadToCloudinary, try_catch, App.path_refusal. cbn.
  destruct (String.eqb p ""); reflexivity.
Qed.

(** Whatever fails the type check or the size check is thrown back, and the
    provider is never called. *)
Lemma rejected_throws (env : Env) (file : JsFile) (folder : string) (w : World) :
  (Js.includes allowedTypes (mimetype_of file) = false \/
   (exists n, size_of file = Some n /\ maxSize < n)) ->
  exists e w',
    uploadToCloudinary env file folder w = (Throw e, w') /\
    calls w' = calls w /\ remote w' = remote w.
Proof.
  intros Hrej. unfold uploadToCloudinary, try_catch.
  destruct (falsy file) eqn:Hf.
  { cbn. destruct (upload_failed_throws file (ApiError "No file provided" 400) w)
      as (w' & -> & Hc & Hr). eauto. }
  destruct (exceeds_maxSize file) eqn:Hx.
  { cbn. destruct (upload_failed_throws file (ApiError "File size exceeds 5MB limit" 400) w)
      as (w' & -> & Hc & Hr). eauto. }
  destruct (Js.includes allowedTypes (mimetype_of file)) eqn:Hi.
  2:{ cbn. destruct (upload_failed_throws file
             (ApiError "Invalid file type. Only images are allowed" 400) w)
      as (w' & -> & Hc & Hr). eauto. }
  exfalso. destruct Hrej as [H|(n & Hs & Hn)]; [congruence|].
  unfold exceeds_maxSize in Hx. rewrite Hs in Hx.
  apply Z.ltb_ge in Hx. unfold maxSize in *. lia.
Qed.

Lemma video_not_allowed (mt : string) :
  GalleryController.fileTypeOf mt = "video" ->
  Js.includes allowedTypes (Some mt) = false.
Proof.
  intros H. cbn.
  destruct (String.eqb mt "image/jpeg") eqn:E1;
    [apply String.eqb_eq in E1; subst; vm_compute in H; discriminate|].
  destruct (String.eqb mt "image/png") eqn:E2;
    [apply String.eqb_eq in E2; subst; vm_compute in H; discriminate|].
  destruct (String.eqb mt "image/webp") eqn:E3;
    [apply String.eqb_eq in E3; subst; vm_compute in H; discriminate|].
  destruct (String.eqb mt "image/gif") eqn:E4;
    [apply String.eqb_eq in E4; subst; vm_compute in H; discriminate|].
  reflexivity.
Qed.

End CloudinaryFacts.

Module DeleteFacts.

Import Cloudinary.


(** With the provider answering, the call returns the provider's answer:
    ['ok'] for a stored id, which is then gone, ['not found'] otherwise. *)
Lemma deleteFromCloudinary_answer (env : Env) (publicId : string) (w : World) :
  publicId <> "" ->
  cloud_destroy_fault env (idToDelete publicId) = None ->
  exists w',
    deleteFromCloudinary env publicId w =
      (Return {| result := if List.existsb (String.eqb (idToDelete publicId)) (remote w)
                           then "ok" else "not found";
                 del_message := None |}, w') /\
    List.existsb (String.eqb (idToDelete publicId)) (remote w') = false /\
    fs w' = fs w.
Proof.
  intros Hne Hfault.
  unfold deleteFromCloudinary, try_catch, destroy_race, bind, external, console_log, modify.
  destruct (String.eqb publicId "") eqn:E; [apply String.eqb_eq in E; contradiction|].
  destruct (Js.startsWith "http" publicId); cbn [ret get_world];
    rewrite Hfault; cbn [remote add_call add_log];
    destruct (List.existsb (String.eqb (idToDelete publicId)) (remote w)) eqn:Hin;
    cbn; eexists; repeat split;
    solve [apply existsb_disk_remove | exact Hin].
Qed.

End DeleteFacts.

(** C7.  For every non-empty identifier (a public id or a delivery URL) and a
    provider that answers, two successive calls of [deleteFromCloudinary] both
    return normally with a status other than ['error']: the first with ['ok']
    or ['not found'], the second with ['not found'], which is handed back as
    the result and not raised. *)
Theorem delete_twice_succeeds (env : Env) (publicId : string) (w : World) :
  publicId <> "" ->
  cloud_destroy_fault env (Cloudinary.idToDelete publicId) = None ->
  exists r1 w1 r2 w2,
    Cloudinary.deleteFromCloudinary env publicId w = (Return r1, w1) /\
    Cloudinary.deleteFromCloudinary env publicId w1 = (Return r2, w2) /\
    (Cloudinary.result r1 = "ok" \/ Cloudinary.result r1 = "not found") /\
    Cloudinary.result r2 = "not found" /\
    Cloudinary.result r1 <> "error" /\ Cloudinary.result r2 <> "error".
Proof.
  intros Hne Hfault.
  destruct (DeleteFacts.deleteFromCloudinary_answer env w Hne Hfault) as (w1 & H1 & Hgone & _).
  destruct (DeleteFacts.deleteFromCloudinary_answer env w1 Hne Hfault) as (w2 & H2 & _ & _).
  rewrite Hgone in H2.
  do 4 eexists. split; [exact H1|]. split; [exact H2|]. cbn.
  destruct (List.existsb _ (remote w)); repeat split; auto; discriminate.
Qed.

(** Witness for C7: a delivery URL of an asset stored at the provider. *)
Lemma delete_twice_succeeds_witness :
  exists r1 w1 r2 w2,
    Cloudinary.deleteFromCloudinary Fixtures.env_ok
      "https://res.cloudinary.com/demo/image/upload/v1/portfolio/gallery/old.webp"
      Fixtures.disk = (Return r1, w1) /\
    Cloudinary.deleteFromCloudinary Fixtures.env_ok
      "https://res.cloudinary.com/demo/image/upload/v1/portfolio/gallery/old.webp"
      w1 = (Return r2, w2) /\
    (Cloudinary.result r1 = "ok" \/ Cloudinary.result r1 = "not found") /\
    Cloudinary.result r2 = "not found" /\
    Cloudinary.result r1 <> "error" /\ Cloudinary.result r2 <> "error".
Proof.
  apply (@delete_twice_succeeds Fixtures.env_ok
          "https://res.cloudinary.com/demo/image/upload/v1/portfolio/gallery/old.webp"
          Fixtures.disk).
  - discriminate.
  - reflexivity.
Defined.

(** ** The inspector: extractMetadata *)

Module InspectorFacts.

Import GalleryController.

(** [extractMetadata] resolves on every input: its [catch] returns [{}]. *)
Lemma extractMetadata_never_throws (env : Env) (filePath : string) (k : MediaType) (w : World) :
  exists m w', extractMetadata env filePath k w = (Return m, w').
Proof.
  unfold extractMetadata. apply try_catch_returns.
  intros e w0. unfold bind, console_log, modify, ret. eauto.
Qed.

Lemma find_video_none (l : list Stream) :
  (forall s, In s l -> codec_type s <> "video") ->
  List.find is_video_stream l = None.
Proof.
  induction l as [|s l IH]; intros H; [reflexivity|].
  cbn. unfold is_video_stream at 1.
  destruct (String.eqb (codec_type s) "video") eqn:E.
  - apply String.eqb_eq in E. exfalso. apply (H s); [now left|exact E].
  - apply IH. intros s' Hs'. apply H. now right.
Qed.

(** The image branch when every step resolves. *)
Lemma extractMetadata_image (env : Env) (filePath : string) (w : World)
    (meta : ImageMeta) (exifData : option ExifData) :
  sharp_metadata env filePath = inr meta ->
  on_disk filePath w = true ->
  exifr_parse env filePath =
    match exifData with Some d => ExifFound d | None => ExifAbsent end ->
  extractMetadata env filePath Image w =
    (Return {| width := Some (im_width meta);
               height := Some (im_height meta);
               duration := None;
               format := Some (im_format meta);
               size := Some (file_size env filePath);
               aspectRatio := Some (Quotient (im_width meta) (im_height meta));
               exif := option_map (exif_of env) exifData |},
     add_call (ExifrParse filePath) (latency env (ExifrParse filePath))
       (add_call (SharpMetadata filePath) (latency env (SharpMetadata filePath)) w)).
Proof.
  intros Hs Hd He.
  cbv [extractMetadata try_catch bind sharp_meta fs_stat_size exifr external modify
         ret throw on_disk] in *.
  rewrite Hs. cbn [fs add_call]. rewrite Hd, He.
  destruct exifData; reflexivity.
Qed.

(** The image branch when the EXIF parse rejects: everything read so far is
    dropped with the local [metadata] object. *)
Lemma extractMetadata_exif_rejects (env : Env) (filePath : string) (w : World)
    (meta : ImageMeta) (e : Error) :
  sharp_metadata env filePath = inr meta ->
  on_disk filePath w = true ->
  exifr_parse env filePath = ExifRejects e ->
  extractMetadata env filePath Image w =
    (Return empty_metadata,
     add_log {| level := LError; text := "Error extracting metadata: " ++ message e |}
       (add_call (ExifrParse filePath) (latency env (ExifrParse filePath))
          (add_call (SharpMetadata filePath) (latency env (SharpMetadata filePath)) w))).
Proof.
  intros Hs Hd He.
  cbv [extractMetadata try_catch bind sharp_meta fs_stat_size exifr external modify
         ret throw on_disk] in *.
  rewrite Hs. cbn [fs add_call]. rewrite Hd, He. reflexivity.
Qed.

End InspectorFacts.

(** C8, as the code has it.  When the probe succeeds and reports no stream of
    codec type ['video'], [extractMetadata] returns normally with the empty
    metadata object: no field is populated, [format] and [size] included. *)
Theorem no_video_stream_gives_empty_metadata
    (env : Env) (filePath : string) (w : World) (probeData : ProbeData) :
  ffprobe env filePath = inr probeData ->
  (forall s, In s (streams probeData) -> codec_type s <> "video") ->
  GalleryController.extractMetadata env filePath Video w =
    (Return empty_metadata,
     add_call (Ffprobe filePath) (latency env (Ffprobe filePath)) w).
Proof.
  intros Hp Hnone.
  cbv [GalleryController.extractMetadata try_catch bind GalleryController.probe
         external modify ret throw].
  rewrite Hp, (InspectorFacts.find_video_none _ Hnone). reflexivity.
Qed.

(** Witness for C8: an audio-only file uploaded as video. *)
Lemma no_video_stream_gives_empty_metadata_witness :
  GalleryController.extractMetadata Fixtures.env_ok "/uploads/clip.mp4" Video Fixtures.disk =
    (Return empty_metadata,
     add_call (Ffprobe "/uploads/clip.mp4") 1 Fixtures.disk).
Proof.
  apply (@no_video_stream_gives_empty_metadata Fixtures.env_ok "/uploads/clip.mp4"
           Fixtures.disk {| streams := [Fixtures.audio_stream];
                            format_duration := Some (7 # 2) |}).
  - reflexivity.
  - intros s [<-|[]]. discriminate.
Defined.

(** Counterexample to C8 as stated: on an audio-only file the returned
    metadata has neither [format] nor [size]. *)
Lemma audio_only_metadata_has_no_format :
  ~ (forall (env : Env) (filePath : string) (w : World) (probeData : ProbeData),
        ffprobe env filePath = inr probeData ->
        (forall s, In s (streams probeData) -> codec_type s <> "video") ->
        exists m w',
          GalleryController.extractMetadata env filePath Video w = (Return m, w') /\
          format m <> None /\ size m <> None).
Proof.
  intros claim.
  destruct (claim Fixtures.env_ok "/uploads/clip.mp4" Fixtures.disk
              {| streams := [Fixtures.audio_stream]; format_duration := Some (7 # 2) |}
              eq_refl) as (m & w' & Hrun & Hfmt & _).
  - intros s [<-|[]]. discriminate.
  - vm_compute in Hrun. injection Hrun as <- _. apply Hfmt. reflexivity.
Qed.

(** C5, as the code has it.  For an image whose structural inspection
    succeeds: when the EXIF parse finds nothing, the metadata carries width,
    height, format, size and aspect ratio and no [exif]; when the EXIF parse
    rejects, the error is printed and the empty metadata object is returned.
    In both cases [extractMetadata] returns normally. *)
Theorem exif_failure_outcomes
    (env : Env) (filePath : string) (w : World) (meta : ImageMeta) :
  sharp_metadata env filePath = inr meta ->
  on_disk filePath w = true ->
  (exifr_parse env filePath = ExifAbsent ->
   exists w',
     GalleryController.extractMetadata env filePath Image w =
       (Return {| width := Some (im_width meta);
                  height := Some (im_height meta);
                  duration := None;
                  format := Some (im_format meta);
                  size := Some (file_size env filePath);
                  aspectRatio := Some (Quotient (im_width meta) (im_height meta));
                  exif := None |}, w')) /\
  (forall e, exifr_parse env filePath = ExifRejects e ->
   exists w',
     GalleryController.extractMetadata env filePath Image w = (Return empty_metadata, w') /\
     console w' =
       (console w ++ [{| level := LError;
                         text := "Error extracting metadata: " ++ message e |}])%list).
Proof.
  intros Hs Hd. split.
  - intros He. eexists.
    apply (@InspectorFacts.extractMetadata_image env filePath w meta None Hs Hd He).
  - intros e He. eexists. split.
    + apply (@InspectorFacts.extractMetadata_exif_rejects env filePath w meta e Hs Hd He).
    + reflexivity.
Qed.

(** Witness for C5: a PNG without EXIF, and the same PNG with an EXIF segment
    the parser rejects. *)
Lemma exif_failure_outcomes_witness :
  (exists w',
     GalleryController.extractMetadata Fixtures.env_ok "/uploads/photo.png" Image Fixtures.disk =
       (Return {| width := Some 800; height := Some 600; duration := None;
                  format := Some "png"; size := Some 4096;
                  aspectRatio := Some (Quotient 800 600); exif := None |}, w')) /\
  (exists w',
     GalleryController.extractMetadata Fixtures.env_corrupt_exif "/uploads/photo.png" Image
       Fixtures.disk = (Return empty_metadata, w') /\
     console w' = [{| level := LError;
                      text := "Error extracting metadata: Invalid EXIF segment" |}]).
Proof.
  split.
  - destruct (@exif_failure_outcomes Fixtures.env_ok "/uploads/photo.png" Fixtures.disk
                {| im_width := 800; im_height := 600; im_format := "png" |}
                eq_refl eq_refl) as [Habsent _].
    apply Habsent. reflexivity.
  - destruct (@exif_failure_outcomes Fixtures.env_corrupt_exif "/uploads/photo.png"
                Fixtures.disk
                {| im_width := 800; im_height := 600; im_format := "png" |}
                eq_refl eq_refl) as [_ Hrejects].
    apply (Hrejects (PlainError "Invalid EXIF segment")). reflexivity.
Defined.

(** Counterexample to C5 as stated: when the EXIF parse rejects, width,
    height and format are not populated. *)
Lemma corrupt_exif_drops_dimensions :
  ~ (forall (env : Env) (filePath : string) (w : World) (meta : ImageMeta),
        sharp_metadata env filePath = inr meta ->
        on_disk filePath w = true ->
        (exifr_parse env filePath = ExifAbsent \/
         exists e, exifr_parse env filePath = ExifRejects e) ->
        exists m w',
          GalleryController.extractMetadata env filePath Image w = (Return m, w') /\
          width m = Some (im_width meta) /\ height m = Some (im_height meta) /\
          format m = Some (im_format meta) /\ exif m = None).
Proof.
  intros claim.
  destruct (claim Fixtures.env_corrupt_exif "/uploads/photo.png" Fixtures.disk
              {| im_width := 800; im_height := 600; im_format := "png" |}
              eq_refl eq_refl) as (m & w' & Hrun & Hw & _).
  - right. eexists. reflexivity.
  - vm_compute in Hrun. injection Hrun as <- _. discriminate Hw.
Qed.

(** ** Effects of the two local stages *)

Module StageFacts.

Import GalleryController.

(** [extractMetadata] leaves the disk alone; on the video branch its only
    external call is the probe. *)
Lemma extractMetadata_effects (env : Env) (filePath : string) (k : MediaType) (w : World) :
  exists m w',
    extractMetadata env filePath k w = (Return m, w') /\
    fs w' = fs w /\ remote w' = remote w /\ clock w <= clock w' /\
    exists rest,
      calls w' =
        (calls w ++ match k with
                    | Image => SharpMetadata filePath
                    | Video => Ffprobe filePath
                    end :: rest)%list /\
      (k = Video -> rest = []).
Proof.
  destruct k.
  - cbv [extractMetadata try_catch bind sharp_meta fs_stat_size exifr external modify
           ret throw on_disk console_log].
    destruct (sharp_metadata env filePath) as [e|meta]; cbn [fs add_call].
    { do 2 eexists. split; [reflexivity|]. cbn. repeat split; [lia|].
      exists []. split; [reflexivity|discriminate]. }
    destruct (List.existsb (String.eqb filePath) (fs w)).
    2:{ do 2 eexists. split; [reflexivity|]. cbn. repeat split; [lia|].
        exists []. split; [reflexivity|discriminate]. }
    destruct (exifr_parse env filePath);
      (do 2 eexists; split; [reflexivity|]; cbn; repeat split; [lia|];
       exists [ExifrParse filePath]; rewrite <- List.app_assoc;
       split; [reflexivity|discriminate]).
  - cbv [extractMetadata try_catch bind probe fs_stat_size external modify
           ret throw on_disk console_log].
    destruct (ffprobe env filePath) as [e|pd]; cbn [fs add_call].
    { do 2 eexists. split; [reflexivity|]. cbn. repeat split; [lia|].
      exists []. split; reflexivity. }
    destruct (List.find is_video_stream (streams pd)).
    2:{ do 2 eexists. split; [reflexivity|]. cbn. repeat split; [lia|].
        exists []. split; reflexivity. }
    cbn [fs add_call].
    destruct (List.existsb (String.eqb filePath) (fs w));
      (do 2 eexists; split; [reflexivity|]; cbn; repeat split; [lia|];
       exists []; split; reflexivity).
Qed.

(** The oracle that decides whether a thumbnail comes out. *)
Lemma generateThumbnail_effects (env : Env) (filePath : string) (k : MediaType) (w : World) :
  exists t w',
    generateThumbnail env filePath k w = (Return t, w') /\
    t = match (match k with
                | Image => sharp_resize env filePath
                | Video => ffmpeg_screenshots env filePath
                end) with
        | Some _ => None
        | None => Some (thumbnailPathAt (clock w))
        end /\
    calls w' = (calls w ++ [match k with
                            | Image => SharpResize filePath (thumbnailPathAt (clock w))
                            | Video => FfmpegScreenshots filePath
                            end])%list /\
    (forall q, q <> "/tmp/thumbnail-1.jpg" -> on_disk q w = true -> on_disk q w' = true) /\
    (forall tp, t = Some tp -> on_disk tp w' = true) /\
    remote w' = remote w.
Proof.
  destruct k.
  - cbv [generateThumbnail try_catch bind date_now external modify write_file
           ret throw console_log].
    destruct (sharp_resize env filePath) as [e|].
    + do 2 eexists. split; [reflexivity|]. world_simpl. repeat split; auto. discriminate.
    + do 2 eexists. split; [reflexivity|]. world_simpl. repeat split.
      * intros q _ Hq. unfold on_disk in *. world_simpl. apply existsb_disk_add. exact Hq.
      * intros tp [= <-]. unfold on_disk. world_simpl. apply existsb_disk_add_same.
  - cbv [generateThumbnail try_catch bind date_now external modify write_file
           fs_rename ret throw console_log on_disk].
    destruct (ffmpeg_screenshots env filePath) as [e|].
    + do 2 eexists. split; [reflexivity|]. world_simpl. repeat split; auto. discriminate.
    + world_simpl. rewrite existsb_disk_add_same.
      do 2 eexists. split; [reflexivity|]. world_simpl. repeat split.
      * intros q Hne Hq. apply existsb_disk_add.
        rewrite existsb_disk_remove_other.
        -- apply existsb_disk_add. exact Hq.
        -- apply String.eqb_neq. congruence.
      * intros tp [= <-]. apply existsb_disk_add_same.
Qed.

(** When a thumbnail comes out, its name is the clock reading alone. *)
Lemma generateThumbnail_path (env : Env) (filePath : string) (k : MediaType)
    (w w' : World) (tp : string) :
  generateThumbnail env filePath k w = (Return (Some tp), w') ->
  tp = thumbnailPathAt (clock w).
Proof.
  intros H.
  destruct (generateThumbnail_effects env filePath k w) as (t & w1 & Hrun & Ht & _).
  rewrite Hrun in H. injection H as -> _.
  destruct (match k with
            | Image => sharp_resize env filePath
            | Video => ffmpeg_screenshots env filePath
            end); congruence.
Qed.

End StageFacts.

(** C9, at the failing input.  Two thumbnail runs for two different staged
    images that read the same millisecond of the clock are told to write the
    same temp path. *)
Theorem same_millisecond_thumbnails_collide :
  GalleryController.path Fixtures.photo <> GalleryController.path Fixtures.photo2 /\
  fst (GalleryController.generateThumbnail Fixtures.env_ok
         (GalleryController.path Fixtures.photo) Image Fixtures.disk) =
    Return (Some "/tmp/thumb-1730505600123.jpg") /\
  fst (GalleryController.generateThumbnail Fixtures.env_ok
         (GalleryController.path Fixtures.photo2) Image Fixtures.disk) =
    Return (Some "/tmp/thumb-1730505600123.jpg").
Proof.
  split; [discriminate|]. split; vm_compute; reflexivity.
Qed.

(** ** The controller linked to the repository's gateway *)

Module AppFacts.

Import Cloudinary GalleryController.

Lemma thumbnailPathAt_nonempty (now : Z) : String.eqb (thumbnailPathAt now) "" = false.
Proof. reflexivity. Qed.

(** Every single-item run stops at the first upload: the gateway refuses the
    path string, nothing is unlinked, and the error goes to [next]. *)
Lemma createGalleryItem_run (env : Env) (req : Request) (f : UploadedFile) (w : World) :
  file req = Some f ->
  exists m w0 t w1,
    extractMetadata env (path f) (mediaTypeOf (mimetype f)) w = (Return m, w0) /\
    generateThumbnail env (path f) (mediaTypeOf (mimetype f)) w0 = (Return t, w1) /\
    App.createGalleryItem env req w =
      (Return (Next (ApiError (App.path_refusal (App.first_upload (path f) t)) 400)),
       add_log {| level := LError;
                  text := "Cloudinary upload error: "
                          ++ App.path_refusal (App.first_upload (path f) t) |} w1).
Proof.
  intros Hf.
  destruct (StageFacts.extractMetadata_effects env (path f) (mediaTypeOf (mimetype f)) w)
    as (m & w0 & Hm & _).
  destruct (StageFacts.generateThumbnail_effects env (path f) (mediaTypeOf (mimetype f)) w0)
    as (t & w1 & Ht & _).
  exists m, w0, t, w1. split; [exact Hm|]. split; [exact Ht|].
  unfold App.createGalleryItem, createGalleryItem, catchAsync, try_catch.
  rewrite Hf. unfold bind at 1. rewrite Hm.
  unfold bind at 1. rewrite Ht.
  unfold bind at 1, upload_thumbnail.
  destruct t as [tp|].
  - unfold bind at 1. rewrite CloudinaryFacts.uploadToCloudinary_path. reflexivity.
  - cbn [ret]. unfold bind at 1. rewrite CloudinaryFacts.uploadToCloudinary_path.
    reflexivity.
Qed.

End AppFacts.

Module AppRunFacts.

Import Cloudinary GalleryController.

(** The bulk handler's per-file run stops at the same place and settles to
    [null]. *)
Lemma processFile_run (env : Env) (req : Request) (f : UploadedFile)
    (uploadedItems : list Doc) (w : World) :
  exists m w0 t w1 w',
    extractMetadata env (path f) (mediaTypeOf (mimetype f)) w = (Return m, w0) /\
    generateThumbnail env (path f) (mediaTypeOf (mimetype f)) w0 = (Return t, w1) /\
    App.processFile env req f uploadedItems w = (Return (None, uploadedItems), w') /\
    fs w' = fs w1 /\ calls w' = calls w1.
Proof.
  destruct (StageFacts.extractMetadata_effects env (path f) (mediaTypeOf (mimetype f)) w)
    as (m & w0 & Hm & _).
  destruct (StageFacts.generateThumbnail_effects env (path f) (mediaTypeOf (mimetype f)) w0)
    as (t & w1 & Ht & _).
  exists m, w0, t, w1.
  assert (Hrun : exists w',
             App.processFile env req f uploadedItems w = (Return (None, uploadedItems), w') /\
             fs w' = fs w1 /\ calls w' = calls w1).
  { unfold App.processFile, processFile, try_catch.
    unfold bind at 1. rewrite Hm.
    unfold bind at 1. rewrite Ht.
    unfold bind at 1, upload_thumbnail.
    destruct t as [tp|].
    - unfold bind at 1. rewrite CloudinaryFacts.uploadToCloudinary_path.
      eexists. split; [reflexivity|]. split; reflexivity.
    - cbn [ret]. unfold bind at 1. rewrite CloudinaryFacts.uploadToCloudinary_path.
      eexists. split; [reflexivity|]. split; reflexivity. }
  destruct Hrun as (w' & Hrun & Hfs & Hcalls).
  exists w'. auto.
Qed.

Lemma not_image_is_video (mimetype : string) :
  fileTypeOf mimetype <> "image" -> mediaTypeOf mimetype = Video.
Proof.
  intros H. unfold mediaTypeOf.
  destruct (String.eqb (fileTypeOf mimetype) "image") eqn:E; [|reflexivity].
  apply String.eqb_eq in E. contradiction.
Qed.

(** The external calls of a run on a file classified as video. *)
Lemma video_stage_calls (env : Env) (p : string) (w w0 w1 : World)
    (m : Metadata) (t : option string) :
  extractMetadata env p Video w = (Return m, w0) ->
  generateThumbnail env p Video w0 = (Return t, w1) ->
  calls w1 = (calls w ++ [Ffprobe p; FfmpegScreenshots p])%list.
Proof.
  intros Hm Ht.
  destruct (StageFacts.extractMetadata_effects env p Video w)
    as (m' & w0' & Hm' & _ & _ & _ & rest & Hcalls & Hrest).
  rewrite Hm in Hm'. injection Hm' as <- <-.
  rewrite (Hrest eq_refl) in Hcalls.
  destruct (StageFacts.generateThumbnail_effects env p Video w0)
    as (t' & w1' & Ht' & _ & Hcalls1 & _).
  rewrite Ht in Ht'. injection Ht' as <- <-.
  rewrite Hcalls1, Hcalls, <- List.app_assoc. reflexivity.
Qed.

End AppRunFacts.

(** C10.  [uploadToCloudinary] throws and uploads nothing (no external call,
    remote store unchanged) whenever its [file] argument carries no mimetype
    of the allowed list or a size above 5 MB.  In particular a bare path
    string, which is what the gallery controller passes, is always refused,
    and so is every file object with a [video/...] mimetype; hence every
    single-item run of the controller, for an image or a video, ends in
    [next(err)] with nothing stored at the provider. *)
Theorem upload_refuses_all_but_small_images (env : Env) :
  (forall file folder w,
      (Js.includes Cloudinary.allowedTypes (Cloudinary.mimetype_of file) = false \/
       (exists n, Cloudinary.size_of file = Some n /\ 5 * 1024 * 1024 < n)) ->
      exists e w',
        Cloudinary.uploadToCloudinary env file folder w = (Throw e, w') /\
        calls w' = calls w /\ remote w' = remote w) /\
  (forall p folder w,
      exists e w',
        Cloudinary.uploadToCloudinary env (Cloudinary.FPath p) folder w = (Throw e, w') /\
        calls w' = calls w /\ remote w' = remote w /\ fs w' = fs w) /\
  (forall o mt folder w,
      Cloudinary.f_mimetype o = Some mt ->
      GalleryController.fileTypeOf mt = "video" ->
      exists e w',
        Cloudinary.uploadToCloudinary env (Cloudinary.FObject o) folder w = (Throw e, w') /\
        calls w' = calls w /\ remote w' = remote w) /\
  (forall req f w,
      GalleryController.file req = Some f ->
      exists e w',
        App.createGalleryItem env req w = (Return (GalleryController.Next e), w') /\
        remote w' = remote w).
Proof.
  split; [|split; [|split]].
  - intros file folder w H. apply CloudinaryFacts.rejected_throws. exact H.
  - intros p folder w. rewrite CloudinaryFacts.uploadToCloudinary_path.
    eexists; eexists; repeat split.
  - intros o mt folder w Hmt Hv. apply CloudinaryFacts.rejected_throws.
    left. cbn. rewrite Hmt. apply CloudinaryFacts.video_not_allowed. exact Hv.
  - intros req f w Hf.
    destruct (AppFacts.createGalleryItem_run env req w Hf)
      as (m & w0 & t & w1 & Hm & Ht & Hrun).
    destruct (StageFacts.extractMetadata_effects env (GalleryController.path f)
                (GalleryController.mediaTypeOf (GalleryController.mimetype f)) w)
      as (m' & w0' & Hm' & _ & Hr0 & _).
    rewrite Hm in Hm'. injection Hm' as <- <-.
    destruct (StageFacts.generateThumbnail_effects env (GalleryController.path f)
                (GalleryController.mediaTypeOf (GalleryController.mimetype f)) w0)
      as (t' & w1' & Ht' & _ & _ & _ & _ & Hr1).
    rewrite Ht in Ht'. injection Ht' as <- <-.
    do 2 eexists. split; [exact Hrun|]. world_simpl. congruence.
Qed.

(** Witness for C10: a 6 MB PNG object, a path string, an MP4 object, and
    the single-item run on a staged video. *)
Lemma upload_refuses_all_but_small_images_witness :
  (exists e w',
      Cloudinary.uploadToCloudinary Fixtures.env_ok
        (Fixtures.image_object "/uploads/photo.png" "image/png" (6 * 1024 * 1024))
        "gallery" Fixtures.disk = (Throw e, w') /\
      calls w' = calls Fixtures.disk /\ remote w' = remote Fixtures.disk) /\
  (exists e w',
      Cloudinary.uploadToCloudinary Fixtures.env_ok
        (Cloudinary.FPath "/uploads/clip.mp4") "gallery" Fixtures.disk = (Throw e, w') /\
      calls w' = calls Fixtures.disk /\ remote w' = remote Fixtures.disk /\
      fs w' = fs Fixtures.disk) /\
  (exists e w',
      Cloudinary.uploadToCloudinary Fixtures.env_ok
        (Fixtures.image_object "/uploads/clip.mp4" "video/mp4" 4096)
        "gallery" Fixtures.disk = (Throw e, w') /\
      calls w' = calls Fixtures.disk /\ remote w' = remote Fixtures.disk) /\
  (exists e w',
      App.createGalleryItem Fixtures.env_ok (Fixtures.single Fixtures.clip) Fixtures.disk
        = (Return (GalleryController.Next e), w') /\
      remote w' = remote Fixtures.disk).
Proof.
  destruct (upload_refuses_all_but_small_images Fixtures.env_ok) as (H1 & H2 & H3 & H4).
  split; [|split; [|split]].
  - apply H1. right. exists (6 * 1024 * 1024). split; [reflexivity|lia].
  - apply H2.
  - apply (H3 _ "video/mp4"); reflexivity.
  - apply (H4 _ Fixtures.clip). reflexivity.
Defined.

(** C1, as the code has it.  A staged file whose MIME type prefix is not
    ['image'] (so also one whose prefix is neither ['image'] nor ['video']) is
    not rejected at classification: its media type is ['video'] by default,
    and both the single-item handler and the bulk handler's per-file run go on
    to probe it with ffprobe and to take a screenshot with ffmpeg. *)
Theorem non_image_defaults_to_video
    (env : Env) (req : GalleryController.Request) (f : GalleryController.UploadedFile)
    (w : World) :
  GalleryController.file req = Some f ->
  GalleryController.fileTypeOf (GalleryController.mimetype f) <> "image" ->
  GalleryController.mediaTypeOf (GalleryController.mimetype f) = Video /\
  (exists o w' rest,
      App.createGalleryItem env req w = (Return o, w') /\
      calls w' = (calls w ++ Ffprobe (GalleryController.path f)
                           :: FfmpegScreenshots (GalleryController.path f) :: rest)%list) /\
  (forall uploadedItems, exists r w' rest,
      App.processFile env req f uploadedItems w = (Return r, w') /\
      calls w' = (calls w ++ Ffprobe (GalleryController.path f)
                           :: FfmpegScreenshots (GalleryController.path f) :: rest)%list).
Proof.
  intros Hf Hni.
  pose proof (AppRunFacts.not_image_is_video _ Hni) as Hv.
  split; [exact Hv|]. split.
  - destruct (AppFacts.createGalleryItem_run env req w Hf)
      as (m & w0 & t & w1 & Hm & Ht & Hrun).
    rewrite Hv in Hm, Ht.
    do 2 eexists. exists []. split; [exact Hrun|].
    world_simpl. eapply AppRunFacts.video_stage_calls; eassumption.
  - intros uploadedItems.
    destruct (AppRunFacts.processFile_run env req f uploadedItems w)
      as (m & w0 & t & w1 & w' & Hm & Ht & Hrun & _ & Hcalls).
    rewrite Hv in Hm, Ht.
    do 2 eexists. exists []. split; [exact Hrun|].
    rewrite Hcalls. eapply AppRunFacts.video_stage_calls; eassumption.
Qed.

(** Witness for C1: a PDF staged for a single-item upload. *)
Lemma non_image_defaults_to_video_witness :
  GalleryController.mediaTypeOf "application/pdf" = Video /\
  (exists o w' rest,
      App.createGalleryItem Fixtures.env_ok (Fixtures.single Fixtures.pdf) Fixtures.disk
        = (Return o, w') /\
      calls w' = Ffprobe "/uploads/doc.pdf" :: FfmpegScreenshots "/uploads/doc.pdf" :: rest) /\
  (forall uploadedItems, exists r w' rest,
      App.processFile Fixtures.env_ok (Fixtures.single Fixtures.pdf) Fixtures.pdf
        uploadedItems Fixtures.disk = (Return r, w') /\
      calls w' = Ffprobe "/uploads/doc.pdf" :: FfmpegScreenshots "/uploads/doc.pdf" :: rest).
Proof.
  apply (@non_image_defaults_to_video Fixtures.env_ok (Fixtures.single Fixtures.pdf)
           Fixtures.pdf Fixtures.disk).
  - reflexivity.
  - vm_compute. discriminate.
Defined.

(** Counterexample to C1 as stated: a PDF is not turned away before the
    first external call; ffprobe and ffmpeg are run on it. *)
Lemma pdf_is_probed_before_any_rejection :
  ~ (forall (env : Env) (req : GalleryController.Request)
            (f : GalleryController.UploadedFile) (w : World),
        GalleryController.file req = Some f ->
        GalleryController.fileTypeOf (GalleryController.mimetype f) <> "image" ->
        GalleryController.fileTypeOf (GalleryController.mimetype f) <> "video" ->
        exists e w',
          App.createGalleryItem env req w = (Return (GalleryController.Next e), w') /\
          calls w' = calls w).
Proof.
  intros claim.
  destruct (claim Fixtures.env_ok (Fixtures.single Fixtures.pdf) Fixtures.pdf Fixtures.disk
              eq_refl) as (e & w' & Hrun & Hcalls).
  - vm_compute. discriminate.
  - vm_compute. discriminate.
  - vm_compute in Hrun. injection Hrun as _ <-. discriminate Hcalls.
Qed.

(** C3, at the failing inputs.  With the repository's gateway, every
    single-item run on a staged file ends in [next(err)], and afterwards the
    staged file is still on disk, and so is the thumbnail when one was
    generated. *)
Theorem failed_run_leaves_files_on_disk
    (env : Env) (req : GalleryController.Request) (f : GalleryController.UploadedFile)
    (w : World) :
  GalleryController.file req = Some f ->
  on_disk (GalleryController.path f) w = true ->
  GalleryController.path f <> "/tmp/thumbnail-1.jpg" ->
  exists m w0 t w1 e w',
    GalleryController.extractMetadata env (GalleryController.path f)
      (GalleryController.mediaTypeOf (GalleryController.mimetype f)) w = (Return m, w0) /\
    GalleryController.generateThumbnail env (GalleryController.path f)
      (GalleryController.mediaTypeOf (GalleryController.mimetype f)) w0 = (Return t, w1) /\
    App.createGalleryItem env req w = (Return (GalleryController.Next e), w') /\
    on_disk (GalleryController.path f) w' = true /\
    (forall tp, t = Some tp -> on_disk tp w' = true).
Proof.
  intros Hf Hdisk Hne.
  destruct (StageFacts.extractMetadata_effects env (GalleryController.path f)
              (GalleryController.mediaTypeOf (GalleryController.mimetype f)) w)
    as (m & w0 & Hm & Hfs & _).
  destruct (StageFacts.generateThumbnail_effects env (GalleryController.path f)
              (GalleryController.mediaTypeOf (GalleryController.mimetype f)) w0)
    as (t & w1 & Ht & _ & _ & Hkeep & Hthumb & _).
  destruct (AppFacts.createGalleryItem_run env req w Hf)
    as (m' & w0' & t' & w1' & Hm' & Ht' & Hrun).
  rewrite Hm in Hm'. injection Hm' as <- <-.
  rewrite Ht in Ht'. injection Ht' as <- <-.
  do 6 eexists. split; [exact Hm|]. split; [exact Ht|]. split; [exact Hrun|].
  unfold on_disk in *. world_simpl. split.
  - apply Hkeep; [exact Hne|]. rewrite Hfs. exact Hdisk.
  - exact Hthumb.
Qed.

(** Witness for C3: a PNG whose thumbnail is generated; both files remain. *)
Lemma failed_run_leaves_files_on_disk_witness :
  exists e w',
    App.createGalleryItem Fixtures.env_ok (Fixtures.single Fixtures.photo) Fixtures.disk
      = (Return (GalleryController.Next e), w') /\
    on_disk "/uploads/photo.png" w' = true /\
    on_disk "/tmp/thumb-1730505600125.jpg" w' = true.
Proof.
  destruct (@failed_run_leaves_files_on_disk Fixtures.env_ok (Fixtures.single Fixtures.photo)
              Fixtures.photo Fixtures.disk eq_refl eq_refl)
    as (m & w0 & t & w1 & e & w' & Hm & Ht & Hrun & Hstaged & Hthumb).
  - discriminate.
  - exists e, w'. split; [exact Hrun|]. split; [exact Hstaged|].
    apply Hthumb. vm_compute in Hm. injection Hm as _ <-.
    vm_compute in Ht. injection Ht as <- _. reflexivity.
Defined.

(** ** The batch loop *)

Module BatchLoopFacts.

Import GalleryController BatchLoop.

Lemma slice_length {A} (l : list A) (i n : nat) :
  (List.length (Js.slice l i (i + n)) <= n)%nat.
Proof.
  unfold Js.slice. rewrite List.length_firstn. lia.
Qed.

Lemma slice_is_firstn_skipn {A} (l : list A) (i n : nat) :
  Js.slice l i (i + n) = List.firstn n (List.skipn i l).
Proof.
  unfold Js.slice. f_equal. lia.
Qed.

Lemma firstn_plus {A} (l : list A) (i n : nat) :
  List.firstn (i + n) l = (List.firstn i l ++ List.firstn n (List.skipn i l))%list.
Proof.
  revert l. induction i as [|i IH]; intros l; [reflexivity|].
  destruct l as [|x l]; cbn.
  - now rewrite List.firstn_nil.
  - now rewrite IH.
Qed.

(** What has been dispatched so far is a prefix of the request's files, and
    every dispatched run is either in flight or settled. *)
Lemma dispatched_prefix (fl : list UploadedFile) (s : State) :
  reachable fl s ->
  Permutation (settled s ++ in_flight s) (List.firstn (next_index s) fl).
Proof.
  induction 1 as [|s s' _ IH Hstep]; [constructor|].
  destruct Hstep as [s Hidle Hlt | s before f after Hfl]; cbn.
  - rewrite Hidle, List.app_nil_r in IH.
    rewrite firstn_plus, slice_is_firstn_skipn.
    apply Permutation_app_tail. exact IH.
  - rewrite Hfl in IH. rewrite <- IH, <- List.app_assoc.
    apply Permutation_app_head. cbn.
    apply Permutation_middle.
Qed.

(** When the loop has ended, every file of the request has settled once. *)
Lemma finished_all_settled (fl : list UploadedFile) (s : State) :
  reachable fl s -> finished fl s -> Permutation (settled s) fl.
Proof.
  intros Hr [Hidle Hend].
  pose proof (dispatched_prefix Hr) as H.
  rewrite Hidle, List.app_nil_r, List.firstn_all2 in H by exact Hend.
  exact H.
Qed.

(** The runs in flight can all settle, leaving the loop variable alone. *)
Lemma can_settle_all (fl : list UploadedFile) (s : State) :
  reachable fl s ->
  exists s', reachable fl s' /\ in_flight s' = [] /\ next_index s' = next_index s.
Proof.
  remember (in_flight s) as running eqn:Hrun.
  revert s Hrun. induction running as [|f rest IH]; intros s Hrun Hr.
  - exists s. auto.
  - destruct (IH {| next_index := next_index s;
                    in_flight := ([] ++ rest)%list;
                    settled := (settled s ++ [f])%list |} eq_refl)
      as (s' & Hr' & Hidle & Hidx).
    + eapply reach_step; [exact Hr|]. apply step_settle. now rewrite <- Hrun.
    + exists s'. auto.
Qed.

(** The loop ends: from the initial state a finished state can be reached. *)
Lemma loop_can_finish (fl : list UploadedFile) :
  exists s, reachable fl s /\ finished fl s.
Proof.
  assert (H : forall n s, reachable fl s -> in_flight s = [] ->
                          (List.length fl - next_index s <= n)%nat ->
                          exists s', reachable fl s' /\ finished fl s').
  { induction n as [|n IH]; intros s Hr Hidle Hn.
    - exists s. split; [exact Hr|]. split; [exact Hidle|lia].
    - destruct (Nat.lt_ge_cases (next_index s) (List.length fl)) as [Hlt|Hge].
      + destruct (@can_settle_all fl
                    {| next_index := next_index s + concurrencyLimit;
                       in_flight := Js.slice fl (next_index s)
                                      (next_index s + concurrencyLimit);
                       settled := settled s |})
          as (s' & Hr' & Hidle' & Hidx).
        { eapply reach_step; [exact Hr|]. now apply step_dispatch. }
        apply (IH s' Hr' Hidle'). rewrite Hidx. cbn. unfold concurrencyLimit. lia.
      + exists s. split; [exact Hr|]. split; [exact Hidle|lia]. }
  apply (H (List.length fl) initial); [constructor|reflexivity|cbn; lia].
Qed.

End BatchLoopFacts.

(** C6.  In every state the batch loop can reach, at most five per-file runs
    are in flight. *)
Theorem in_flight_never_exceeds_limit
    (fl : list GalleryController.UploadedFile) (s : BatchLoop.State) :
  BatchLoop.reachable fl s ->
  (List.length (BatchLoop.in_flight s) <= 5)%nat.
Proof.
  induction 1 as [|s s' _ IH Hstep]; [cbn; lia|].
  destruct Hstep as [s Hidle Hlt | s before f after Hfl]; cbn.
  - apply BatchLoopFacts.slice_length.
  - rewrite Hfl in IH. rewrite List.length_app in *. cbn in IH. lia.
Qed.

(** Witness for C6: seven files, first batch dispatched, one run settled. *)
Lemma in_flight_never_exceeds_limit_witness :
  (List.length
     [Fixtures.photo; Fixtures.pdf; Fixtures.clip; Fixtures.photo] <= 5)%nat.
Proof.
  pose (fl := [Fixtures.photo; Fixtures.photo2; Fixtures.pdf; Fixtures.clip;
               Fixtures.photo; Fixtures.photo2; Fixtures.pdf]).
  apply (@in_flight_never_exceeds_limit fl
           {| BatchLoop.next_index := 5;
              BatchLoop.in_flight := [Fixtures.photo; Fixtures.pdf; Fixtures.clip; Fixtures.photo];
              BatchLoop.settled := [Fixtures.photo2] |}).
  eapply BatchLoop.reach_step.
  - eapply BatchLoop.reach_step; [apply BatchLoop.reach_initial|].
    apply BatchLoop.step_dispatch; [reflexivity|cbn; lia].
  - apply (@BatchLoop.step_settle fl
             {| BatchLoop.next_index := 5;
                BatchLoop.in_flight := [Fixtures.photo; Fixtures.photo2; Fixtures.pdf;
                                        Fixtures.clip; Fixtures.photo];
                BatchLoop.settled := [] |}
             [Fixtures.photo] Fixtures.photo2 [Fixtures.pdf; Fixtures.clip; Fixtures.photo]).
    reflexivity.
Defined.

(** ** The bulk handler, for any gateway *)

Module BulkFacts.

Import Cloudinary GalleryController BatchLoop.

Section WithGateway.

Variable env : Env.
Variable gateway : JsFile -> string -> M CloudResult.
Variable req : Request.

(** A per-file run never rejects: it settles to the created document, which
    it has pushed to [uploadedItems], or to [null], leaving the array as it
    was. *)
Lemma processFile_settles (f : UploadedFile) (uploadedItems : list Doc) (w : World) :
  exists r w',
    processFile env gateway req f uploadedItems w =
      (Return (r, (uploadedItems ++ fulfilled [r])%list), w').
Proof.
  unfold processFile, try_catch.
  destruct (StageFacts.extractMetadata_effects env (path f) (mediaTypeOf (mimetype f)) w)
    as (m & w0 & Hm & _).
  destruct (StageFacts.generateThumbnail_effects env (path f) (mediaTypeOf (mimetype f)) w0)
    as (t & w1 & Ht & _).
  unfold bind at 1. rewrite Hm.
  unfold bind at 1. rewrite Ht.
  assert (Hfail : forall e w2,
             exists r w',
               (console_log LError ("Error processing file " ++ originalname f ++ ": "
                                    ++ message e) ;;;
                ret (None, uploadedItems))%js w2 =
               (Return (r, (uploadedItems ++ fulfilled [r])%list), w')).
  { intros e w2. exists None. eexists.
    unfold bind, console_log, modify, ret. cbn [fulfilled List.flat_map].
    rewrite List.app_nil_r. reflexivity. }
  unfold bind at 1.
  destruct (upload_thumbnail gateway t w1) as [[thumbnailUrl|e] w2]; [|apply Hfail].
  unfold bind at 1.
  destruct (gateway (FPath (path f)) "gallery" w2) as [[result|e] w3]; [|apply Hfail].
  unfold bind at 1, GalleryItem_create, bind at 1, external, modify.
  destruct (db_create env _) as [e|] eqn:Hdb; [apply Hfail|].
  unfold bind at 1, modify, ret at 1.
  destruct (fs_unlink_logged_returns (path f)
              (add_doc (bulk_doc req f (mediaTypeOf (mimetype f)) (secure_url result)
                          thumbnailUrl m)
                 (add_call (DbCreate (url (bulk_doc req f (mediaTypeOf (mimetype f))
                                             (secure_url result) thumbnailUrl m)))
                    (latency env (DbCreate (url (bulk_doc req f (mediaTypeOf (mimetype f))
                                                   (secure_url result) thumbnailUrl m)))) w3)))
    as (w4 & Hun & _).
  unfold bind at 1. rewrite Hun.
  eexists (Some _), _. unfold ret. cbn [fulfilled List.flat_map List.app]. reflexivity.
Qed.

Lemma fulfilled_app (a b : list (option Doc)) :
  fulfilled (a ++ b) = (fulfilled a ++ fulfilled b)%list.
Proof. unfold fulfilled. apply List.flat_map_app. Qed.


(** One batch: every file of it is run, whatever its siblings settle to. *)
Lemma process_batch_settles (batch : list UploadedFile) (uploadedItems : list Doc) (w : World) :
  exists rs w',
    process_batch env gateway req batch uploadedItems w =
      (Return (rs, (uploadedItems ++ fulfilled rs)%list), w') /\
    List.length rs = List.length batch.
Proof.
  revert uploadedItems w. induction batch as [|f rest IH]; intros uploadedItems w.
  - exists [], w. cbn. rewrite List.app_nil_r. split; reflexivity.
  - destruct (processFile_settles f uploadedItems w) as (r & w1 & Hr).
    destruct (IH (uploadedItems ++ fulfilled [r])%list w1) as (rs & w2 & Hrs & Hlen).
    exists (r :: rs), w2. cbn [process_batch].
    unfold bind at 1. rewrite Hr. cbn [snd fst].
    unfold bind at 1. rewrite Hrs. unfold ret. cbn [snd fst].
    split; [|cbn; lia].
    rewrite <- List.app_assoc, <- fulfilled_app. reflexivity.
Qed.

Lemma process_batch_app (b1 b2 : list UploadedFile) (u u1 u2 : list Doc)
    (rs1 rs2 : list (option Doc)) (w w1 w2 : World) :
  process_batch env gateway req b1 u w = (Return (rs1, u1), w1) ->
  process_batch env gateway req b2 u1 w1 = (Return (rs2, u2), w2) ->
  process_batch env gateway req (b1 ++ b2) u w = (Return ((rs1 ++ rs2)%list, u2), w2).
Proof.
  revert u w rs1 u1 w1. induction b1 as [|f rest IH]; intros u w rs1 u1 w1 H1 H2.
  - cbn in H1. injection H1 as <- <- <-. exact H2.
  - cbn [process_batch List.app] in *.
    unfold bind at 1 in H1. unfold bind at 1.
    destruct (processFile env gateway req f u w) as [[r|e] w0]; [|discriminate].
    unfold bind at 1 in H1. unfold bind at 1.
    destruct (process_batch_settles rest (snd r) w0) as (rs & w' & Hrest & _).
    rewrite Hrest in H1. unfold ret in H1. cbn [fst snd] in H1.
    injection H1 as <- <- <-.
    rewrite (IH _ _ _ _ _ Hrest H2). reflexivity.
Qed.

Variable completion : nat -> list UploadedFile -> list UploadedFile.

(** The loop over batches runs the files of the request batch after batch,
    each batch in its order of completion. *)
Lemma batches_from_all (fl : list UploadedFile) (fuel i : nat)
    (settled0 : list (option Doc)) (u : list Doc) (w : World) :
  exists rs w',
    process_batch env gateway req (completion_from completion fuel fl i) u w =
      (Return (rs, (u ++ fulfilled rs)%list), w') /\
    batches_from env gateway completion fuel req fl i settled0 u w =
      (Return ((settled0 ++ rs)%list, (u ++ fulfilled rs)%list), w').
Proof.
  revert i settled0 u w. induction fuel as [|fuel IH]; intros i settled0 u w.
  - exists [], w. cbn. rewrite !List.app_nil_r. split; reflexivity.
  - cbn [batches_from completion_from].
    destruct (Nat.ltb_spec i (List.length fl)) as [Hlt|Hge].
    + destruct (process_batch_settles (completion i (Js.slice fl i (i + concurrencyLimit))) u w)
        as (rs1 & w1 & H1 & _).
      destruct (IH (i + concurrencyLimit)%nat (settled0 ++ rs1)%list
                   (u ++ fulfilled rs1)%list w1) as (rs2 & w2 & H2 & Hloop).
      exists (rs1 ++ rs2)%list, w2. split.
      * rewrite fulfilled_app, List.app_assoc.
        eapply process_batch_app; eassumption.
      * unfold bind at 1. rewrite H1. cbn [fst snd].
        rewrite Hloop, fulfilled_app, !List.app_assoc. reflexivity.
    + exists [], w. cbn. rewrite !List.app_nil_r. split; reflexivity.
Qed.


Lemma run_batches_all (fl : list UploadedFile) (w : World) :
  exists rs w',
    process_batch env gateway req (completion_order completion fl) [] w =
      (Return (rs, fulfilled rs), w') /\
    run_batches env gateway completion req fl w = (Return (rs, fulfilled rs), w') /\
    List.length rs = List.length (completion_order completion fl).
Proof.
  destruct (@batches_from_all fl (List.length fl) 0%nat [] [] w) as (rs & w' & H1 & H2).
  cbn in H1, H2. exists rs, w'. split; [exact H1|]. split; [exact H2|].
  destruct (process_batch_settles (completion_order completion fl) [] w)
    as (rs' & w'' & H3 & Hlen).
  unfold completion_order in H3. rewrite H1 in H3. injection H3 as <- _. exact Hlen.
Qed.

End WithGateway.

End BulkFacts.




(** With a gateway that takes path strings, a batch of three files of which
    the provider rejects one is answered with the two others. *)
Example bulk_two_of_three :
  exists d1 d2 w',
    GalleryController.bulkUploadGalleryItems Fixtures.env_pdf_rejected
      (Fixtures.path_gateway Fixtures.env_pdf_rejected) MoreFixtures.in_request_order
      (Fixtures.bulk [Fixtures.photo; Fixtures.pdf; Fixtures.photo2]) Fixtures.disk =
      (Return (GalleryController.Responded
         {| GalleryController.res_status := 201;
            GalleryController.res_body :=
              [("success", GalleryController.JBool true);
               ("count", GalleryController.JNum 2);
               ("data", GalleryController.JDocs [d1; d2])] |}), w') /\
    title d1 = Some "photo" /\ title d2 = Some "photo2" /\
    on_disk "/uploads/photo.png" w' = false /\
    on_disk "/uploads/photo2.png" w' = false /\
    on_disk "/uploads/doc.pdf" w' = true.
Proof.
  do 3 eexists. split; [vm_compute; reflexivity|].
  repeat split.
Qed.

(** ** The single-item handler, for any gateway *)

Module SingleFacts.

Import Cloudinary GalleryController.

Section WithGateway.

Variable env : Env.
Variable gateway : JsFile -> string -> M CloudResult.

(** Without a thumbnail the run is decided by the upload of the original and
    the creation of the document. *)
Lemma createGalleryItem_without_thumbnail
    (req : Request) (f : UploadedFile) (w w0 w1 w2 : World) (m : Metadata) (r : CloudResult) :
  file req = Some f ->
  extractMetadata env (path f) (mediaTypeOf (mimetype f)) w = (Return m, w0) ->
  generateThumbnail env (path f) (mediaTypeOf (mimetype f)) w0 = (Return None, w1) ->
  gateway (FPath (path f)) "gallery" w1 = (Return r, w2) ->
  db_create env (single_doc req (mediaTypeOf (mimetype f)) (secure_url r) None m) = None ->
  exists w3,
    createGalleryItem env gateway req w =
      (Return (Responded
         {| res_status := 201;
            res_body := [("success", JBool true);
                         ("data", JDoc (single_doc req (mediaTypeOf (mimetype f))
                                          (secure_url r) None m))] |}), w3).
Proof.
  intros Hf Hm Ht Hup Hdb.
  unfold createGalleryItem, catchAsync, try_catch. rewrite Hf.
  unfold bind at 1. rewrite Hm.
  unfold bind at 1. rewrite Ht.
  unfold bind at 1, upload_thumbnail, ret at 1.
  unfold bind at 1. rewrite Hup.
  unfold bind at 1, GalleryItem_create, bind at 1, external, modify.
  rewrite Hdb.
  unfold bind at 1, modify, ret at 1.
  unfold bind at 1.
  match goal with
  | |- context [fs_unlink_logged ?p ?w] =>
      destruct (fs_unlink_logged_returns p w) as (w3 & Hun & _)
  end.
  rewrite Hun. eexists. reflexivity.
Qed.

(** A thumbnail upload that throws ends the run: the error goes to [next]. *)
Lemma createGalleryItem_thumbnail_upload_throws
    (req : Request) (f : UploadedFile) (w w0 w1 w2 : World) (m : Metadata)
    (tp : string) (e : Error) :
  file req = Some f ->
  extractMetadata env (path f) (mediaTypeOf (mimetype f)) w = (Return m, w0) ->
  generateThumbnail env (path f) (mediaTypeOf (mimetype f)) w0 = (Return (Some tp), w1) ->
  gateway (FPath tp) "gallery/thumbnails" w1 = (Throw e, w2) ->
  createGalleryItem env gateway req w = (Return (Next e), w2).
Proof.
  intros Hf Hm Ht Hup.
  unfold createGalleryItem, catchAsync, try_catch. rewrite Hf.
  unfold bind at 1. rewrite Hm.
  unfold bind at 1. rewrite Ht.
  unfold bind at 1, upload_thumbnail.
  unfold bind at 1. rewrite Hup. reflexivity.
Qed.

End WithGateway.

End SingleFacts.

(** C4, as the code has it.  For every gateway: when thumbnail generation
    fails and the original upload and the creation of the document succeed,
    the run answers 201 with a document whose [thumbnailUrl] is null; when a
    thumbnail was generated and its upload throws, the run ends there with that
    error handed to [next]. *)
Theorem thumbnail_failures
    (env : Env) (gateway : Cloudinary.JsFile -> string -> M CloudResult)
    (req : GalleryController.Request) (f : GalleryController.UploadedFile)
    (w w0 w1 : World) (m : Metadata) (t : option string) :
  GalleryController.file req = Some f ->
  GalleryController.extractMetadata env (GalleryController.path f)
    (GalleryController.mediaTypeOf (GalleryController.mimetype f)) w = (Return m, w0) ->
  GalleryController.generateThumbnail env (GalleryController.path f)
    (GalleryController.mediaTypeOf (GalleryController.mimetype f)) w0 = (Return t, w1) ->
  (t = None ->
   forall r w2,
     gateway (Cloudinary.FPath (GalleryController.path f)) "gallery" w1 = (Return r, w2) ->
     db_create env
       (GalleryController.single_doc req
          (GalleryController.mediaTypeOf (GalleryController.mimetype f))
          (secure_url r) None m) = None ->
     exists d w3,
       GalleryController.createGalleryItem env gateway req w =
         (Return (GalleryController.Responded
            {| GalleryController.res_status := 201;
               GalleryController.res_body :=
                 [("success", GalleryController.JBool true);
                  ("data", GalleryController.JDoc d)] |}), w3) /\
       thumbnailUrl d = None /\ url d = secure_url r /\ metadata d = m) /\
  (forall tp e w2,
     t = Some tp ->
     gateway (Cloudinary.FPath tp) "gallery/thumbnails" w1 = (Throw e, w2) ->
     GalleryController.createGalleryItem env gateway req w =
       (Return (GalleryController.Next e), w2)).
Proof.
  intros Hf Hm Ht. split.
  - intros -> r w2 Hup Hdb.
    edestruct SingleFacts.createGalleryItem_without_thumbnail as (w3 & Hrun);
      [exact Hf|exact Hm|exact Ht|exact Hup|exact Hdb|].
    do 2 eexists. split; [exact Hrun|]. repeat split.
  - intros tp e w2 -> Hup.
    eapply SingleFacts.createGalleryItem_thumbnail_upload_throws; eassumption.
Qed.

(** Witness for C4: a PNG the resizer rejects, sent through a gateway that
    takes path strings; and a PNG whose thumbnail upload is refused. *)
Lemma thumbnail_failures_witness :
  (exists d w3,
      GalleryController.createGalleryItem Fixtures.env_no_thumbnail
        (Fixtures.path_gateway Fixtures.env_no_thumbnail)
        (Fixtures.single Fixtures.photo) Fixtures.disk =
        (Return (GalleryController.Responded
           {| GalleryController.res_status := 201;
              GalleryController.res_body :=
                [("success", GalleryController.JBool true);
                 ("data", GalleryController.JDoc d)] |}), w3) /\
      thumbnailUrl d = None /\
      url d = "https://res.cloudinary.com/demo/image/upload/v1/gallery/asset.webp") /\
  (exists w2,
      GalleryController.createGalleryItem Fixtures.env_ok
        (Fixtures.no_thumbnail_gateway Fixtures.env_ok)
        (Fixtures.single Fixtures.photo) Fixtures.disk =
        (Return (GalleryController.Next (ApiError "Error uploading file to Cloudinary" 500)),
         w2)).
Proof.
  split.
  - edestruct (@thumbnail_failures Fixtures.env_no_thumbnail
                 (Fixtures.path_gateway Fixtures.env_no_thumbnail)
                 (Fixtures.single Fixtures.photo) Fixtures.photo Fixtures.disk)
      as [Hnone _]; [reflexivity|vm_compute; reflexivity|vm_compute; reflexivity|].
    edestruct Hnone as (d & w3 & Hrun & Hthumb & Hurl & _);
      [reflexivity|vm_compute; reflexivity|reflexivity|].
    exists d, w3. split; [exact Hrun|]. split; [exact Hthumb|exact Hurl].
  - edestruct (@thumbnail_failures Fixtures.env_ok
                 (Fixtures.no_thumbnail_gateway Fixtures.env_ok)
                 (Fixtures.single Fixtures.photo) Fixtures.photo Fixtures.disk)
      as [_ Hthrows]; [reflexivity|vm_compute; reflexivity|vm_compute; reflexivity|].
    eexists. eapply Hthrows; [reflexivity|vm_compute; reflexivity].
Defined.

(** Counterexample to C4 as stated: a thumbnail is generated, its upload
    fails, the original would be accepted, and the run still ends in an
    error instead of a record without thumbnail. *)
Lemma thumbnail_upload_failure_is_fatal :
  ~ (forall (env : Env) (gateway : Cloudinary.JsFile -> string -> M CloudResult)
            (req : GalleryController.Request) (f : GalleryController.UploadedFile)
            (w w0 w1 w2 : World) (m : Metadata) (tp : string) (e : Error),
        GalleryController.file req = Some f ->
        GalleryController.extractMetadata env (GalleryController.path f)
          (GalleryController.mediaTypeOf (GalleryController.mimetype f)) w = (Return m, w0) ->
        GalleryController.generateThumbnail env (GalleryController.path f)
          (GalleryController.mediaTypeOf (GalleryController.mimetype f)) w0
          = (Return (Some tp), w1) ->
        gateway (Cloudinary.FPath tp) "gallery/thumbnails" w1 = (Throw e, w2) ->
        (forall w', exists r w'',
            gateway (Cloudinary.FPath (GalleryController.path f)) "gallery" w'
            = (Return r, w'')) ->
        (forall d, db_create env d = None) ->
        exists r w3,
          GalleryController.createGalleryItem env gateway req w =
            (Return (GalleryController.Responded r), w3)).
Proof.
  intros claim.
  edestruct (claim Fixtures.env_ok (Fixtures.no_thumbnail_gateway Fixtures.env_ok)
               (Fixtures.single Fixtures.photo) Fixtures.photo Fixtures.disk)
    as (r & w3 & Hrun).
  - reflexivity.
  - vm_compute. reflexivity.
  - vm_compute. reflexivity.
  - vm_compute. reflexivity.
  - intros w'. do 2 eexists. reflexivity.
  - reflexivity.
  - vm_compute in Hrun. discriminate Hrun.
Qed.

(* ================================================================= *)
(** * Further properties of the code *)

(** ** Splitting and joining *)

Module TextFacts.

Lemma chars_app (a b : string) :
  list_ascii_of_string (a ++ b)
  = (list_ascii_of_string a ++ list_ascii_of_string b)%list.
Proof.
  induction a as [|c a IH]; [reflexivity|]. cbn. now rewrite IH.
Qed.

Lemma split_not_nil (sep : ascii) (s : string) : Js.split sep s <> [].
Proof.
  destruct s as [|c s]; cbn; [discriminate|].
  destruct (Ascii.eqb c sep); [discriminate|].
  destruct (Js.split sep s); discriminate.
Qed.

Lemma split_free (sep : ascii) (a : string) :
  ~ In sep (list_ascii_of_string a) -> Js.split sep a = [a].
Proof.
  induction a as [|c a IH]; intros H; [reflexivity|].
  cbn in *. destruct (Ascii.eqb c sep) eqn:E.
  - apply Ascii.eqb_eq in E. exfalso. apply H. now left.
  - rewrite IH; [reflexivity|]. intros Hin. apply H. now right.
Qed.

Lemma split_app (sep : ascii) (a b : string) :
  ~ In sep (list_ascii_of_string a) ->
  Js.split sep (a ++ String sep b) = a :: Js.split sep b.
Proof.
  induction a as [|c a IH]; intros H.
  - cbn. now rewrite Ascii.eqb_refl.
  - cbn in *. destruct (Ascii.eqb c sep) eqn:E.
    + apply Ascii.eqb_eq in E. exfalso. apply H. now left.
    + rewrite IH; [reflexivity|]. intros Hin. apply H. now right.
Qed.

(** Splitting what was joined gives the parts back. *)
Lemma split_join (sep : ascii) (parts : list string) :
  parts <> [] ->
  Forall (fun s => ~ In sep (list_ascii_of_string s)) parts ->
  Js.split sep (Js.join (String sep "") parts) = parts.
Proof.
  unfold Js.join. induction parts as [|x rest IH]; intros Hne Hall; [contradiction|].
  inversion Hall as [|? ? Hx Hrest]; subst.
  destruct rest as [|y rest].
  - cbn. now apply split_free.
  - change (String.concat (String sep "") (x :: y :: rest))
      with (x ++ String sep (String.concat (String sep "") (y :: rest))).
    rewrite split_app by exact Hx.
    rewrite IH; [reflexivity|discriminate|exact Hrest].
Qed.

Lemma findIndex_from_app (p : string -> bool) (pre rest : list string) (x : string) (i : Z) :
  Forall (fun s => p s = false) pre ->
  p x = true ->
  Js.findIndex_from p (pre ++ x :: rest) i = i + Z.of_nat (List.length pre).
Proof.
  revert i. induction pre as [|y pre IH]; intros i Hall Hx.
  - cbn. rewrite Hx. lia.
  - inversion Hall as [|? ? Hy Hpre]; subst. cbn [List.app Js.findIndex_from].
    rewrite Hy, IH by assumption. cbn [List.length]. lia.
Qed.

Lemma findIndex_from_none (p : string -> bool) (l : list string) (i : Z) :
  Forall (fun s => p s = false) l -> Js.findIndex_from p l i = -1.
Proof.
  revert i. induction l as [|y l IH]; intros i Hall; [reflexivity|].
  inversion Hall as [|? ? Hy Hl]; subst. cbn. rewrite Hy. now apply IH.
Qed.

End TextFacts.

(** X1.  [deleteFromCloudinary] cuts the public id out of a delivery URL
    [.../upload/<version>/<folder>/.../<name>.<ext>]: the folder path and the
    file name up to its first dot; the segment that follows [upload] and
    the extension are dropped. *)
Theorem idToDelete_of_delivery_url
    (pre folders : list string) (version name ext : string) :
  pre <> [] ->
  Forall (fun s => ~ In "/"%char (list_ascii_of_string s) /\ s <> "upload") pre ->
  ~ In "/"%char (list_ascii_of_string version) ->
  Forall (fun s => ~ In "/"%char (list_ascii_of_string s)) folders ->
  ~ In "/"%char (list_ascii_of_string name) ->
  ~ In "."%char (list_ascii_of_string name) ->
  ~ In "/"%char (list_ascii_of_string ext) ->
  Js.startsWith "http"
    (Js.join "/" (pre ++ "upload" :: version :: folders ++ [name ++ "." ++ ext])) = true ->
  Cloudinary.idToDelete
    (Js.join "/" (pre ++ "upload" :: version :: folders ++ [name ++ "." ++ ext]))
  = Js.join "/" (folders ++ [name]).
Proof.
  intros Hpre Hall Hv Hf Hn Hdot He Hhttp.
  assert (Hfile : ~ In "/"%char (list_ascii_of_string (name ++ "." ++ ext))).
  { rewrite TextFacts.chars_app. intros Hin.
    apply List.in_app_or in Hin. destruct Hin as [Hin|[Hin|Hin]]; auto. discriminate. }
  assert (Hstem : Js.first_part (Js.split "." (name ++ "." ++ ext)) = name).
  { change (name ++ "." ++ ext) with (name ++ String "." ext).
    rewrite TextFacts.split_app by exact Hdot. reflexivity. }
  set (fileName := name ++ "." ++ ext) in *.
  unfold Cloudinary.idToDelete. rewrite Hhttp.
  rewrite (@TextFacts.split_join "/"%char).
  2:{ destruct pre; [contradiction|discriminate]. }
  2:{ apply List.Forall_app. split.
      - eapply List.Forall_impl; [|exact Hall]. cbv beta. tauto.
      - constructor; [cbn; intros [H|[H|[H|[H|[H|[H|[]]]]]]]; discriminate|].
        constructor; [exact Hv|].
        apply List.Forall_app. split; [exact Hf|]. constructor; [exact Hfile|constructor]. }
  unfold Js.findIndex.
  rewrite TextFacts.findIndex_from_app.
  2:{ eapply List.Forall_impl; [|exact Hall]. cbv beta. intros s [_ Hs].
      apply String.eqb_neq. congruence. }
  2:{ reflexivity. }
  assert (Hpos : (0 <? (0 + Z.of_nat (List.length pre))) = true).
  { apply Z.ltb_lt. destruct pre; [contradiction|cbn [List.length]; lia]. }
  rewrite Hpos.
  unfold Js.last_part, Js.slice_to_last.
  replace (pre ++ "upload" :: version :: folders ++ [fileName])%list
    with ((pre ++ "upload" :: version :: folders) ++ [fileName])%list
    by (rewrite <- List.app_assoc; reflexivity).
  rewrite List.last_last, List.removelast_last, Hstem.
  replace (Z.to_nat (0 + Z.of_nat (List.length pre) + 2))
    with (List.length (pre ++ ["upload"; version])%list)
    by (rewrite List.length_app; cbn [List.length]; lia).
  replace (pre ++ "upload" :: version :: folders)%list
    with ((pre ++ ["upload"; version]) ++ folders)%list
    by (rewrite <- List.app_assoc; reflexivity).
  rewrite List.skipn_app, List.skipn_all, Nat.sub_diag. reflexivity.
Qed.

(** Discharges [~ In c (list_ascii_of_string "literal")]. *)
Ltac char_free :=
  let H := fresh "H" in
  cbn; intros H; repeat (destruct H as [H|H]; [discriminate H|]); contradiction.

(** Witness for X1: the delivery URL of an asset in [portfolio/gallery]. *)
Lemma idToDelete_of_delivery_url_witness :
  Cloudinary.idToDelete
    "https://res.cloudinary.com/demo/image/upload/v1712/portfolio/gallery/sunset.webp"
  = "portfolio/gallery/sunset".
Proof.
  apply (@idToDelete_of_delivery_url
           ["https:"; ""; "res.cloudinary.com"; "demo"; "image"]
           ["portfolio"; "gallery"] "v1712" "sunset" "webp").
  - discriminate.
  - repeat constructor; try char_free; discriminate.
  - char_free.
  - repeat constructor; char_free.
  - char_free.
  - char_free.
  - char_free.
  - reflexivity.
Defined.

(** X2.  For a URL with no [upload] segment before its last one, the public
    id is the last segment up to its first dot: no folder is kept. *)
Theorem idToDelete_without_upload_segment (pre : list string) (fileName : string) :
  Forall (fun s => ~ In "/"%char (list_ascii_of_string s) /\ s <> "upload") pre ->
  ~ In "/"%char (list_ascii_of_string fileName) ->
  Js.startsWith "http" (Js.join "/" (pre ++ [fileName])) = true ->
  Cloudinary.idToDelete (Js.join "/" (pre ++ [fileName]))
  = Js.first_part (Js.split "." fileName).
Proof.
  intros Hall Hfile Hhttp.
  unfold Cloudinary.idToDelete. rewrite Hhttp.
  rewrite (@TextFacts.split_join "/"%char).
  2:{ destruct pre; discriminate. }
  2:{ apply List.Forall_app. split.
      - eapply List.Forall_impl; [|exact Hall]. cbv beta. tauto.
      - constructor; [exact Hfile|constructor]. }
  unfold Js.last_part, Js.slice_to_last, Js.findIndex.
  rewrite List.last_last, List.removelast_last.
  destruct (String.eqb "upload" fileName) eqn:E.
  - rewrite TextFacts.findIndex_from_app; [|
      eapply List.Forall_impl; [|exact Hall]; cbv beta; intros s [_ Hs];
      apply String.eqb_neq; congruence | exact E].
    replace (Z.to_nat (0 + Z.of_nat (List.length pre) + 2))
      with (List.length pre + 2)%nat by lia.
    rewrite List.skipn_all2 by lia.
    destruct (0 <? 0 + Z.of_nat (List.length pre)); reflexivity.
  - rewrite TextFacts.findIndex_from_none; [reflexivity|].
    apply List.Forall_app. split.
    + eapply List.Forall_impl; [|exact Hall]. cbv beta. intros s [_ Hs].
      apply String.eqb_neq. congruence.
    + constructor; [exact E|constructor].
Qed.

(** Witness for X2: a URL of another host. *)
Lemma idToDelete_without_upload_segment_witness :
  Cloudinary.idToDelete "https://cdn.example.org/media/banner.final.png" = "banner".
Proof.
  apply (@idToDelete_without_upload_segment
           ["https:"; ""; "cdn.example.org"; "media"] "banner.final.png").
  - repeat constructor; try char_free; discriminate.
  - char_free.
  - reflexivity.
Defined.

(** X3.  A deletion that fails is a soft failure: for an empty identifier
    (the provider is then not called and nothing changes), and when the
    provider rejects or the timer wins the race, [deleteFromCloudinary]
    returns [{ result: 'error', message }] instead of throwing.  The local
    disk does not change and no asset other than the named one leaves the
    remote store; the named asset itself is gone exactly when the deletion
    took effect behind the fault, which the race does not prevent. *)
Theorem delete_failure_is_soft (env : Env) (publicId : string) (w : World) :
  (publicId = "" \/ cloud_destroy_fault env (Cloudinary.idToDelete publicId) <> None) ->
  exists msg w',
    Cloudinary.deleteFromCloudinary env publicId w =
      (Return {| Cloudinary.result := "error"; Cloudinary.del_message := Some msg |}, w') /\
    fs w' = fs w /\
    (forall id, id <> Cloudinary.idToDelete publicId ->
                List.existsb (String.eqb id) (remote w')
                = List.existsb (String.eqb id) (remote w)) /\
    (publicId = "" ->
     msg = "No public ID provided" /\ calls w' = calls w /\ remote w' = remote w) /\
    (forall fault,
       publicId <> "" ->
       cloud_destroy_fault env (Cloudinary.idToDelete publicId) = Some fault ->
       msg = message (Cloudinary.fault_error fault) /\
       if deletion_took_effect fault
       then List.existsb (String.eqb (Cloudinary.idToDelete publicId)) (remote w') = false
       else remote w' = remote w).
Proof.
  intros Hcase.
  unfold Cloudinary.deleteFromCloudinary, try_catch, Cloudinary.destroy_race, bind,
    external, console_log, modify.
  destruct (String.eqb publicId "") eqn:E.
  - apply String.eqb_eq in E.
    do 2 eexists. cbn [ret throw]. split; [reflexivity|]. world_simpl.
    repeat split; intros; contradiction.
  - apply String.eqb_neq in E. destruct Hcase as [Hempty|Hfault]; [contradiction|].
    destruct (cloud_destroy_fault env (Cloudinary.idToDelete publicId)) as [fault|] eqn:Hf;
      [|contradiction].
    destruct (Js.startsWith "http" publicId); cbn [ret throw get_world];
      try rewrite Hf; destruct (deletion_took_effect fault) eqn:Heff;
      cbn [ret throw get_world];
      do 2 eexists; (split; [reflexivity|]); world_simpl;
      (split; [reflexivity|]);
      (split; [intros id Hid;
               try (apply existsb_disk_remove_other; apply String.eqb_neq; congruence);
               reflexivity|]);
      (split; [intros Hempty; contradiction|]);
      intros fault' _ [= <-]; rewrite Heff;
      (split; [reflexivity|]);
      solve [apply existsb_disk_remove | reflexivity].
Qed.

(** Witness for X3: the empty identifier; a provider that is out of reach;
    and a provider that is slow, where the asset is gone although the call
    reports an error. *)
Lemma delete_failure_is_soft_witness :
  (exists msg w',
     Cloudinary.deleteFromCloudinary Fixtures.env_ok "" Fixtures.disk =
       (Return {| Cloudinary.result := "error"; Cloudinary.del_message := Some msg |}, w') /\
     msg = "No public ID provided" /\
     calls w' = calls Fixtures.disk /\ remote w' = remote Fixtures.disk) /\
  (exists msg w',
     Cloudinary.deleteFromCloudinary MoreFixtures.env_provider_down "portfolio/gallery/old"
       Fixtures.disk =
       (Return {| Cloudinary.result := "error"; Cloudinary.del_message := Some msg |}, w') /\
     remote w' = remote Fixtures.disk) /\
  (exists msg w',
     Cloudinary.deleteFromCloudinary MoreFixtures.env_slow_delete "portfolio/gallery/old"
       Fixtures.disk =
       (Return {| Cloudinary.result := "error"; Cloudinary.del_message := Some msg |}, w') /\
     msg = "Cloudinary delete operation timed out after 10 seconds" /\
     List.existsb (String.eqb "portfolio/gallery/old") (remote Fixtures.disk) = true /\
     List.existsb (String.eqb "portfolio/gallery/old") (remote w') = false).
Proof.
  split; [|split].
  - destruct (@delete_failure_is_soft Fixtures.env_ok "" Fixtures.disk)
      as (msg & w' & Hrun & _ & _ & Hempty & _); [left; reflexivity|].
    exists msg, w'. split; [exact Hrun|]. apply Hempty. reflexivity.
  - destruct (@delete_failure_is_soft MoreFixtures.env_provider_down
                "portfolio/gallery/old" Fixtures.disk)
      as (msg & w' & Hrun & _ & _ & _ & Hfault); [right; discriminate|].
    exists msg, w'. split; [exact Hrun|].
    apply (Hfault (DestroyTimesOut false)); [discriminate|reflexivity].
  - destruct (@delete_failure_is_soft MoreFixtures.env_slow_delete
                "portfolio/gallery/old" Fixtures.disk)
      as (msg & w' & Hrun & _ & _ & _ & Hfault); [right; discriminate|].
    exists msg, w'. split; [exact Hrun|].
    destruct (Hfault (DestroyTimesOut true)) as [Hmsg Hgone];
      [discriminate|reflexivity|].
    split; [exact Hmsg|]. split; [reflexivity|exact Hgone].
Defined.

(** ** The gateway on file objects *)

Module GatewayFacts.

Import Cloudinary.

(** The [catch] block leaves the temp file of a file object off the disk. *)
Lemma upload_failed_cleans (o : FileObj) (p : string) (error : Error) (w : World) :
  f_path o = Some p ->
  p <> "" ->
  exists e w', upload_failed (FObject o) error w = (Throw e, w') /\ on_disk p w' = false.
Proof.
  intros Hp Hne. unfold upload_failed, bind. cbn [path_of]. rewrite Hp.
  cbn [get_world]. apply String.eqb_neq in Hne. rewrite Hne. cbn [negb andb].
  destruct (on_disk p w) eqn:Hd.
  - destruct (fs_unlink_logged_returns p w) as (w1 & -> & _ & _ & _ & Hgone).
    do 2 eexists. split; [reflexivity|]. exact Hgone.
  - do 2 eexists. split; [reflexivity|]. exact Hd.
Qed.

End GatewayFacts.

(** X4.  For a file object with an allowed image mimetype, a size of at most
    5 MB and a path that is on disk, when the provider accepts the upload
    [uploadToCloudinary] returns the provider's answer, has made exactly one
    upload call, into [<CLOUDINARY_FOLDER or 'portfolio'>/<folder>], the asset
    is stored under its public id, and the temp file is gone. *)
Theorem upload_of_file_object_succeeds
    (env : Env) (o : Cloudinary.FileObj) (p mt folder : string) (w : World) (r : CloudResult) :
  Cloudinary.f_path o = Some p ->
  Cloudinary.f_mimetype o = Some mt ->
  Js.includes Cloudinary.allowedTypes (Some mt) = true ->
  (forall n, Cloudinary.f_size o = Some n -> n <= 5 * 1024 * 1024) ->
  on_disk p w = true ->
  cloud_upload env (Some p)
    (Js.or_string (CLOUDINARY_FOLDER env) "portfolio" ++ "/" ++ folder) = inr r ->
  exists w',
    Cloudinary.uploadToCloudinary env (Cloudinary.FObject o) folder w = (Return r, w') /\
    on_disk p w' = false /\
    List.existsb (String.eqb (public_id r)) (remote w') = true /\
    calls w' =
      (calls w ++ [CloudUpload (Some p)
                     (Js.or_string (CLOUDINARY_FOLDER env) "portfolio" ++ "/" ++ folder)])%list.
Proof.
  intros Hp Hmt Hallowed Hsize Hdisk Hup.
  unfold Cloudinary.uploadToCloudinary, try_catch.
  cbn [Cloudinary.falsy].
  assert (Hx : Cloudinary.exceeds_maxSize (Cloudinary.FObject o) = false).
  { unfold Cloudinary.exceeds_maxSize. cbn [Cloudinary.size_of].
    destruct (Cloudinary.f_size o) as [n|] eqn:Hn; [|reflexivity].
    apply Z.ltb_ge. unfold Cloudinary.maxSize. now apply Hsize. }
  rewrite Hx. cbn [Cloudinary.mimetype_of Cloudinary.path_of].
  rewrite Hmt, Hallowed, Hp. cbn [negb].
  unfold bind, Cloudinary.uploadPromise, bind, external, modify. rewrite Hup.
  cbn [ret Cloudinary.unlink_path]. unfold fs_unlink, on_disk in *. world_simpl.
  rewrite Hdisk. eexists. split; [reflexivity|]. world_simpl.
  split; [apply existsb_disk_remove|]. split; [apply existsb_disk_add_same|reflexivity].
Qed.

(** Witness for X4: a 4 KB PNG staged by multer, uploaded to [news]. *)
Lemma upload_of_file_object_succeeds_witness :
  exists w',
    Cloudinary.uploadToCloudinary Fixtures.env_ok
      (Fixtures.image_object "/uploads/photo.png" "image/png" 4096) "news" Fixtures.disk
      = (Return (Fixtures.uploaded_as (Some "/uploads/photo.png") "portfolio/news"), w') /\
    on_disk "/uploads/photo.png" w' = false /\
    List.existsb (String.eqb "portfolio/news/asset") (remote w') = true /\
    calls w' = [CloudUpload (Some "/uploads/photo.png") "portfolio/news"].
Proof.
  apply (@upload_of_file_object_succeeds Fixtures.env_ok
           {| Cloudinary.f_path := Some "/uploads/photo.png";
              Cloudinary.f_mimetype := Some "image/png";
              Cloudinary.f_size := Some 4096 |}
           "/uploads/photo.png" "image/png" "news" Fixtures.disk).
  - reflexivity.
  - reflexivity.
  - reflexivity.
  - intros n [= <-]. lia.
  - reflexivity.
  - reflexivity.
Defined.

(** X5.  Whatever happens (refused type or size, provider error, success),
    after [uploadToCloudinary] on a file object with a non-empty path that
    path is no longer on the local disk. *)
Theorem upload_always_removes_temp_file
    (env : Env) (o : Cloudinary.FileObj) (p folder : string) (w : World) :
  Cloudinary.f_path o = Some p ->
  p <> "" ->
  exists c w',
    Cloudinary.uploadToCloudinary env (Cloudinary.FObject o) folder w = (c, w') /\
    on_disk p w' = false.
Proof.
  intros Hp Hne.
  unfold Cloudinary.uploadToCloudinary, try_catch. cbn [Cloudinary.falsy].
  destruct (Cloudinary.exceeds_maxSize (Cloudinary.FObject o)).
  { cbn [throw].
    destruct (GatewayFacts.upload_failed_cleans o
                (ApiError "File size exceeds 5MB limit" 400) w Hp Hne) as (e & w' & -> & H).
    eauto. }
  destruct (negb (Js.includes Cloudinary.allowedTypes
                    (Cloudinary.mimetype_of (Cloudinary.FObject o)))).
  { cbn [throw].
    destruct (GatewayFacts.upload_failed_cleans o
                (ApiError "Invalid file type. Only images are allowed" 400) w Hp Hne)
      as (e & w' & -> & H).
    eauto. }
  cbn [Cloudinary.path_of]. rewrite Hp.
  unfold bind at 1, Cloudinary.uploadPromise, bind at 1, external, modify.
  destruct (cloud_upload env (Some p) _) as [e|r].
  { cbn [throw].
    match goal with
    | |- context [Cloudinary.upload_failed _ ?err ?w0] =>
        destruct (GatewayFacts.upload_failed_cleans o err w0 Hp Hne) as (e' & w' & -> & H)
    end.
    eauto. }
  unfold bind at 1, modify, ret at 1.
  unfold bind at 1. cbn [Cloudinary.unlink_path]. unfold fs_unlink.
  match goal with
  | |- context [on_disk p ?w0] => destruct (on_disk p w0) eqn:Hd
  end.
  - do 2 eexists. split; [reflexivity|]. unfold on_disk. world_simpl.
    apply existsb_disk_remove.
  - match goal with
    | |- context [Cloudinary.upload_failed _ ?err ?w0] =>
        destruct (GatewayFacts.upload_failed_cleans o err w0 Hp Hne) as (e' & w' & -> & H)
    end.
    eauto.
Qed.

(** Witness for X5: a 6 MB PNG, refused for its size, is unlinked. *)
Lemma upload_always_removes_temp_file_witness :
  exists c w',
    Cloudinary.uploadToCloudinary Fixtures.env_ok
      (Fixtures.image_object "/uploads/photo.png" "image/png" (6 * 1024 * 1024))
      "news" Fixtures.disk = (c, w') /\
    on_disk "/uploads/photo.png" w' = false.
Proof.
  apply (@upload_always_removes_temp_file Fixtures.env_ok
           {| Cloudinary.f_path := Some "/uploads/photo.png";
              Cloudinary.f_mimetype := Some "image/png";
              Cloudinary.f_size := Some (6 * 1024 * 1024) |}
           "/uploads/photo.png" "news" Fixtures.disk).
  - reflexivity.
  - discriminate.
Defined.

(** X6.  Every error [uploadToCloudinary] throws is an [ApiError] with a
    non-empty message and a non-zero status code: the cause's own status when
    it has one, 500 otherwise. *)
Theorem upload_errors_carry_a_status
    (env : Env) (file : Cloudinary.JsFile) (folder : string) (w w' : World) (e : Error) :
  Cloudinary.uploadToCloudinary env file folder w = (Throw e, w') ->
  message e <> "" /\ exists c, statusCode e = Some c /\ c <> 0.
Proof.
  unfold Cloudinary.uploadToCloudinary, try_catch.
  match goal with
  | |- context [match ?body w with _ => _ end] => destruct (body w) as [[r|e0] w1]
  end; [discriminate|].
  destruct (CloudinaryFacts.upload_failed_throws file e0 w1) as (w2 & -> & _).
  intros [= <- _]. cbn [message statusCode ApiError]. split.
  - unfold Js.or_string. destruct (String.eqb (message e0) "") eqn:E; [discriminate|].
    now apply String.eqb_neq.
  - eexists. split; [reflexivity|].
    unfold Cloudinary.status_or. destruct (statusCode e0) as [n|]; [|lia].
    destruct (n =? 0) eqn:E; [lia|]. now apply Z.eqb_neq.
Qed.

(** Witness for X6: the provider rejects with a plain network error. *)
Lemma upload_errors_carry_a_status_witness :
  exists e w',
    Cloudinary.uploadToCloudinary MoreFixtures.env_provider_down
      (Fixtures.image_object "/uploads/photo.png" "image/png" 4096) "news" Fixtures.disk
      = (Throw e, w') /\
    message e = "getaddrinfo ENOTFOUND api.cloudinary.com" /\ statusCode e = Some 500 /\
    (message e <> "" /\ exists c, statusCode e = Some c /\ c <> 0).
Proof.
  do 2 eexists. split; [vm_compute; reflexivity|].
  split; [reflexivity|]. split; [reflexivity|].
  eapply (@upload_errors_carry_a_status MoreFixtures.env_provider_down
            (Fixtures.image_object "/uploads/photo.png" "image/png" 4096) "news"
            Fixtures.disk).
  vm_compute. reflexivity.
Defined.

(** ** Thumbnail names *)

Module NameFacts.

Lemma to_int_not_nil (z : Z) :
  Z.to_int z <> Decimal.Pos Decimal.Nil /\ Z.to_int z <> Decimal.Neg Decimal.Nil.
Proof.
  destruct z as [|p|p]; cbn; split; try discriminate;
    intros [= H]; exact (Unsigned.to_uint_nonnil p H).
Qed.

(** Two integers that print alike are equal. *)
Lemma show_Z_inj (a b : Z) : Js.show_Z a = Js.show_Z b -> a = b.
Proof.
  unfold Js.show_Z. intros H.
  apply (f_equal NilZero.int_of_string) in H.
  destruct (to_int_not_nil a) as [Ha1 Ha2], (to_int_not_nil b) as [Hb1 Hb2].
  rewrite !NilZero.isi in H by assumption.
  injection H as H. now apply DecimalZ.to_int_inj.
Qed.

Lemma append_length (a b : string) :
  String.length (a ++ b) = (String.length a + String.length b)%nat.
Proof.
  induction a as [|c a IH]; [reflexivity|]. cbn. now rewrite IH.
Qed.

Lemma append_inj_l (a b c : string) : a ++ c = b ++ c -> a = b.
Proof.
  intros H.
  assert (Hlen : String.length a = String.length b).
  { apply (f_equal String.length) in H. rewrite !append_length in H. lia. }
  revert b H Hlen. induction a as [|x a IH]; intros [|y b] H Hlen;
    try discriminate; [reflexivity|].
  cbn in H, Hlen. injection H as -> H. f_equal. apply IH; [exact H|lia].
Qed.

End NameFacts.

(** X7.  The thumbnail path is determined by the clock reading and by
    nothing else: two readings give the same path exactly when they are the
    same millisecond. *)
Theorem thumbnail_paths_differ_across_milliseconds (t1 t2 : Z) :
  GalleryController.thumbnailPathAt t1 = GalleryController.thumbnailPathAt t2 <-> t1 = t2.
Proof.
  split; [|now intros ->].
  unfold GalleryController.thumbnailPathAt. intros H.
  cbn in H. repeat injection H as H.
  apply NameFacts.append_inj_l in H. now apply NameFacts.show_Z_inj.
Qed.

(** Witness for X7: the paths of two consecutive milliseconds differ. *)
Lemma thumbnail_paths_differ_across_milliseconds_witness :
  GalleryController.thumbnailPathAt 1730505600123
  <> GalleryController.thumbnailPathAt 1730505600124.
Proof.
  intros H.
  apply (proj1 (thumbnail_paths_differ_across_milliseconds 1730505600123 1730505600124)) in H.
  discriminate H.
Defined.

Lemma existsb_disk_add_other (p q : string) (l : list string) :
  String.eqb q p = false ->
  List.existsb (String.eqb p) (disk_add q l) = List.existsb (String.eqb p) l.
Proof.
  intros Hne. unfold disk_add.
  destruct (List.existsb (String.eqb q) l); [reflexivity|].
  rewrite List.existsb_app. cbn. rewrite String.eqb_sym, Hne.
  now rewrite !Bool.orb_false_r.
Qed.

(** X8.  A video thumbnail goes through the fixed file
    [/tmp/thumbnail-1.jpg]: when ffmpeg succeeds, [generateThumbnail] returns
    [/tmp/thumb-<now>.jpg], that path is on disk, [/tmp/thumbnail-1.jpg] is
    not (also when it was there before the call), and no other path is added
    or removed; when ffmpeg fails it returns [null] and the disk is as
    before. *)
Theorem video_thumbnail_moves_the_screenshot (env : Env) (filePath : string) (w : World) :
  (ffmpeg_screenshots env filePath = None ->
   exists w',
     GalleryController.generateThumbnail env filePath Video w =
       (Return (Some (GalleryController.thumbnailPathAt (clock w))), w') /\
     on_disk (GalleryController.thumbnailPathAt (clock w)) w' = true /\
     on_disk "/tmp/thumbnail-1.jpg" w' = false /\
     (forall q, q <> "/tmp/thumbnail-1.jpg" ->
                q <> GalleryController.thumbnailPathAt (clock w) ->
                on_disk q w' = on_disk q w)) /\
  (forall e, ffmpeg_screenshots env filePath = Some e ->
   exists w',
     GalleryController.generateThumbnail env filePath Video w = (Return None, w') /\
     fs w' = fs w).
Proof.
  split.
  - intros Hok.
    cbv [GalleryController.generateThumbnail try_catch bind date_now external modify
           GalleryController.write_file fs_rename ret throw console_log on_disk].
    rewrite Hok. world_simpl. rewrite existsb_disk_add_same.
    eexists. split; [reflexivity|]. world_simpl.
    split; [apply existsb_disk_add_same|]. split.
    + rewrite existsb_disk_add_other by reflexivity. apply existsb_disk_remove.
    + intros q Hq1 Hq2.
      rewrite existsb_disk_add_other by (apply String.eqb_neq; congruence).
      rewrite existsb_disk_remove_other by (apply String.eqb_neq; congruence).
      apply existsb_disk_add_other. apply String.eqb_neq. congruence.
  - intros e Hfail.
    cbv [GalleryController.generateThumbnail try_catch bind date_now external modify
           GalleryController.write_file fs_rename ret throw console_log on_disk].
    rewrite Hfail. eexists. split; reflexivity.
Qed.

(** Witness for X8: a clip whose frame ffmpeg extracts, with a screenshot of
    another run left in [/tmp]. *)
Lemma video_thumbnail_moves_the_screenshot_witness :
  exists w',
    GalleryController.generateThumbnail Fixtures.env_ok "/uploads/clip.mp4" Video
      (set_fs ("/tmp/thumbnail-1.jpg" :: fs Fixtures.disk) Fixtures.disk) =
      (Return (Some "/tmp/thumb-1730505600123.jpg"), w') /\
    on_disk "/tmp/thumb-1730505600123.jpg" w' = true /\
    on_disk "/tmp/thumbnail-1.jpg" w' = false.
Proof.
  destruct (video_thumbnail_moves_the_screenshot Fixtures.env_ok "/uploads/clip.mp4"
              (set_fs ("/tmp/thumbnail-1.jpg" :: fs Fixtures.disk) Fixtures.disk))
    as [Hok _].
  destruct (Hok eq_refl) as (w' & Hrun & Hthumb & Hshot & _).
  exists w'. split; [exact Hrun|]. split; [exact Hthumb|exact Hshot].
Defined.

(** X9.  [extractMetadata] is an observer: on every input, whether its
    tools succeed or fail, it returns normally and leaves the local disk, the
    remote store and the database as they were. *)
Theorem extractMetadata_only_observes
    (env : Env) (filePath : string) (k : MediaType) (w : World) :
  exists m w',
    GalleryController.extractMetadata env filePath k w = (Return m, w') /\
    fs w' = fs w /\ remote w' = remote w /\ db w' = db w.
Proof.
  destruct k.
  - cbv [GalleryController.extractMetadata try_catch bind GalleryController.sharp_meta
           GalleryController.fs_stat_size GalleryController.exifr external modify
           ret throw on_disk console_log].
    destruct (sharp_metadata env filePath) as [e|meta]; world_simpl;
      [do 2 eexists; split; [reflexivity|]; repeat split|].
    destruct (List.existsb (String.eqb filePath) (fs w));
      [|do 2 eexists; split; [reflexivity|]; repeat split].
    destruct (exifr_parse env filePath);
      do 2 eexists; (split; [reflexivity|]); repeat split.
  - cbv [GalleryController.extractMetadata try_catch bind GalleryController.probe
           GalleryController.fs_stat_size external modify ret throw on_disk console_log].
    destruct (ffprobe env filePath) as [e|pd]; world_simpl;
      [do 2 eexists; split; [reflexivity|]; repeat split|].
    destruct (List.find GalleryController.is_video_stream (streams pd));
      [|do 2 eexists; split; [reflexivity|]; repeat split].
    world_simpl.
    destruct (List.existsb (String.eqb filePath) (fs w));
      do 2 eexists; (split; [reflexivity|]); repeat split.
Qed.

Lemma find_first_video (pre post : list Stream) (v : Stream) :
  Forall (fun s => codec_type s <> "video") pre ->
  codec_type v = "video" ->
  List.find GalleryController.is_video_stream (pre ++ v :: post) = Some v.
Proof.
  intros Hpre Hv. induction Hpre as [|s pre Hs _ IH]; cbn.
  - unfold GalleryController.is_video_stream. now rewrite Hv.
  - unfold GalleryController.is_video_stream at 1.
    destruct (String.eqb (codec_type s) "video") eqn:E; [|exact IH].
    apply String.eqb_eq in E. contradiction.
Qed.

(** X10.  For a file inspected as video that is on disk and whose probe
    succeeds, the metadata is read off the first stream of codec type
    ['video'], skipping the streams before it and ignoring the ones after:
    its width, height and display aspect ratio, the floor of the container
    duration, the file's extension without the dot as format, and the size
    from the file system. *)
Theorem video_metadata_from_first_video_stream
    (env : Env) (filePath : string) (w : World) (probeData : ProbeData)
    (pre post : list Stream) (v : Stream) :
  ffprobe env filePath = inr probeData ->
  streams probeData = (pre ++ v :: post)%list ->
  Forall (fun s => codec_type s <> "video") pre ->
  codec_type v = "video" ->
  on_disk filePath w = true ->
  exists w',
    GalleryController.extractMetadata env filePath Video w =
      (Return {| width := Some (st_width v);
                 height := Some (st_height v);
                 duration := Some (GalleryController.floor_duration
                                     (format_duration probeData));
                 format := Some (Js.remove_first_dot (Js.extname filePath));
                 size := Some (file_size env filePath);
                 aspectRatio := Some (Display (display_aspect_ratio v));
                 exif := None |}, w').
Proof.
  intros Hp Hs Hpre Hv Hd.
  cbv [GalleryController.extractMetadata try_catch bind GalleryController.probe
         GalleryController.fs_stat_size external modify ret throw on_disk] in *.
  rewrite Hp, Hs, (@find_first_video pre post v Hpre Hv). world_simpl. rewrite Hd.
  eexists. reflexivity.
Qed.

(** Witness for X10: a clip with an audio stream, a 1920x1080 stream and a
    640x480 stream, 3.5 seconds long. *)
Lemma video_metadata_from_first_video_stream_witness :
  exists w',
    GalleryController.extractMetadata MoreFixtures.env_video "/uploads/clip.mp4" Video
      Fixtures.disk =
      (Return {| width := Some 1920; height := Some 1080; duration := Some (Num 3);
                 format := Some "mp4"; size := Some 4096;
                 aspectRatio := Some (Display (Some "16:9")); exif := None |}, w').
Proof.
  apply (@video_metadata_from_first_video_stream MoreFixtures.env_video "/uploads/clip.mp4"
           Fixtures.disk
           {| streams := [Fixtures.audio_stream; MoreFixtures.hd_stream;
                          MoreFixtures.sd_stream];
              format_duration := Some (7 # 2) |}
           [Fixtures.audio_stream] [MoreFixtures.sd_stream] MoreFixtures.hd_stream).
  - reflexivity.
  - reflexivity.
  - repeat constructor. discriminate.
  - reflexivity.
  - reflexivity.
Defined.

(** X11.  The media type is decided by the text before the first slash of
    the MIME type alone: it is ['image'] exactly when that text is [image],
    whatever the subtype says, and ['video'] for everything else. *)
Theorem media_type_is_decided_by_the_prefix (prefix subtype : string) :
  ~ In "/"%char (list_ascii_of_string prefix) ->
  GalleryController.fileTypeOf (prefix ++ "/" ++ subtype) = prefix /\
  (GalleryController.mediaTypeOf (prefix ++ "/" ++ subtype) = Image <-> prefix = "image") /\
  (GalleryController.mediaTypeOf (prefix ++ "/" ++ subtype) = Video <-> prefix <> "image").
Proof.
  intros Hfree.
  assert (Hft : GalleryController.fileTypeOf (prefix ++ "/" ++ subtype) = prefix).
  { unfold GalleryController.fileTypeOf.
    change (prefix ++ "/" ++ subtype) with (prefix ++ String "/" subtype).
    now rewrite TextFacts.split_app. }
  split; [exact Hft|].
  unfold GalleryController.mediaTypeOf. rewrite Hft.
  destruct (String.eqb prefix "image") eqn:E.
  - apply String.eqb_eq in E. split; split; auto; try discriminate. intros H. contradiction.
  - apply String.eqb_neq in E. split; split; auto; try discriminate. intros H. contradiction.
Qed.

(** Witness for X11: [image/svg+xml] is an image, [imagex/png] is not. *)
Lemma media_type_is_decided_by_the_prefix_witness :
  GalleryController.mediaTypeOf "image/svg+xml" = Image /\
  GalleryController.mediaTypeOf "imagex/png" = Video.
Proof.
  split.
  - apply (proj1 (proj2 (@media_type_is_decided_by_the_prefix "image" "svg+xml"
                            ltac:(char_free)))).
    reflexivity.
  - apply (proj2 (proj2 (@media_type_is_decided_by_the_prefix "imagex" "png"
                            ltac:(char_free)))).
    discriminate.
Defined.

(** ** Runs that succeed, and runs through the repository's gateway *)

Module RunFacts.

Import Cloudinary GalleryController.

Lemma existsb_disk_remove_true (p q : string) (l : list string) :
  List.existsb (String.eqb q) (disk_remove p l) = true ->
  List.existsb (String.eqb q) l = true /\ q <> p.
Proof.
  intros H. destruct (String.eqb p q) eqn:E.
  - apply String.eqb_eq in E. subst q. rewrite existsb_disk_remove in H. discriminate.
  - rewrite existsb_disk_remove_other in H by exact E. split; [exact H|].
    apply String.eqb_neq in E. congruence.
Qed.

(** After the logged unlink the path is gone and nothing else has changed
    on disk. *)
Lemma fs_unlink_logged_disk (p : string) (w : World) :
  exists w',
    fs_unlink_logged p w = (Return tt, w') /\
    on_disk p w' = false /\
    forall q, on_disk q w' = true -> on_disk q w = true /\ q <> p.
Proof.
  unfold fs_unlink_logged, try_catch, fs_unlink.
  destruct (on_disk p w) eqn:E.
  - eexists. split; [reflexivity|]. unfold on_disk. world_simpl.
    split; [apply existsb_disk_remove|]. intros q.
    apply existsb_disk_remove_true.
  - eexists. split; [reflexivity|]. split; [exact E|].
    intros q Hq. change (on_disk q w = true) in Hq.
    split; [exact Hq|]. intros ->. congruence.
Qed.

Lemma existsb_disk_add_true (p q : string) (l : list string) :
  List.existsb (String.eqb q) (disk_add p l) = true ->
  List.existsb (String.eqb q) l = true \/ q = p.
Proof.
  intros H. destruct (String.eqb p q) eqn:E.
  - apply String.eqb_eq in E. now right.
  - rewrite existsb_disk_add_other in H by exact E. now left.
Qed.

(** The only path [generateThumbnail] can add to the disk is the one it
    returns. *)
Lemma generateThumbnail_adds_only_the_thumbnail
    (env : Env) (filePath : string) (k : MediaType) (w w' : World) (t : option string) :
  generateThumbnail env filePath k w = (Return t, w') ->
  forall q, on_disk q w' = true -> on_disk q w = true \/ t = Some q.
Proof.
  destruct k.
  - cbv [generateThumbnail try_catch bind date_now external modify write_file
           ret throw console_log on_disk].
    destruct (sharp_resize env filePath) as [e|]; intros [= <- <-] q; world_simpl.
    + now left.
    + intros H. apply existsb_disk_add_true in H. destruct H as [H| ->]; auto.
  - cbv [generateThumbnail try_catch bind date_now external modify write_file
           fs_rename ret throw console_log on_disk].
    destruct (ffmpeg_screenshots env filePath) as [e|].
    + intros [= <- <-] q; world_simpl. now left.
    + world_simpl. rewrite existsb_disk_add_same. intros [= <- <-] q; world_simpl.
      intros H. apply existsb_disk_add_true in H. destruct H as [H| ->]; auto.
      apply existsb_disk_remove_true in H. destruct H as [H Hne].
      apply existsb_disk_add_true in H. destruct H as [H|H]; [auto|contradiction].
Qed.

End RunFacts.

(** X12.  With a gateway that takes path strings and does not write to the
    local disk, a single-item run in which the thumbnail tool, both uploads
    and the creation of the document succeed answers 201 with a document that
    has a thumbnail URL, and cleans up after itself: the staged file is gone
    and no path is on disk that was not there before the run (the thumbnail
    it generated is unlinked too). *)
Theorem successful_run_cleans_up
    (env : Env) (gateway : Cloudinary.JsFile -> string -> M CloudResult)
    (req : GalleryController.Request) (f : GalleryController.UploadedFile) (w : World) :
  GalleryController.file req = Some f ->
  (forall p folder w0, exists r w1,
      gateway (Cloudinary.FPath p) folder w0 = (Return r, w1) /\ fs w1 = fs w0) ->
  (forall d, db_create env d = None) ->
  match GalleryController.mediaTypeOf (GalleryController.mimetype f) with
  | Image => sharp_resize env (GalleryController.path f)
  | Video => ffmpeg_screenshots env (GalleryController.path f)
  end = None ->
  exists d w',
    GalleryController.createGalleryItem env gateway req w =
      (Return (GalleryController.Responded
         {| GalleryController.res_status := 201;
            GalleryController.res_body :=
              [("success", GalleryController.JBool true);
               ("data", GalleryController.JDoc d)] |}), w') /\
    thumbnailUrl d <> None /\
    on_disk (GalleryController.path f) w' = false /\
    (forall q, on_disk q w' = true -> on_disk q w = true).
Proof.
  intros Hf Hgw Hdb Htool.
  destruct (StageFacts.extractMetadata_effects env (GalleryController.path f)
              (GalleryController.mediaTypeOf (GalleryController.mimetype f)) w)
    as (m & w0 & Hm & Hfs0 & _).
  destruct (StageFacts.generateThumbnail_effects env (GalleryController.path f)
              (GalleryController.mediaTypeOf (GalleryController.mimetype f)) w0)
    as (t & w1 & Ht & Hsome & _).
  rewrite Htool in Hsome. subst t.
  pose proof (RunFacts.generateThumbnail_adds_only_the_thumbnail _ _ _ _ Ht) as Hadd.
  set (tp := GalleryController.thumbnailPathAt (clock w0)) in *.
  destruct (Hgw tp "gallery/thumbnails" w1) as (r1 & w2 & Hup1 & Hfs2).
  destruct (RunFacts.fs_unlink_logged_disk tp w2) as (w3 & Hun1 & _ & Hsub3).
  destruct (Hgw (GalleryController.path f) "gallery" w3) as (r2 & w4 & Hup2 & Hfs4).
  set (d := GalleryController.single_doc req
              (GalleryController.mediaTypeOf (GalleryController.mimetype f))
              (secure_url r2) (Some (secure_url r1)) m).
  set (w5 := add_doc d (add_call (DbCreate (url d)) (latency env (DbCreate (url d))) w4)).
  destruct (RunFacts.fs_unlink_logged_disk (GalleryController.path f) w5)
    as (w6 & Hun2 & Hgone & Hsub6).
  exists d, w6. split; [|split; [discriminate|split; [exact Hgone|]]].
  - unfold GalleryController.createGalleryItem, GalleryController.catchAsync, try_catch.
    rewrite Hf. unfold bind at 1. rewrite Hm.
    unfold bind at 1. rewrite Ht.
    unfold bind at 1, GalleryController.upload_thumbnail.
    unfold bind at 1. rewrite Hup1.
    unfold bind at 1. rewrite Hun1. unfold ret at 1.
    unfold bind at 1. rewrite Hup2.
    unfold bind at 1, GalleryController.GalleryItem_create, bind at 1, external, modify.
    fold d. rewrite (Hdb d).
    unfold bind at 1, modify, ret at 1.
    unfold bind at 1. fold w5. rewrite Hun2. reflexivity.
  - intros q Hq.
    destruct (Hsub6 q Hq) as [Hq5 _].
    assert (Hq3 : on_disk q w3 = true).
    { unfold on_disk in *. rewrite <- Hfs4. exact Hq5. }
    destruct (Hsub3 q Hq3) as [Hq2 Hne].
    assert (Hq1 : on_disk q w1 = true).
    { unfold on_disk in *. rewrite <- Hfs2. exact Hq2. }
    destruct (Hadd q Hq1) as [Hq0|Hthumb].
    + unfold on_disk in *. rewrite <- Hfs0. exact Hq0.
    + injection Hthumb as Hthumb. congruence.
Qed.

(** Witness for X12: a PNG through the gateway that takes path strings. *)
Lemma successful_run_cleans_up_witness :
  exists d w',
    GalleryController.createGalleryItem Fixtures.env_ok
      (Fixtures.path_gateway Fixtures.env_ok) (Fixtures.single Fixtures.photo) Fixtures.disk =
      (Return (GalleryController.Responded
         {| GalleryController.res_status := 201;
            GalleryController.res_body :=
              [("success", GalleryController.JBool true);
               ("data", GalleryController.JDoc d)] |}), w') /\
    thumbnailUrl d <> None /\
    on_disk "/uploads/photo.png" w' = false /\
    (forall q, on_disk q w' = true -> on_disk q Fixtures.disk = true).
Proof.
  apply (@successful_run_cleans_up Fixtures.env_ok (Fixtures.path_gateway Fixtures.env_ok)
           (Fixtures.single Fixtures.photo) Fixtures.photo Fixtures.disk).
  - reflexivity.
  - intros p folder w0. do 2 eexists. split; reflexivity.
  - reflexivity.
  - reflexivity.
Defined.

Module AppBulkFacts.

Import Cloudinary GalleryController.

(** A per-file run through the repository's gateway: it settles to [null],
    stores nothing remotely and removes no staged file. *)
Lemma processFile_refused (env : Env) (req : Request) (f : UploadedFile)
    (uploadedItems : list Doc) (w : World) :
  exists w',
    App.processFile env req f uploadedItems w = (Return (None, uploadedItems), w') /\
    remote w' = remote w /\
    (forall q, q <> "/tmp/thumbnail-1.jpg" -> on_disk q w = true -> on_disk q w' = true).
Proof.
  destruct (StageFacts.extractMetadata_effects env (path f) (mediaTypeOf (mimetype f)) w)
    as (m & w0 & Hm & Hfs0 & Hr0 & _).
  destruct (StageFacts.generateThumbnail_effects env (path f) (mediaTypeOf (mimetype f)) w0)
    as (t & w1 & Ht & _ & _ & Hkeep & _ & Hr1).
  assert (Hrun : exists w',
             App.processFile env req f uploadedItems w = (Return (None, uploadedItems), w') /\
             fs w' = fs w1 /\ remote w' = remote w1).
  { unfold App.processFile, processFile, try_catch.
    unfold bind at 1. rewrite Hm.
    unfold bind at 1. rewrite Ht.
    unfold bind at 1, upload_thumbnail.
    destruct t as [tp|].
    - unfold bind at 1. rewrite CloudinaryFacts.uploadToCloudinary_path.
      eexists. split; [reflexivity|]. split; reflexivity.
    - cbn [ret]. unfold bind at 1. rewrite CloudinaryFacts.uploadToCloudinary_path.
      eexists. split; [reflexivity|]. split; reflexivity. }
  destruct Hrun as (w' & Hrun & Hfs & Hr).
  exists w'. split; [exact Hrun|]. split; [congruence|].
  intros q Hne Hq. unfold on_disk in *. rewrite Hfs. apply Hkeep; [exact Hne|].
  rewrite Hfs0. exact Hq.
Qed.

Lemma process_batch_refused (env : Env) (req : Request) (batch : list UploadedFile)
    (uploadedItems : list Doc) (w : World) :
  exists w',
    process_batch env (uploadToCloudinary env) req batch uploadedItems w =
      (Return (List.repeat None (List.length batch), uploadedItems), w') /\
    remote w' = remote w /\
    (forall q, q <> "/tmp/thumbnail-1.jpg" -> on_disk q w = true -> on_disk q w' = true).
Proof.
  revert w. induction batch as [|f rest IH]; intros w.
  - exists w. cbn. auto.
  - destruct (processFile_refused env req f uploadedItems w) as (w1 & Hrun & Hr1 & Hk1).
    destruct (IH w1) as (w2 & Hrest & Hr2 & Hk2).
    exists w2. cbn [process_batch List.length List.repeat].
    unfold bind at 1. unfold App.processFile in Hrun. rewrite Hrun. cbn [fst snd].
    unfold bind at 1. rewrite Hrest. cbn [fst snd ret].
    split; [reflexivity|]. split; [congruence|]. auto.
Qed.

Lemma fulfilled_repeat_none (n : nat) : BatchLoop.fulfilled (List.repeat None n) = [].
Proof. induction n as [|n IH]; [reflexivity|exact IH]. Qed.

End AppBulkFacts.

(** X13.  Through the repository's gateway a bulk upload never stores
    anything: for every non-empty batch, in whatever order its runs complete,
    the handler answers 201 with [count: 0] and an empty [data], the remote
    store is unchanged, and every staged file that was on disk is still
    there. *)
Theorem bulk_upload_stores_nothing
    (env : Env)
    (completion : nat -> list GalleryController.UploadedFile
                  -> list GalleryController.UploadedFile)
    (req : GalleryController.Request)
    (fl : list GalleryController.UploadedFile) (w : World) :
  GalleryController.files req = Some fl ->
  fl <> [] ->
  exists w',
    App.bulkUploadGalleryItems env completion req w =
      (Return (GalleryController.Responded
         {| GalleryController.res_status := 201;
            GalleryController.res_body :=
              [("success", GalleryController.JBool true);
               ("count", GalleryController.JNum 0);
               ("data", GalleryController.JDocs [])] |}), w') /\
    remote w' = remote w /\
    (forall f, In f fl ->
               GalleryController.path f <> "/tmp/thumbnail-1.jpg" ->
               on_disk (GalleryController.path f) w = true ->
               on_disk (GalleryController.path f) w' = true).
Proof.
  intros Hfiles Hne.
  destruct (BulkFacts.run_batches_all env (Cloudinary.uploadToCloudinary env) req
              completion fl w)
    as (rs & w' & Hall & Hrun & _).
  destruct (AppBulkFacts.process_batch_refused env req
              (GalleryController.completion_order completion fl) [] w)
    as (w'' & Hbatch & Hr & Hk).
  rewrite Hbatch in Hall. injection Hall as Hrs Hful Hw. subst w'' rs.
  rewrite AppBulkFacts.fulfilled_repeat_none in Hrun.
  exists w'. split; [|split; [exact Hr|]].
  - unfold App.bulkUploadGalleryItems, GalleryController.bulkUploadGalleryItems,
      GalleryController.catchAsync, try_catch.
    rewrite Hfiles. destruct fl as [|f rest]; [contradiction|].
    unfold bind at 1. rewrite Hrun. reflexivity.
  - intros f _ Hp Hd. now apply Hk.
Qed.

(** Witness for X13: a batch of two images and a video, completing in the
    reverse of the request's order. *)
Lemma bulk_upload_stores_nothing_witness :
  exists w',
    App.bulkUploadGalleryItems Fixtures.env_ok MoreFixtures.last_started_first
      (Fixtures.bulk [Fixtures.photo; Fixtures.clip; Fixtures.photo2]) Fixtures.disk =
      (Return (GalleryController.Responded
         {| GalleryController.res_status := 201;
            GalleryController.res_body :=
              [("success", GalleryController.JBool true);
               ("count", GalleryController.JNum 0);
               ("data", GalleryController.JDocs [])] |}), w') /\
    remote w' = remote Fixtures.disk /\
    (forall f, In f [Fixtures.photo; Fixtures.clip; Fixtures.photo2] ->
               GalleryController.path f <> "/tmp/thumbnail-1.jpg" ->
               on_disk (GalleryController.path f) Fixtures.disk = true ->
               on_disk (GalleryController.path f) w' = true).
Proof.
  apply (@bulk_upload_stores_nothing Fixtures.env_ok MoreFixtures.last_started_first
           (Fixtures.bulk [Fixtures.photo; Fixtures.clip; Fixtures.photo2])
           [Fixtures.photo; Fixtures.clip; Fixtures.photo2] Fixtures.disk).
  - reflexivity.
  - discriminate.
Defined.

(** X14.  The batch loop ends, and when it has ended every file of the
    request has been dispatched and has settled exactly once: the settled
    runs are a permutation of the request's files and nothing is in flight. *)
Theorem every_file_settles_exactly_once (fl : list GalleryController.UploadedFile) :
  (exists s, BatchLoop.reachable fl s /\ BatchLoop.finished fl s) /\
  (forall s, BatchLoop.reachable fl s -> BatchLoop.finished fl s ->
             Permutation (BatchLoop.settled s) fl /\ BatchLoop.in_flight s = []).
Proof.
  split.
  - apply BatchLoopFacts.loop_can_finish.
  - intros s Hr Hfin. split.
    + now apply BatchLoopFacts.finished_all_settled.
    + apply Hfin.
Qed.

(** Witness for X14: two files, settled in the reverse of their order. *)
Lemma every_file_settles_exactly_once_witness :
  Permutation [Fixtures.pdf; Fixtures.photo] [Fixtures.photo; Fixtures.pdf].
Proof.
  pose (fl := [Fixtures.photo; Fixtures.pdf]).
  apply (proj2 (every_file_settles_exactly_once fl)
           {| BatchLoop.next_index := 5;
              BatchLoop.in_flight := [];
              BatchLoop.settled := [Fixtures.pdf; Fixtures.photo] |}).
  - eapply BatchLoop.reach_step.
    + eapply BatchLoop.reach_step.
      * eapply BatchLoop.reach_step; [apply BatchLoop.reach_initial|].
        apply BatchLoop.step_dispatch; [reflexivity|cbn; lia].
      * apply (@BatchLoop.step_settle fl
                 {| BatchLoop.next_index := 5;
                    BatchLoop.in_flight := [Fixtures.photo; Fixtures.pdf];
                    BatchLoop.settled := [] |}
                 [Fixtures.photo] Fixtures.pdf []).
        reflexivity.
    + apply (@BatchLoop.step_settle fl
               {| BatchLoop.next_index := 5;
                  BatchLoop.in_flight := [Fixtures.photo];
                  BatchLoop.settled := [Fixtures.pdf] |}
               [] Fixtures.photo []).
      reflexivity.
  - split; [reflexivity|cbn; lia].
Defined.

(** ** Deleting several assets *)

Module MultiFacts.

Import Cloudinary CloudinaryMulti.


End MultiFacts.



(** ** The scheduled jobs *)

Module SchedulerFacts.

Import Scheduler.

Lemma unique_name (l : list Entry) (a b : Entry) :
  NoDup (List.map entry_name l) -> In a l -> In b l ->
  entry_name a = entry_name b -> a = b.
Proof.
  induction l as [|x l IH]; intros Hnd Ha Hb Hname; [contradiction|].
  cbn in Hnd. inversion Hnd as [|? ? Hnot Hnd']; subst.
  destruct Ha as [<-|Ha], Hb as [<-|Hb]; auto.
  - exfalso. apply Hnot. rewrite Hname. now apply List.in_map.
  - exfalso. apply Hnot. rewrite <- Hname. now apply List.in_map.
Qed.

Lemma stat_found (file : string) (l : list Entry) (e : Entry) :
  stat file l = Some e -> In e l /\ entry_name e = file.
Proof.
  unfold stat. intros H. apply List.find_some in H. destruct H as [Hin Heq].
  split; [exact Hin|]. now apply String.eqb_eq.
Qed.

Lemma stat_unique (l : list Entry) (x : Entry) :
  NoDup (List.map entry_name l) -> In x l -> stat (entry_name x) l = Some x.
Proof.
  intros Hnd Hin. unfold stat.
  destruct (List.find (fun e => String.eqb (entry_name e) (entry_name x)) l) as [y|] eqn:E.
  - apply List.find_some in E. destruct E as [Hy Heq]. apply String.eqb_eq in Heq.
    f_equal. now apply (unique_name l).
  - exfalso. apply (List.find_none _ _ E) in Hin. cbv beta in Hin.
    now rewrite String.eqb_refl in Hin.
Qed.

Lemma without_in (file : string) (l : list Entry) (e : Entry) :
  In e (without file l) <-> In e l /\ entry_name e <> file.
Proof.
  unfold without. rewrite List.filter_In. split; intros [H1 H2]; split; auto.
  - intros Heq. apply String.eqb_eq in Heq. now rewrite Heq in H2.
  - destruct (String.eqb (entry_name e) file) eqn:E; [|reflexivity].
    apply String.eqb_eq in E. contradiction.
Qed.

Lemma NoDup_without (file : string) (l : list Entry) :
  NoDup (List.map entry_name l) -> NoDup (List.map entry_name (without file l)).
Proof.
  induction l as [|x l IH]; intros Hnd; [constructor|].
  cbn in Hnd. inversion Hnd as [|? ? Hnot Hnd']; subst.
  unfold without in *. cbn.
  destruct (String.eqb (entry_name x) file); cbn; [now apply IH|].
  constructor; [|now apply IH].
  intros Hin. apply Hnot. apply List.in_map_iff in Hin.
  destruct Hin as (y & Hy & Hin). apply List.filter_In in Hin.
  rewrite <- Hy. apply List.in_map. tauto.
Qed.

Lemma without_unique (a b : list Entry) (x : Entry) :
  NoDup (List.map entry_name (a ++ x :: b)) ->
  without (entry_name x) (a ++ x :: b) = (a ++ b)%list.
Proof.
  intros Hnd. rewrite List.map_app in Hnd. cbn in Hnd.
  pose proof (List.NoDup_remove_2 _ _ _ Hnd) as Hnot.
  assert (Hsame : forall l, (forall e, In e l -> entry_name e <> entry_name x) ->
                            without (entry_name x) l = l).
  { induction l as [|y l IH]; intros H; [reflexivity|].
    unfold without in *. cbn.
    destruct (String.eqb (entry_name y) (entry_name x)) eqn:E.
    - apply String.eqb_eq in E. exfalso. apply (H y); [now left|exact E].
    - cbn. f_equal. apply IH. intros e He. apply H. now right. }
  unfold without in *. rewrite List.filter_app. cbn. rewrite String.eqb_refl. cbn.
  f_equal; apply Hsame; intros e He Heq; apply Hnot; apply List.in_or_app;
    [left|right]; rewrite <- Heq; now apply List.in_map.
Qed.

Section Sweep.

Variable skip : string -> bool.
Variables maxAge now : Z.
Variables dir notice : string.

Local Abbreviation kept := (spared skip maxAge now).

(** Whatever happens, an entry that is skipped by name, not older than the
    limit, or a directory, survives the loop. *)
Lemma sweep_spares (files : list string) (entries : list Entry) (out : list string)
    (e : Entry) :
  NoDup (List.map entry_name entries) ->
  In e entries ->
  (kept e = true \/ is_directory e = true) ->
  In e (fst (fst (sweep skip maxAge now dir notice files entries out))).
Proof.
  revert entries out. induction files as [|file rest IH]; intros entries out Hnd Hin Hsafe;
    [exact Hin|].
  cbn [sweep]. destruct (skip file) eqn:Hskip; [now apply IH|].
  destruct (stat file entries) as [stats|] eqn:Hstat; [|exact Hin].
  destruct (maxAge <? now - mtimeMs stats) eqn:Hold; [|now apply IH].
  destruct (is_directory stats) eqn:Hdir; [exact Hin|].
  apply stat_found in Hstat. destruct Hstat as [Hs Hname].
  apply IH; [now apply NoDup_without| |exact Hsafe].
  apply without_in. split; [exact Hin|].
  intros Heq. assert (e = stats) by (apply (unique_name entries); congruence).
  subst stats. unfold spared in Hsafe. rewrite Heq, Hskip, Hold in Hsafe.
  destruct Hsafe as [H|H]; [discriminate|congruence].
Qed.

(** Without an old directory in the way the loop removes exactly the
    entries it must not keep, and logs each of them. *)
Lemma sweep_exact (todo done : list Entry) (out : list string) :
  NoDup (List.map entry_name (done ++ todo)) ->
  Forall (fun e => kept e = false -> is_directory e = false) todo ->
  sweep skip maxAge now dir notice (List.map entry_name todo) (done ++ todo) out
  = ((done ++ List.filter kept todo)%list,
     (out ++ List.map (deletion_notice dir notice)
                      (List.filter (fun e => negb (kept e)) todo))%list,
     None).
Proof.
  revert done out. induction todo as [|x todo IH]; intros done out Hnd Hfiles.
  - cbn. now rewrite !List.app_nil_r.
  - inversion Hfiles as [|? ? Hx Hrest]; subst.
    assert (Hshift : (done ++ x :: todo)%list = ((done ++ [x]) ++ todo)%list)
      by (now rewrite <- List.app_assoc).
    assert (Hin : In x (done ++ x :: todo)) by (apply List.in_or_app; right; now left).
    cbn [List.map sweep List.filter].
    destruct (skip (entry_name x)) eqn:Hskip.
    { assert (Hk : kept x = true) by (unfold spared; now rewrite Hskip).
      rewrite Hk. cbn [negb]. rewrite Hshift, IH by (try rewrite <- Hshift; assumption).
      now rewrite <- !List.app_assoc. }
    rewrite (stat_unique _ _ Hnd Hin).
    destruct (maxAge <? now - mtimeMs x) eqn:Hold.
    + assert (Hk : kept x = false) by (unfold spared; now rewrite Hskip, Hold).
      rewrite Hk, (Hx Hk). cbn [negb List.map].
      rewrite without_unique by exact Hnd.
      rewrite IH; [|rewrite List.map_app in *; cbn in Hnd;
                     eapply List.NoDup_remove_1; exact Hnd
                   |exact Hrest].
      unfold deletion_notice at 2. now rewrite <- !List.app_assoc.
    + assert (Hk : kept x = true) by (unfold spared; now rewrite Hskip, Hold).
      rewrite Hk. cbn [negb]. rewrite Hshift, IH by (try rewrite <- Hshift; assumption).
      now rewrite <- !List.app_assoc.
Qed.

(** An old directory ends the loop: what comes after it is not looked at. *)
Lemma sweep_stops (pre post done : list Entry) (x : Entry) (out : list string) :
  NoDup (List.map entry_name (done ++ pre ++ x :: post)) ->
  Forall (fun e => kept e = false -> is_directory e = false) pre ->
  kept x = false -> is_directory x = true ->
  sweep skip maxAge now dir notice (List.map entry_name (pre ++ x :: post))
        (done ++ pre ++ x :: post) out
  = ((done ++ List.filter kept pre ++ x :: post)%list,
     (out ++ List.map (deletion_notice dir notice)
                      (List.filter (fun e => negb (kept e)) pre))%list,
     Some ("EISDIR: illegal operation on a directory, unlink '"
           ++ Js.path_join [dir; entry_name x] ++ "'")%string).
Proof.
  revert done out. induction pre as [|y pre IH]; intros done out Hnd Hfiles Hx Hdir.
  - cbn [List.app List.map sweep List.filter] in *.
    assert (Hin : In x (done ++ x :: post)) by (apply List.in_or_app; right; now left).
    pose proof Hx as Hx'. unfold spared in Hx'.
    apply Bool.orb_false_iff in Hx'. destruct Hx' as [Hskip Hold].
    apply Bool.negb_false_iff in Hold.
    rewrite Hskip, (stat_unique _ _ Hnd Hin), Hold, Hdir. now rewrite List.app_nil_r.
  - inversion Hfiles as [|? ? Hy Hrest]; subst.
    assert (Hshift : (done ++ y :: pre ++ x :: post)%list
                     = ((done ++ [y]) ++ pre ++ x :: post)%list)
      by (now rewrite <- List.app_assoc).
    assert (Hin : In y (done ++ y :: pre ++ x :: post))
      by (apply List.in_or_app; right; now left).
    cbn [List.app List.map sweep List.filter] in *.
    destruct (skip (entry_name y)) eqn:Hskip.
    { assert (Hk : kept y = true) by (unfold spared; now rewrite Hskip).
      rewrite Hk. cbn [negb]. rewrite Hshift, IH by (try rewrite <- Hshift; assumption).
      now rewrite <- !List.app_assoc. }
    rewrite (stat_unique _ _ Hnd Hin).
    destruct (maxAge <? now - mtimeMs y) eqn:Hold.
    + assert (Hk : kept y = false) by (unfold spared; now rewrite Hskip, Hold).
      rewrite Hk, (Hy Hk). cbn [negb List.map].
      rewrite (without_unique done (pre ++ x :: post) y) by exact Hnd.
      rewrite IH; [|rewrite List.map_app in *; cbn in Hnd;
                     eapply List.NoDup_remove_1; exact Hnd
                   |exact Hrest|exact Hx|exact Hdir].
      unfold deletion_notice at 2. now rewrite <- !List.app_assoc.
    + assert (Hk : kept y = true) by (unfold spared; now rewrite Hskip, Hold).
      rewrite Hk. cbn [negb]. rewrite Hshift, IH by (try rewrite <- Hshift; assumption).
      now rewrite <- !List.app_assoc.
Qed.

End Sweep.

End SchedulerFacts.

(** X16.  [cleanTempUploads] never removes what it should keep: when the temp
    directory is missing nothing at all happens, and otherwise every entry
    that is at most one day old (exactly one day included) or is a directory
    is still there afterwards; the backup directory is never touched. *)
Theorem temp_cleanup_spares_recent_files (dirname : string) (now : Z) (d : Scheduler.Disk) :
  (Scheduler.tempDir d = None -> Scheduler.cleanTempUploads dirname now d = d) /\
  (forall entries e,
     Scheduler.tempDir d = Some entries ->
     NoDup (List.map Scheduler.entry_name entries) ->
     In e entries ->
     (now - Scheduler.mtimeMs e <= Scheduler.oneDay \/ Scheduler.is_directory e = true) ->
     exists entries',
       Scheduler.tempDir (Scheduler.cleanTempUploads dirname now d) = Some entries' /\
       In e entries' /\
       Scheduler.backupDir (Scheduler.cleanTempUploads dirname now d)
         = Scheduler.backupDir d).
Proof.
  split.
  - intros Hnone. unfold Scheduler.cleanTempUploads. now rewrite Hnone.
  - intros entries e Htemp Hnd Hin Hsafe.
    pose proof (@SchedulerFacts.sweep_spares (fun _ => false) Scheduler.oneDay now
                  (Scheduler.tempPath dirname) "Deleted temporary file: "
                  (List.map Scheduler.entry_name entries) entries (Scheduler.output d) e
                  Hnd Hin) as Hkeep.
    unfold Scheduler.cleanTempUploads. rewrite Htemp.
    destruct (Scheduler.sweep _ _ _ _ _ _ _ _) as [[entries' out] [err|]];
      cbn [fst] in Hkeep; eexists; cbn; (split; [reflexivity|]); (split; [|reflexivity]);
      apply Hkeep; unfold Scheduler.spared; cbn [orb];
      (destruct Hsafe as [Hage|Hdir]; [left|now right]);
      apply Bool.negb_true_iff, Z.ltb_ge; exact Hage.
Qed.

(** Witness for X16: the upload that is exactly one day old stays. *)
Lemma temp_cleanup_spares_recent_files_witness :
  exists entries',
    Scheduler.tempDir
      (Scheduler.cleanTempUploads "/srv/utils" JobFixtures.morning JobFixtures.files_only)
      = Some entries' /\
    In JobFixtures.day_old_upload entries' /\
    Scheduler.backupDir
      (Scheduler.cleanTempUploads "/srv/utils" JobFixtures.morning JobFixtures.files_only)
      = Scheduler.backupDir JobFixtures.files_only.
Proof.
  apply (proj2 (temp_cleanup_spares_recent_files "/srv/utils" JobFixtures.morning
                  JobFixtures.files_only)
           [JobFixtures.fresh_upload; JobFixtures.stale_upload;
            JobFixtures.day_old_upload; JobFixtures.older_upload]).
  - reflexivity.
  - repeat constructor; cbn; intuition discriminate.
  - cbn. tauto.
  - left. vm_compute. discriminate.
Defined.

(** X17.  When the temp directory holds no subdirectory older than one day,
    [cleanTempUploads] removes exactly the entries older than one day: what
    is left is the entries at most one day old, in their order, and one line
    per removed file is logged and no error.  The line names the file by
    [path.join(tempDir, file)], where [tempDir] is
    [path.join(__dirname, '../uploads/temp')], normalised. *)
Theorem temp_cleanup_removes_exactly_the_old_files
    (dirname : string) (now : Z) (d : Scheduler.Disk) (entries : list Scheduler.Entry) :
  Scheduler.tempDir d = Some entries ->
  NoDup (List.map Scheduler.entry_name entries) ->
  Forall (fun e => Scheduler.oneDay < now - Scheduler.mtimeMs e ->
                   Scheduler.is_directory e = false) entries ->
  Scheduler.cleanTempUploads dirname now d =
    {| Scheduler.tempDir :=
         Some (List.filter (fun e => now - Scheduler.mtimeMs e <=? Scheduler.oneDay) entries);
       Scheduler.backupDir := Scheduler.backupDir d;
       Scheduler.output :=
         (Scheduler.output d ++
          List.map (Scheduler.deletion_notice (Scheduler.tempPath dirname)
                      "Deleted temporary file: ")
            (List.filter (fun e => Scheduler.oneDay <? now - Scheduler.mtimeMs e) entries))%list
    |}.
Proof.
  intros Htemp Hnd Hfiles.
  unfold Scheduler.cleanTempUploads. rewrite Htemp.
  rewrite (@SchedulerFacts.sweep_exact (fun _ => false) Scheduler.oneDay now
             (Scheduler.tempPath dirname) "Deleted temporary file: " entries [] _ Hnd).
  - cbn [List.app]. f_equal.
    + f_equal. apply List.filter_ext. intros e. unfold Scheduler.spared. cbn [orb].
      destruct (Z.ltb_spec Scheduler.oneDay (now - Scheduler.mtimeMs e)),
               (Z.leb_spec (now - Scheduler.mtimeMs e) Scheduler.oneDay);
        cbn; try reflexivity; lia.
    + f_equal. f_equal. apply List.filter_ext. intros e. unfold Scheduler.spared.
      cbn [orb]. now rewrite Bool.negb_involutive.
  - eapply List.Forall_impl; [|exact Hfiles]. cbv beta. intros e He Hk. apply He.
    unfold Scheduler.spared in Hk. cbn [orb] in Hk.
    apply Bool.negb_false_iff, Z.ltb_lt in Hk. exact Hk.
Qed.

(** Witness for X17: four uploads, two of them older than a day; the module
    lives in [/srv/utils], so the temp directory is [/srv/uploads/temp]. *)
Lemma temp_cleanup_removes_exactly_the_old_files_witness :
  Scheduler.cleanTempUploads "/srv/utils" JobFixtures.morning JobFixtures.files_only =
    {| Scheduler.tempDir := Some [JobFixtures.fresh_upload; JobFixtures.day_old_upload];
       Scheduler.backupDir := Some [JobFixtures.old_notes; JobFixtures.old_backup];
       Scheduler.output :=
         ["Deleted temporary file: /srv/uploads/temp/c.png";
          "Deleted temporary file: /srv/uploads/temp/d.png"] |}.
Proof.
  apply (@temp_cleanup_removes_exactly_the_old_files "/srv/utils" JobFixtures.morning
           JobFixtures.files_only
           [JobFixtures.fresh_upload; JobFixtures.stale_upload;
            JobFixtures.day_old_upload; JobFixtures.older_upload]).
  - reflexivity.
  - repeat constructor; cbn; intuition discriminate.
  - repeat constructor.
Defined.

(** X18.  A subdirectory older than one day ends the sweep: [unlink] rejects
    on it, the error is logged, and the entries listed after it are left in
    place however old they are; of the entries before it the old files have
    been removed. *)
Theorem temp_cleanup_stops_at_an_old_directory
    (dirname : string) (now : Z) (d : Scheduler.Disk)
    (pre post : list Scheduler.Entry) (x : Scheduler.Entry) :
  Scheduler.tempDir d = Some (pre ++ x :: post)%list ->
  NoDup (List.map Scheduler.entry_name (pre ++ x :: post)) ->
  Forall (fun e => Scheduler.oneDay < now - Scheduler.mtimeMs e ->
                   Scheduler.is_directory e = false) pre ->
  Scheduler.oneDay < now - Scheduler.mtimeMs x ->
  Scheduler.is_directory x = true ->
  exists notices error,
    Scheduler.cleanTempUploads dirname now d =
      {| Scheduler.tempDir :=
           Some (List.filter (fun e => now - Scheduler.mtimeMs e <=? Scheduler.oneDay) pre
                 ++ x :: post)%list;
         Scheduler.backupDir := Scheduler.backupDir d;
         Scheduler.output :=
           (Scheduler.output d ++ notices
            ++ [("Error cleaning up temporary uploads: " ++ error)%string])%list |}.
Proof.
  intros Htemp Hnd Hfiles Hold Hdir.
  unfold Scheduler.cleanTempUploads. rewrite Htemp.
  assert (Hx : Scheduler.spared (fun _ => false) Scheduler.oneDay now x = false).
  { unfold Scheduler.spared. cbn [orb]. apply Bool.negb_false_iff, Z.ltb_lt. exact Hold. }
  rewrite (@SchedulerFacts.sweep_stops (fun _ => false) Scheduler.oneDay now
             (Scheduler.tempPath dirname) "Deleted temporary file: " pre post [] x _
             Hnd).
  - cbn [List.app]. do 2 eexists. f_equal.
    + f_equal. f_equal. apply List.filter_ext. intros e. unfold Scheduler.spared. cbn [orb].
      destruct (Z.ltb_spec Scheduler.oneDay (now - Scheduler.mtimeMs e)),
               (Z.leb_spec (now - Scheduler.mtimeMs e) Scheduler.oneDay);
        cbn; try reflexivity; lia.
    + rewrite <- List.app_assoc. reflexivity.
  - eapply List.Forall_impl; [|exact Hfiles]. cbv beta. intros e He Hk. apply He.
    unfold Scheduler.spared in Hk. cbn [orb] in Hk.
    apply Bool.negb_false_iff, Z.ltb_lt in Hk. exact Hk.
  - exact Hx.
  - exact Hdir.
Qed.

(** Witness for X18: a five-day-old upload listed after an old folder stays. *)
Lemma temp_cleanup_stops_at_an_old_directory_witness :
  exists notices error,
    Scheduler.cleanTempUploads "/srv/utils" JobFixtures.morning JobFixtures.with_folder =
      {| Scheduler.tempDir :=
           Some [JobFixtures.fresh_upload; JobFixtures.stale_folder;
                 JobFixtures.older_upload];
         Scheduler.backupDir := None;
         Scheduler.output :=
           (notices ++ [("Error cleaning up temporary uploads: " ++ error)%string])%list |}.
Proof.
  apply (@temp_cleanup_stops_at_an_old_directory "/srv/utils" JobFixtures.morning
           JobFixtures.with_folder
           [JobFixtures.stale_upload; JobFixtures.fresh_upload]
           [JobFixtures.older_upload] JobFixtures.stale_folder).
  - reflexivity.
  - repeat constructor; cbn; intuition discriminate.
  - repeat constructor.
  - vm_compute. reflexivity.
  - reflexivity.
Defined.

Module BackupFacts.

Import Scheduler.

Lemma backupName_prefixed (iso : string) : Js.startsWith "backup-" (backupName iso) = true.
Proof.
  unfold Js.startsWith, backupName. cbn. now destruct (dashes iso ++ ".gz").
Qed.

Lemma NoDup_replaced (l : list Entry) (a : Entry) :
  NoDup (List.map entry_name l) ->
  NoDup (List.map entry_name (without (entry_name a) l ++ [a])).
Proof.
  intros Hnd. rewrite List.map_app. cbn.
  apply List.NoDup_app; [now apply SchedulerFacts.NoDup_without|repeat constructor; auto|].
  intros n Hn [<-|[]]. apply List.in_map_iff in Hn. destruct Hn as (y & Hy & Hin).
  apply SchedulerFacts.without_in in Hin. tauto.
Qed.

End BackupFacts.

(** X19.  [backupDatabase] only ever removes old archives: when [mongodump]
    fails nothing is removed, and otherwise every entry of the backup
    directory that is not the archive being written and whose name does not
    start with [backup-], or that is at most seven days old, or that is a
    directory, is still there afterwards; the temp directory is never
    touched. *)
Theorem backup_removes_only_old_archives
    (dirname iso : string) (dump : string + Z) (now : Z) (d : Scheduler.Disk)
    (entries : list Scheduler.Entry) (e : Scheduler.Entry) :
  Scheduler.backupDir d = Some entries ->
  NoDup (List.map Scheduler.entry_name entries) ->
  In e entries ->
  Scheduler.entry_name e <> Scheduler.backupName iso ->
  (Js.startsWith "backup-" (Scheduler.entry_name e) = false \/
   now - Scheduler.mtimeMs e <= Scheduler.sevenDays \/
   Scheduler.is_directory e = true) ->
  exists entries',
    Scheduler.backupDir (Scheduler.backupDatabase dirname iso dump now d) = Some entries' /\
    In e entries' /\
    (forall error, dump = inl error -> entries' = entries) /\
    Scheduler.tempDir (Scheduler.backupDatabase dirname iso dump now d)
      = Scheduler.tempDir d.
Proof.
  intros Hdir Hnd Hin Hname Hsafe.
  unfold Scheduler.backupDatabase. rewrite Hdir.
  destruct dump as [error|written].
  - exists entries. cbn. repeat split; auto.
  - set (archive := {| Scheduler.entry_name := Scheduler.backupName iso;
                       Scheduler.mtimeMs := written;
                       Scheduler.is_directory := false |}).
    set (entries1 := (Scheduler.without (Scheduler.backupName iso) entries ++ [archive])%list).
    assert (Hnd1 : NoDup (List.map Scheduler.entry_name entries1))
      by (apply (BackupFacts.NoDup_replaced entries archive Hnd)).
    assert (Hin1 : In e entries1).
    { apply List.in_or_app. left. apply SchedulerFacts.without_in. tauto. }
    pose proof (@SchedulerFacts.sweep_spares
                  (fun file => negb (Js.startsWith "backup-" file)) Scheduler.sevenDays now
                  (Scheduler.backupsPath dirname) "Deleted old backup: "
                  (List.map Scheduler.entry_name entries1) entries1
                  (Scheduler.output d ++
                   [("Database backup created at: "
                     ++ Js.path_join [Scheduler.backupsPath dirname;
                                      Scheduler.backupName iso])%string])%list
                  e Hnd1 Hin1) as Hkeep.
    destruct (Scheduler.sweep _ _ _ _ _ _ _ _) as [[entries' out] [err|]];
      cbn [fst] in Hkeep; exists entries'; cbn;
      (split; [reflexivity|]); (split; [|split; [discriminate|reflexivity]]);
      apply Hkeep; unfold Scheduler.spared;
      (destruct Hsafe as [Hpre|[Hage|Hd]];
       [left; now rewrite Hpre
       |left; apply Bool.orb_true_iff; right;
        apply Bool.negb_true_iff, Z.ltb_ge; exact Hage
       |now right]).
Qed.

(** Witness for X19: a text file that has been in the backup directory for
    300 days outlives a backup run that removes a 30-day-old archive. *)
Lemma backup_removes_only_old_archives_witness :
  exists entries',
    Scheduler.backupDir
      (Scheduler.backupDatabase "/srv/utils" "2024-11-02T00:00:00.000Z"
         (inr (JobFixtures.morning - 5)) JobFixtures.morning JobFixtures.files_only)
      = Some entries' /\
    In JobFixtures.old_notes entries' /\
    ~ In JobFixtures.old_backup entries'.
Proof.
  destruct (@backup_removes_only_old_archives "/srv/utils" "2024-11-02T00:00:00.000Z"
              (inr (JobFixtures.morning - 5)) JobFixtures.morning JobFixtures.files_only
              [JobFixtures.old_notes; JobFixtures.old_backup] JobFixtures.old_notes)
    as (entries' & Hdir & Hin & _).
  - reflexivity.
  - repeat constructor; cbn; intuition discriminate.
  - now left.
  - discriminate.
  - left. reflexivity.
  - exists entries'. split; [exact Hdir|]. split; [exact Hin|].
    vm_compute in Hdir. injection Hdir as <-.
    intros [H|[H|[]]]; discriminate H.
Defined.

(** ** The API error handler *)

(** X20.  Outside development [apiErrorHandler] never sends a stack trace or
    the error's details: whatever the error and whatever [NODE_ENV] other than
    ['development'], the body it sends has neither a [stack] nor an [error]
    member, and the status code is [err.statusCode] or else 500, never 0. *)
Theorem api_errors_hide_internals_outside_development
    (NODE_ENV : string) (err : ErrorController.Err) (w w' : World)
    (statusCode : Z) (body : ErrorController.Body) :
  NODE_ENV <> "development" ->
  ErrorController.apiErrorHandler NODE_ENV err w = (Return (statusCode, body), w') ->
  ErrorController.r_stack body = None /\
  ErrorController.r_error body = None /\
  statusCode <> 0 /\
  (forall c, ErrorController.err_statusCode err = Some c -> c <> 0 -> statusCode = c) /\
  (ErrorController.err_statusCode err = None -> statusCode = 500).
Proof.
  intros Henv. apply String.eqb_neq in Henv.
  unfold ErrorController.apiErrorHandler, bind, console_log, modify. rewrite Henv.
  assert (Hcode : Cloudinary.status_or (ErrorController.err_statusCode err) 500 <> 0 /\
                  (forall c, ErrorController.err_statusCode err = Some c -> c <> 0 ->
                             Cloudinary.status_or (ErrorController.err_statusCode err) 500 = c)
                  /\ (ErrorController.err_statusCode err = None ->
                      Cloudinary.status_or (ErrorController.err_statusCode err) 500 = 500)).
  { unfold Cloudinary.status_or. destruct (ErrorController.err_statusCode err) as [n|].
    - destruct (Z.eqb_spec n 0); repeat split; try lia; try discriminate.
      + intros c [= <-] Hc. contradiction.
      + now intros c [= <-] _.
    - repeat split; try lia. discriminate. }
  destruct (String.eqb (ErrorController.err_name err) "ValidationError").
  - destruct (ErrorController.err_errors err); [|discriminate].
    cbn [ret]. destruct (ErrorController.is_jwt_error (ErrorController.err_name err));
      intros [= <- <- _]; cbn; tauto.
  - cbn [ret]. destruct (ErrorController.is_jwt_error (ErrorController.err_name err));
      intros [= <- <- _]; cbn; tauto.
Qed.

(** X21.  A JSON web token error is answered with ['fail'] and
    ['Authentication failed'] in place of the error's own message, with the
    status [err.statusCode] or else 500.  Outside development that is the
    whole body, so nothing of the error is sent; in development the body
    also carries [err.stack] and the error's name, code and details.  A
    validation error is answered with ['fail'], ['Validation Error'] and one
    [{field, message}] entry per failed field, in their order. *)
Theorem api_errors_by_name (NODE_ENV : string) (err : ErrorController.Err) (w : World) :
  (ErrorController.is_jwt_error (ErrorController.err_name err) = true ->
   exists body w',
     ErrorController.apiErrorHandler NODE_ENV err w =
       (Return (Cloudinary.status_or (ErrorController.err_statusCode err) 500, body), w') /\
     ErrorController.r_status body = "fail" /\
     ErrorController.r_message body = "Authentication failed" /\
     ErrorController.r_errors body = None /\
     (NODE_ENV <> "development" ->
      ErrorController.r_stack body = None /\ ErrorController.r_error body = None) /\
     (NODE_ENV = "development" ->
      ErrorController.r_stack body = ErrorController.err_stack err /\
      ErrorController.r_error body =
        Some {| ErrorController.d_name := ErrorController.err_name err;
                ErrorController.d_code := ErrorController.err_code err;
                ErrorController.d_details := ErrorController.err_errors err |})) /\
  (forall errors,
     ErrorController.err_name err = "ValidationError" ->
     ErrorController.err_errors err = Some errors ->
     exists statusCode body w',
       ErrorController.apiErrorHandler NODE_ENV err w = (Return (statusCode, body), w') /\
       ErrorController.r_status body = "fail" /\
       ErrorController.r_message body = "Validation Error" /\
       ErrorController.r_errors body =
         Some (List.map (fun e => (ErrorController.fe_path e, ErrorController.fe_message e))
                        errors)).
Proof.
  split.
  - intros Hjwt.
    unfold ErrorController.apiErrorHandler, bind, console_log, modify.
    assert (Hname : String.eqb (ErrorController.err_name err) "ValidationError" = false).
    { unfold ErrorController.is_jwt_error in Hjwt.
      destruct (String.eqb (ErrorController.err_name err) "ValidationError") eqn:E;
        [|reflexivity].
      apply String.eqb_eq in E. rewrite E in Hjwt. discriminate. }
    rewrite Hname, Hjwt. cbn [ret]. do 2 eexists. split; [reflexivity|].
    cbn [ErrorController.r_status ErrorController.r_message ErrorController.r_errors
         ErrorController.r_stack ErrorController.r_error].
    repeat (split; [reflexivity|]).
    destruct (String.eqb NODE_ENV "development") eqn:E.
    + apply String.eqb_eq in E. split; [intros H; contradiction|]. intros _. split; reflexivity.
    + apply String.eqb_neq in E. split; [intros _; split; reflexivity|].
      intros H. contradiction.
  - intros errors Hname Herrors.
    unfold ErrorController.apiErrorHandler, bind, console_log, modify.
    rewrite Hname, Herrors. cbn [ret String.eqb]. do 3 eexists.
    split; [reflexivity|]. cbn. tauto.
Qed.

(** Witness for X20: an expired token in production. *)
Lemma api_errors_hide_internals_outside_development_witness :
  exists w',
    ErrorController.apiErrorHandler "production"
      {| ErrorController.err_name := "TokenExpiredError";
         ErrorController.err_message := Some "jwt expired";
         ErrorController.err_statusCode := None;
         ErrorController.err_code := None;
         ErrorController.err_errors := None;
         ErrorController.err_stack := Some "TokenExpiredError: jwt expired at verify.js:152" |}
      Fixtures.disk =
      (Return (500, {| ErrorController.r_status := "fail";
                       ErrorController.r_message := "Authentication failed";
                       ErrorController.r_stack := None;
                       ErrorController.r_error := None;
                       ErrorController.r_errors := None |}), w') /\
    500 <> 0.
Proof.
  eexists. split; [vm_compute; reflexivity|].
  eapply (@api_errors_hide_internals_outside_development "production"
            {| ErrorController.err_name := "TokenExpiredError";
               ErrorController.err_message := Some "jwt expired";
               ErrorController.err_statusCode := None;
               ErrorController.err_code := None;
               ErrorController.err_errors := None;
               ErrorController.err_stack :=
                 Some "TokenExpiredError: jwt expired at verify.js:152" |}
            Fixtures.disk).
  - discriminate.
  - vm_compute. reflexivity.
Defined.

(** Witness for X21: an expired token in development, where the stack
    trace goes out with the answer, and a validation error with two failed
    fields. *)
Lemma api_errors_by_name_witness :
  (exists body w',
     ErrorController.apiErrorHandler "development"
       {| ErrorController.err_name := "TokenExpiredError";
          ErrorController.err_message := Some "jwt expired";
          ErrorController.err_statusCode := None;
          ErrorController.err_code := None;
          ErrorController.err_errors := None;
          ErrorController.err_stack :=
            Some "TokenExpiredError: jwt expired at verify.js:152" |}
       Fixtures.disk = (Return (500, body), w') /\
     ErrorController.r_message body = "Authentication failed" /\
     ErrorController.r_stack body = Some "TokenExpiredError: jwt expired at verify.js:152") /\
  (exists statusCode body w',
     ErrorController.apiErrorHandler "development"
       {| ErrorController.err_name := "ValidationError";
          ErrorController.err_message := Some "GalleryItem validation failed";
          ErrorController.err_statusCode := Some 422;
          ErrorController.err_code := None;
          ErrorController.err_errors :=
            Some [{| ErrorController.fe_path := "title";
                     ErrorController.fe_message := "Please provide a title" |};
                  {| ErrorController.fe_path := "url";
                     ErrorController.fe_message := "Please provide a URL" |}];
          ErrorController.err_stack := None |}
       Fixtures.disk = (Return (statusCode, body), w') /\
     ErrorController.r_status body = "fail" /\
     ErrorController.r_message body = "Validation Error" /\
     ErrorController.r_errors body =
       Some [("title", "Please provide a title"); ("url", "Please provide a URL")]).
Proof.
  split.
  - destruct (proj1 (api_errors_by_name "development"
                       {| ErrorController.err_name := "TokenExpiredError";
                          ErrorController.err_message := Some "jwt expired";
                          ErrorController.err_statusCode := None;
                          ErrorController.err_code := None;
                          ErrorController.err_errors := None;
                          ErrorController.err_stack :=
                            Some "TokenExpiredError: jwt expired at verify.js:152" |}
                       Fixtures.disk) eq_refl)
      as (body & w' & Hrun & _ & Hmsg & _ & _ & Hdev).
    exists body, w'. split; [exact Hrun|]. split; [exact Hmsg|].
    apply (Hdev eq_refl).
  - apply (proj2 (api_errors_by_name "development"
                    {| ErrorController.err_name := "ValidationError";
                       ErrorController.err_message := Some "GalleryItem validation failed";
                       ErrorController.err_statusCode := Some 422;
                       ErrorController.err_code := None;
                       ErrorController.err_errors :=
                         Some [{| ErrorController.fe_path := "title";
                                  ErrorController.fe_message := "Please provide a title" |};
                               {| ErrorController.fe_path := "url";
                                  ErrorController.fe_message := "Please provide a URL" |}];
                       ErrorController.err_stack := None |}
                    Fixtures.disk)
             [{| ErrorController.fe_path := "title";
                 ErrorController.fe_message := "Please provide a title" |};
              {| ErrorController.fe_path := "url";
                 ErrorController.fe_message := "Please provide a URL" |}]);
      reflexivity.
Defined.

(** ** Upload errors *)

Module MulterFacts.

Import Multer.

Lemma unlink_reporting_disk (p : string) (w : World) :
  exists w',
    unlink_reporting p w = (Return tt, w') /\
    on_disk p w' = false /\
    forall q, on_disk q w' = true -> on_disk q w = true.
Proof.
  unfold unlink_reporting, try_catch, fs_unlink.
  destruct (on_disk p w) eqn:E.
  - eexists. split; [reflexivity|]. unfold on_disk. world_simpl.
    split; [apply existsb_disk_remove|]. intros q Hq.
    now apply RunFacts.existsb_disk_remove_true in Hq.
  - eexists. split; [reflexivity|]. split; [exact E|]. intros q Hq. exact Hq.
Qed.

Lemma unlink_all_disk (paths : list string) (w : World) :
  exists w',
    unlink_all paths w = (Return tt, w') /\
    (forall p, In p paths -> on_disk p w' = false) /\
    forall q, on_disk q w' = true -> on_disk q w = true.
Proof.
  revert w. induction paths as [|p rest IH]; intros w.
  - exists w. split; [reflexivity|]. split; [intros p []|auto].
  - destruct (unlink_reporting_disk p w) as (w1 & Hrun1 & Hgone & Hsub1).
    destruct (IH w1) as (w2 & Hrun2 & Hall & Hsub2).
    exists w2. cbn [unlink_all]. unfold bind at 1. rewrite Hrun1.
    split; [exact Hrun2|]. split.
    + intros q [<-|Hq]; [|now apply Hall].
      destruct (on_disk p w2) eqn:E; [|reflexivity].
      apply Hsub2 in E. congruence.
    + intros q Hq. auto.
Qed.

End MulterFacts.

(** X22.  When multer reports an error, [handleUploadError] unlinks every
    file the request had already stored ([req.file], or else each of
    [req.files]): once the unlinks it issued have completed none of them is
    on disk, and nothing else was added to the disk.  It always calls [next]
    with an error: the [ApiError] it was given, unchanged, or a new one with
    status 400.  Without an error it calls [next()] with no argument and the
    disk stays as it was. *)
Theorem upload_errors_clean_up_and_answer_400
    (file : option string) (files : option (list string)) (field : string) (w : World) :
  (forall e, exists a w',
     Multer.handleUploadError (Some e) file files field w = (Return (Some a), w') /\
     (forall p, file = Some p -> on_disk p w' = false) /\
     (forall ps p, file = None -> files = Some ps -> In p ps -> on_disk p w' = false) /\
     (forall q, on_disk q w' = true -> on_disk q w = true) /\
     (e = Multer.IsApiError a \/ statusCode a = Some 400)) /\
  (exists w',
     Multer.handleUploadError None file files field w = (Return None, w') /\
     fs w' = fs w).
Proof.
  split; [|eexists; split; reflexivity].
  intros e.
  unfold Multer.handleUploadError.
  unfold bind at 1, console_log at 1, modify.
  unfold bind at 1, console_log at 1, modify.
  set (w0 := add_log _ (add_log _ w)).
  assert (Hclean : exists w1,
             (match file, files with
              | Some p, _ =>
                  (console_log LLog ("[Multer] Cleaning up file: " ++ p) ;;;
                   Multer.unlink_reporting p)%js
              | None, Some ps =>
                  (console_log LLog ("[Multer] Cleaning up "
                                     ++ Js.show_Z (Z.of_nat (List.length ps)) ++ " files") ;;;
                   Multer.unlink_all ps)%js
              | None, None => ret tt
              end) w0 = (Return tt, w1) /\
             (forall p, file = Some p -> on_disk p w1 = false) /\
             (forall ps p, file = None -> files = Some ps -> In p ps ->
                           on_disk p w1 = false) /\
             (forall q, on_disk q w1 = true -> on_disk q w = true)).
  { destruct file as [p|]; [|destruct files as [ps|]].
    - unfold bind, console_log, modify.
      destruct (MulterFacts.unlink_reporting_disk p
                  (add_log {| level := LLog; text := "[Multer] Cleaning up file: " ++ p |} w0))
        as (w1 & -> & Hgone & Hsub).
      exists w1. split; [reflexivity|]. split; [now intros q [= <-]|].
      split; [discriminate|]. intros q Hq. apply Hsub in Hq. exact Hq.
    - unfold bind, console_log, modify.
      destruct (MulterFacts.unlink_all_disk ps
                  (add_log {| level := LLog;
                              text := "[Multer] Cleaning up "
                                      ++ Js.show_Z (Z.of_nat (List.length ps)) ++ " files" |}
                           w0))
        as (w1 & -> & Hall & Hsub).
      exists w1. split; [reflexivity|]. split; [discriminate|].
      split; [intros ps' p _ [= <-]; apply Hall|].
      intros q Hq. apply Hsub in Hq. exact Hq.
    - exists w0. split; [reflexivity|]. split; [discriminate|]. split; [discriminate|].
      auto. }
  destruct Hclean as (w1 & Hrun & Hfile & Hfiles & Hsub).
  unfold bind at 1. rewrite Hrun.
  destruct (Multer.code_is e "LIMIT_FILE_SIZE") eqn:E1;
    [do 2 eexists; split; [reflexivity|]; repeat split; auto|].
  destruct (Multer.code_is e "LIMIT_FILE_COUNT") eqn:E2;
    [do 2 eexists; split; [reflexivity|]; repeat split; auto|].
  destruct (Multer.code_is e "LIMIT_UNEXPECTED_FILE") eqn:E3;
    [do 2 eexists; split; [reflexivity|]; repeat split; auto|].
  destruct e as [a|code msg];
    do 2 eexists; (split; [reflexivity|]); repeat split; auto.
Qed.

(** Witness for X22: an oversized file in a batch of two stored files. *)
Lemma upload_errors_clean_up_and_answer_400_witness :
  exists a w',
    Multer.handleUploadError (Some (Multer.OtherError (Some "LIMIT_FILE_SIZE")
                                      (Some "File too large")))
      None (Some ["/uploads/photo.png"; "/uploads/photo2.png"]) "files" Fixtures.disk
      = (Return (Some a), w') /\
    on_disk "/uploads/photo.png" w' = false /\
    on_disk "/uploads/photo2.png" w' = false /\
    statusCode a = Some 400.
Proof.
  destruct (upload_errors_clean_up_and_answer_400 None
              (Some ["/uploads/photo.png"; "/uploads/photo2.png"]) "files" Fixtures.disk)
    as [Herr _].
  destruct (Herr (Multer.OtherError (Some "LIMIT_FILE_SIZE") (Some "File too large")))
    as (a & w' & Hrun & _ & Hfiles & _ & Hstatus).
  exists a, w'. split; [exact Hrun|].
  split; [apply (Hfiles _ _ eq_refl eq_refl); cbn; tauto|].
  split; [apply (Hfiles _ _ eq_refl eq_refl); cbn; tauto|].
  destruct Hstatus as [H|H]; [discriminate H|exact H].
Defined.
